(** * A vocabulary-training Telegram bot: the progress store, the quiz
      handlers and the reminder subscriptions

    The development embeds [data_base_tools.py] (class [BotDB]), the
    handlers of [main.py] and class [Notification] of
    [notification_scheduler.py], over the schema that [data_base.py]
    creates.  The database, the chat platform and the two random
    generators are explicit parts of a [World]; every Python function is a
    computation in the monad [M] over it. *)

From Stdlib Require Import ZArith NArith List Lia.
From stdpp Require Import base option list gmap sets.

Open Scope Z_scope.

(** ** Text

    A Python [str] is a sequence of Unicode code points. *)

Abbreviation str := (list N).

(** [str.lower] on the two scripts the bot speaks, Basic Latin and
    Cyrillic (U+0400..U+045F), where it maps code point by code point.
    Other code points are left alone here, which is not what Python does
    with every one of them: [in_both_scripts] below marks the texts on
    which this function is [str.lower]. *)
Definition lower_char (c : N) : N :=
  if ((65 <=? c) && (c <=? 90))%N then (c + 32)%N
  else if ((1040 <=? c) && (c <=? 1071))%N then (c + 32)%N
  else if ((1024 <=? c) && (c <=? 1039))%N then (c + 80)%N
  else c.

Definition lower (s : str) : str := map lower_char s.

(** The button captions of class [Command] and the literals the handlers
    compare a message with, as code points. *)
Module Command.
(* 'Добавить слово ➕' *)
Definition ADD_WORD : str :=
  [1044; 1086; 1073; 1072; 1074; 1080; 1090; 1100; 32; 1089; 1083; 1086;
   1074; 1086; 32; 10133]%N.
(* 'Удалить слово❌' *)
Definition DELETE_WORD : str :=
  [1059; 1076; 1072; 1083; 1080; 1090; 1100; 32; 1089; 1083; 1086; 1074;
   1086; 10060]%N.
(* 'Пропустить ⏭' *)
Definition NEXT : str :=
  [1055; 1088; 1086; 1087; 1091; 1089; 1090; 1080; 1090; 1100; 32; 9197]%N.
(* '📜Правила' *)
Definition RULES : str :=
  [128220; 1055; 1088; 1072; 1074; 1080; 1083; 1072]%N.
(* '🚀Начать' *)
Definition START : str :=
  [128640; 1053; 1072; 1095; 1072; 1090; 1100]%N.
(* '🔄Начать заново' *)
Definition START_AGAIN : str :=
  [128260; 1053; 1072; 1095; 1072; 1090; 1100; 32; 1079; 1072; 1085; 1086;
   1074; 1086]%N.
End Command.

(* 'да', 'нет' *)
Definition lit_da : str := [1076; 1072]%N.
Definition lit_net : str := [1085; 1077; 1090]%N.
(* '/start', '/menu', '/subscribe', '/unsubscribe', '/help' *)
Definition lit_start : str := [47; 115; 116; 97; 114; 116]%N.
Definition lit_menu : str := [47; 109; 101; 110; 117]%N.
Definition lit_subscribe : str :=
  [47; 115; 117; 98; 115; 99; 114; 105; 98; 101]%N.
Definition lit_unsubscribe : str :=
  [47; 117; 110; 115; 117; 98; 115; 99; 114; 105; 98; 101]%N.
Definition lit_help : str := [47; 104; 101; 108; 112]%N.

(** ** The LIKE operator

    [word_to_word_id] selects with [translation LIKE %s], the parameter
    being the pattern.  The matcher below follows PostgreSQL's: [%] matches
    any run of characters, [_] any one character, a backslash takes the next
    pattern character literally, and a pattern that ends in a lone
    backslash is an error once the matcher reaches it. *)
Inductive like_result := LIKE_TRUE | LIKE_FALSE | LIKE_ABORT | LIKE_ERROR.

Definition chr_percent : N := 37%N.
Definition chr_underscore : N := 95%N.
Definition chr_backslash : N := 92%N.

(** After a [%]: try the rest of the pattern, whose first character is
    [firstpat], at every position of the text that starts with it. *)
Fixpoint like_scan (rest : str -> like_result) (firstpat : N) (t : str)
  : like_result :=
  match t with
  | [] => LIKE_ABORT
  | tc :: t' =>
      if (tc =? firstpat)%N then
        match rest t' with
        | LIKE_FALSE => like_scan rest firstpat t'
        | matched => matched
        end
      else like_scan rest firstpat t'
  end.

Fixpoint MatchText (p : str) (t : str) {struct p} : like_result :=
  match t with
  | [] =>
      (* end of text: the remaining pattern must be all [%] *)
      (fix only_percent (p : str) : like_result :=
         match p with
         | [] => LIKE_TRUE
         | pc :: p' => if (pc =? chr_percent)%N then only_percent p'
                       else LIKE_ABORT
         end) p
  | tc :: t' =>
      match p with
      | [] => LIKE_FALSE
      | pc :: p' =>
          if (pc =? chr_backslash)%N then
            match p' with
            | [] => LIKE_ERROR
            | pc' :: p'' => if (pc' =? tc)%N then MatchText p'' t'
                            else LIKE_FALSE
            end
          else if (pc =? chr_percent)%N then MatchPercent p' t
          else if (pc =? chr_underscore)%N then MatchText p' t'
          else if (pc =? tc)%N then MatchText p' t'
          else LIKE_FALSE
      end
  end
with MatchPercent (p : str) (t : str) {struct p} : like_result :=
  match p with
  | [] => LIKE_TRUE
  | pc :: p' =>
      if (pc =? chr_percent)%N then MatchPercent p' t
      else if (pc =? chr_underscore)%N then
        match t with
        | [] => LIKE_ABORT
        | _ :: t' => MatchPercent p' t'
        end
      else if (pc =? chr_backslash)%N then
        match p' with
        | [] => LIKE_ERROR
        | firstpat :: p'' => like_scan (MatchText p'') firstpat t
        end
      else like_scan (MatchText p') pc t
  end.

(** ** Exceptions and outcomes *)

Inductive exn :=
| ForeignKeyViolation      (* psycopg2.errors: a REFERENCES constraint *)
| UniqueViolation          (* psycopg2.errors: a PRIMARY KEY constraint *)
| NumericValueOutOfRange   (* psycopg2.errors: a value outside INTEGER *)
| InvalidEscapeSequence    (* psycopg2.errors: LIKE pattern ends in escape *)
| TypeError                (* subscripting None *)
| KeyError.                (* a missing dictionary key *)

#[global] Instance exn_eq_dec : EqDecision exn.
Proof. solve_decision. Defined.

(** ** The schema ([Fill_DB.create_tables]) *)

(** words(word_id SERIAL PRIMARY KEY, word VARCHAR(40) UNIQUE NOT NULL,
          translation VARCHAR(40) NOT NULL, definition VARCHAR(900)) *)
Record Word := {
  word_id : Z;
  word : str;
  translation : str;
  definition : option str
}.

(** words_to_users(word_id INTEGER NOT NULL REFERENCES words(word_id),
                   user_id INTEGER NOT NULL REFERENCES users(user_id),
                   learn_counter INTEGER NOT NULL,
                   PRIMARY KEY (word_id, user_id)) *)
Record Progress := {
  pr_word_id : Z;
  pr_user_id : Z;
  learn_counter : Z
}.

(** users(user_id SERIAL PRIMARY KEY) is a list of ids.  Rows are kept in
    insertion order. *)
Record Database := {
  words : list Word;
  users : list Z;
  words_to_users : list Progress
}.

#[global] Instance Word_eq_dec : EqDecision Word.
Proof. solve_decision. Defined.
#[global] Instance Progress_eq_dec : EqDecision Progress.
Proof. solve_decision. Defined.
#[global] Instance Database_eq_dec : EqDecision Database.
Proof. solve_decision. Defined.

(** The INTEGER (and SERIAL) column type holds 32-bit signed values. *)
Definition int4 (z : Z) : Prop := -2147483648 <= z <= 2147483647.

#[global] Instance int4_dec z : Decision (int4 z).
Proof. unfold int4. apply _. Defined.

(** ** SQL statements, as functions on the database *)

(** INSERT INTO users(user_id) VALUES(%s) *)
Definition insert_users (user_id : Z) (d : Database) : Database + exn :=
  if decide (int4 user_id) then
    if decide (user_id ∈ users d) then inr UniqueViolation
    else inl {| words := words d; users := users d ++ [user_id];
                words_to_users := words_to_users d |}
  else inr NumericValueOutOfRange.

Definition same_key (wid uid : Z) (p : Progress) : Prop :=
  pr_word_id p = wid ∧ pr_user_id p = uid.

#[global] Instance same_key_dec wid uid p : Decision (same_key wid uid p).
Proof. unfold same_key. apply _. Defined.

(** INSERT INTO words_to_users(word_id, user_id, learn_counter)
    VALUES(%s, %s, %s).  The values are coerced to INTEGER first, the
    primary key is checked when the row is written and the two foreign keys
    at the end of the statement. *)
Definition insert_words_to_users (wid uid counter : Z) (d : Database)
  : Database + exn :=
  if decide (int4 wid ∧ int4 uid ∧ int4 counter) then
    if decide (Exists (same_key wid uid) (words_to_users d))
    then inr UniqueViolation
    else if decide (wid ∈ word_id <$> words d ∧ uid ∈ users d)
    then inl {| words := words d; users := users d;
                words_to_users := words_to_users d ++
                  [{| pr_word_id := wid; pr_user_id := uid;
                      learn_counter := counter |}] |}
    else inr ForeignKeyViolation
  else inr NumericValueOutOfRange.

(** SELECT word_id FROM words WHERE translation LIKE %s *)
Fixpoint select_word_id_like (pattern : str) (rows : list Word)
  : list Z + exn :=
  match rows with
  | [] => inl []
  | r :: rows' =>
      match MatchText pattern (translation r) with
      | LIKE_ERROR => inr InvalidEscapeSequence
      | LIKE_TRUE =>
          match select_word_id_like pattern rows' with
          | inl ids => inl (word_id r :: ids)
          | inr e => inr e
          end
      | LIKE_FALSE | LIKE_ABORT => select_word_id_like pattern rows'
      end
  end.

(** A parameter that is [None] is sent as NULL, and [word_id = NULL] holds
    of no row; a one-element tuple [(id,)] is sent as [(id)]. *)
Definition key_matches (wid : option Z) (uid : Z) (p : Progress) : Prop :=
  wid = Some (pr_word_id p) ∧ pr_user_id p = uid.

#[global] Instance key_matches_dec wid uid p : Decision (key_matches wid uid p).
Proof. unfold key_matches. apply _. Defined.

(** DELETE FROM words_to_users WHERE word_id=%s AND user_id=%s *)
Definition delete_words_to_users (wid : option Z) (uid : Z) (d : Database)
  : Database :=
  {| words := words d; users := users d;
     words_to_users :=
       filter (λ p, ¬ key_matches wid uid p) (words_to_users d) |}.

(** DELETE FROM words_to_users WHERE user_id=%s *)
Definition delete_words_of_user (uid : Z) (d : Database) : Database :=
  {| words := words d; users := users d;
     words_to_users := filter (λ p, pr_user_id p ≠ uid) (words_to_users d) |}.

(** DELETE FROM users WHERE user_id=%s *)
Definition delete_users (uid : Z) (d : Database) : Database + exn :=
  if decide (Exists (λ p, pr_user_id p = uid) (words_to_users d))
  then inr ForeignKeyViolation
  else inl {| words := words d; users := filter (λ u, u ≠ uid) (users d);
              words_to_users := words_to_users d |}.

Definition increment (wid : option Z) (uid : Z) (p : Progress) : Progress :=
  if decide (key_matches wid uid p)
  then {| pr_word_id := pr_word_id p; pr_user_id := pr_user_id p;
          learn_counter := learn_counter p + 1 |}
  else p.

(** UPDATE words_to_users SET learn_counter=learn_counter+1
    WHERE word_id=%s AND user_id=%s.  The sum is an INTEGER too.  The row
    stays where it was in the list; PostgreSQL writes a new version of the
    row, and the order in which a later scan of the table yields the rows
    is not specified. *)
Definition update_learn_counter (wid : option Z) (uid : Z) (d : Database)
  : Database + exn :=
  if decide (Exists (λ p, key_matches wid uid p ∧ ¬ int4 (learn_counter p + 1))
                    (words_to_users d))
  then inr NumericValueOutOfRange
  else inl {| words := words d; users := users d;
              words_to_users := increment wid uid <$> words_to_users d |}.

(** SELECT word_id FROM words_to_users WHERE user_id=%s *)
Definition select_word_ids_of_user (uid : Z) (d : Database) : list Z :=
  pr_word_id <$> filter (λ p, pr_user_id p = uid) (words_to_users d).

(** SELECT learn_counter FROM words_to_users WHERE word_id=%s AND user_id=%s *)
Definition select_learn_counter (wid : option Z) (uid : Z) (d : Database)
  : list Z :=
  learn_counter <$> filter (key_matches wid uid) (words_to_users d).

(** SELECT word, translation, definition FROM words JOIN words_to_users
    ON words_to_users.word_id = words.word_id
    WHERE user_id=%s AND words_to_users.learn_counter < 5 *)
Definition select_words_to_learn (uid : Z) (d : Database)
  : list (str * str * option str) :=
  r ← words d;
  p ← filter (λ p, pr_word_id p = word_id r ∧ pr_user_id p = uid
                   ∧ learn_counter p < 5) (words_to_users d);
  [(word r, translation r, definition r)].

(** ** The chat platform *)

(** The handlers a conversation can be handed to with
    [bot.register_next_step_handler]. *)
Inductive Handler :=
| to_start_message
| to_start_word_learning_session
| to_handle_user_answer
| to_drop_progress.

(** A [ReplyKeyboardMarkup] with the captions of its buttons in the order
    they were added. *)
Record Markup := {
  row_width : nat;
  keyboard : list str
}.

(** What the bot sends.  A constructor stands for the fixed text of the
    source, and carries the values the text is formatted with. *)
Inductive Reply :=
| HelpText
| MenuText
| WelcomeSticker
| Welcome
| ProgressDropped
| BackToMainMenu
| NotUnderstood                          (* "Я не понимаю это сообщение!" *)
| AllLearntOfferReset
| AskReset
| Question (russian_word : str) (example : option str) (markup : Markup)
| Correct                                (* '✅ Верно!' *)
| WordLearnt (w : str)                   (* '🎉Вы выучили слово ...' *)
| Incorrect                              (* '❌ Не верно. Попробуйте ещё' *)
| MaxWordsAdded      (* '❌ Вы добавили максимальное количество слов' *)
| WordAdded (new_word : str) (to_learn learnt : nat)
| WordDeleted (w : str)
| Subscribed
| AlreadySubscribed
| Unsubscribed
| NotSubscribed
| Reminder.

Record Message := {
  from_user_id : Z;
  chat_id : Z;
  text : option str        (* None for a message that carries no text *)
}.

(** A Python dict with integer keys, in insertion order. *)
Abbreviation dict := (list (Z * bool)).

(** ** The world *)

Record World := {
  db : Database;
  py_random : list nat;     (* what Python's generator will yield *)
  pg_random : list nat;     (* what the database's random() will yield *)
  sent : list (Z * Reply);  (* messages sent so far: chat id and content *)
  user_data : gmap (Z * Z) str;       (* data['english_word'] per user, chat *)
  next_step : list (Z * Handler);     (* registered next-step handlers *)
  store : gmap nat dict               (* the dict objects, by address *)
}.

Definition set_db (d : Database) (w : World) : World :=
  {| db := d; py_random := py_random w; pg_random := pg_random w;
     sent := sent w; user_data := user_data w; next_step := next_step w;
     store := store w |}.
Definition set_py_random (t : list nat) (w : World) : World :=
  {| db := db w; py_random := t; pg_random := pg_random w;
     sent := sent w; user_data := user_data w; next_step := next_step w;
     store := store w |}.
Definition set_pg_random (t : list nat) (w : World) : World :=
  {| db := db w; py_random := py_random w; pg_random := t;
     sent := sent w; user_data := user_data w; next_step := next_step w;
     store := store w |}.
Definition set_sent (s : list (Z * Reply)) (w : World) : World :=
  {| db := db w; py_random := py_random w; pg_random := pg_random w;
     sent := s; user_data := user_data w; next_step := next_step w;
     store := store w |}.
Definition set_user_data (u : gmap (Z * Z) str) (w : World) : World :=
  {| db := db w; py_random := py_random w; pg_random := pg_random w;
     sent := sent w; user_data := u; next_step := next_step w;
     store := store w |}.
Definition set_next_step (n : list (Z * Handler)) (w : World) : World :=
  {| db := db w; py_random := py_random w; pg_random := pg_random w;
     sent := sent w; user_data := user_data w; next_step := n;
     store := store w |}.
Definition set_store (s : gmap nat dict) (w : World) : World :=
  {| db := db w; py_random := py_random w; pg_random := pg_random w;
     sent := sent w; user_data := user_data w; next_step := next_step w;
     store := s |}.

(** ** The monad

    A computation ends normally with a value ([Ok]), or with an exception
    ([Raise], with the world as the failing statement found it), or it is
    still running when the random draws it was given are used up
    ([Pending]).  A computation that is [Pending] on every supply of draws
    never ends. *)
Inductive outcome (A : Type) :=
| Ok (a : A) (w : World)
| Raise (e : exn) (w : World)
| Pending.
Arguments Ok {A} a w.
Arguments Raise {A} e w.
Arguments Pending {A}.

Definition M (A : Type) : Type := World → outcome A.

#[global] Instance M_ret : MRet M := λ A a w, Ok a w.
#[global] Instance M_bind : MBind M := λ A B f m w,
  match m w with
  | Ok a w' => f a w'
  | Raise e w' => Raise e w'
  | Pending => Pending
  end.

Definition raise {A} (e : exn) : M A := λ w, Raise e w.

(** [cursor.execute] of a statement that changes rows. *)
Definition execute (stmt : Database → Database + exn) : M unit := λ w,
  match stmt (db w) with
  | inl d => Ok tt (set_db d w)
  | inr e => Raise e w
  end.

(** [cursor.execute] of a SELECT, with the rows it yields. *)
Definition query {A} (q : Database → A + exn) : M A := λ w,
  match q (db w) with
  | inl a => Ok a w
  | inr e => Raise e w
  end.

(** [connection.commit]: every method commits before it returns, and the
    model keeps no separate uncommitted state.  So a [Raise] carries the
    writes made in the same method before the failing statement, which
    PostgreSQL discards with the failed transaction; the model does not
    follow the connection beyond an exception. *)
Definition commit : M unit := mret tt.

(** [cursor.fetchone()] is the first row or None; [x[0]] on None raises. *)
Definition fetchone {A} (rows : list A) : option A := head rows.

Definition subscript {A} (row : option A) : M A :=
  match row with
  | Some a => mret a
  | None => raise TypeError
  end.

(** [random.randint(a, b)]: the next draw, brought into [a..b]. *)
Definition randint_of (a b : Z) (r : nat) : Z :=
  a + Z.of_nat r mod (b - a + 1).

Definition randint (a b : Z) : M Z := λ w,
  match py_random w with
  | [] => Pending
  | r :: rest => Ok (randint_of a b r) (set_py_random rest w)
  end.

(** [random]'s [_randbelow(n)], for [n > 0]. *)
Definition randbelow (n : nat) : M nat := λ w,
  match py_random w with
  | [] => Pending
  | r :: rest => Ok (r mod n)%nat (set_py_random rest w)
  end.

(** The first row of [... ORDER BY random()]: any one of the rows, chosen
    by the database's next draw; None when there is no row. *)
Definition order_by_random {A} (rows : list A) : M (option A) := λ w,
  match rows with
  | [] => Ok None w
  | _ :: _ =>
      match pg_random w with
      | [] => Pending
      | r :: rest => Ok (rows !! (r mod length rows)%nat) (set_pg_random rest w)
      end
  end.

(** *** Loops

    Every loop of the program draws a random number in each iteration, so
    the number of draws left, plus one, bounds the iterations a run can
    make before it is [Pending]. *)
Definition draws_left (w : World) : nat :=
  (length (py_random w) + length (pg_random w))%nat.

(** [while True: ... break] : the body yields [Some a] to break with [a]. *)
Fixpoint while_True_fuel {A} (fuel : nat) (body : M (option A)) : M A :=
  match fuel with
  | O => λ _, Pending
  | S fuel' =>
      r ← body;
      match r with
      | Some a => mret a
      | None => while_True_fuel fuel' body
      end
  end.

Definition while_True {A} (body : M (option A)) : M A := λ w,
  while_True_fuel (S (draws_left w)) body w.

(** [while cond(s): s = body(s)] *)
Fixpoint while_fuel {St} (fuel : nat) (cond : St → bool) (body : St → M St)
    (s : St) : M St :=
  if cond s then
    match fuel with
    | O => λ _, Pending
    | S fuel' => s' ← body s; while_fuel fuel' cond body s'
    end
  else mret s.

Definition while {St} (cond : St → bool) (body : St → M St) (s : St)
  : M St := λ w, while_fuel (S (draws_left w)) cond body s w.

(** [for _ in range(n): s = body(s)] *)
Fixpoint for_range {St} (n : nat) (body : St → M St) (s : St) : M St :=
  match n with
  | O => mret s
  | S n' => s' ← body s; for_range n' body s'
  end.

(** [for x in l: body(x)] *)
Fixpoint for_each {A} (l : list A) (body : A → M unit) : M unit :=
  match l with
  | [] => mret tt
  | x :: l' => body x;; for_each l' body
  end.

(** ** class BotDB ([data_base_tools.py]) *)

Module BotDB.

Definition word_to_word_id (word : str) : M (option Z) :=
  rows ← query (λ d, select_word_id_like word (words d));
  mret (fetchone rows).

Definition word_id_to_word (wid : Z) : M str :=
  rows ← query (λ d, inl (word <$> filter (λ r, word_id r = wid) (words d)));
  subscript (fetchone rows).

Definition all_users_list : M (list Z) :=
  query (λ d, inl (users d)).

Definition generate_10_words (user_id : Z) (learn_counter : Z) : M unit :=
  used_ids ← for_range 10 (λ used_ids,
      while_True (
        word_id ← randint 1 40;
        if decide (word_id ∉ used_ids)
        then mret (Some (used_ids ++ [word_id]))
        else mret None)) [];
  for_each used_ids (λ id,
      execute (insert_words_to_users id user_id learn_counter));;
  commit.

Definition register_user (user_id : Z) : M unit :=
  all_users ← all_users_list;
  (if decide (user_id ∉ all_users) then
     execute (insert_users user_id);;
     generate_10_words user_id 0
   else mret tt);;
  commit.

Definition drop_progress (user_id : Z) : M unit :=
  execute (λ d, inl (delete_words_of_user user_id d));;
  execute (delete_users user_id);;
  commit.

Definition get_random_word (user_id : Z) : M (str * str * option str) :=
  rows ← query (λ d, inl (select_words_to_learn user_id d));
  res ← order_by_random rows;
  subscript res.

Definition get_random_examples : M (str * str * option str) :=
  rows ← query (λ d,
    inl ((λ r, (word r, translation r, definition r)) <$> words d));
  res ← order_by_random rows;
  subscript res.

Definition delete_word (user_id : Z) (word : str) : M unit :=
  word_id ← word_to_word_id word;
  execute (λ d, inl (delete_words_to_users word_id user_id d));;
  commit.

Definition all_words_ids (user_id : Z) : M (list Z) :=
  query (λ d, inl (select_word_ids_of_user user_id d)).

Definition all_main_words_ids : M (list Z) :=
  query (λ d, inl (word_id <$> words d)).

Definition count_words_to_learn (user_id : Z) : M nat :=
  res ← query (λ d, inl (pr_word_id <$>
           filter (λ p, pr_user_id p = user_id ∧ learn_counter p < 5)
                  (words_to_users d)));
  mret (length res).

Definition count_words_already_learnt (user_id : Z) : M nat :=
  res ← query (λ d, inl (pr_word_id <$>
           filter (λ p, pr_user_id p = user_id ∧ learn_counter p >= 5)
                  (words_to_users d)));
  mret (length res).

Definition add_word (user_id : Z) (learn_counter : Z) : M Z :=
  word_id ← while_True (
      word_id ← randint 1 40;
      all_ids ← all_words_ids user_id;
      if decide (word_id ∉ all_ids) then mret (Some word_id)
      else mret None);
  execute (insert_words_to_users word_id user_id learn_counter);;
  commit;;
  mret word_id.

Definition add_learn_counter (user_id : Z) (word : str) : M unit :=
  word_id ← word_to_word_id word;
  execute (update_learn_counter word_id user_id);;
  commit.

Definition check_if_learnt (user_id : Z) (word : str) : M Z :=
  word_id ← word_to_word_id word;
  rows ← query (λ d, inl (select_learn_counter word_id user_id d));
  subscript (fetchone rows).

End BotDB.

(** ** class Notification ([notification_scheduler.py]) *)

Module Notification.

(** [subscribers = {}] stands in the class body: the dict is created once,
    when the class is, and the class attribute holds its address. *)
Definition subscribers : nat := 0%nat.

(** An instance, with the attributes of its own.  [__init__] sets
    [self.bot] and nothing else. *)
Record Instance := {
  ident : nat;                       (* which object this is *)
  own_subscribers : option nat       (* an instance attribute, if set *)
}.

Definition new (ident : nat) : Instance :=
  {| ident := ident; own_subscribers := None |}.

(** [self.subscribers]: the instance's attribute if it has one, else the
    class's. *)
Definition self_subscribers (self : Instance) : nat :=
  default subscribers (own_subscribers self).

Definition load (addr : nat) : M dict := λ w,
  Ok (default [] (store w !! addr)) w.

(** [d[k] = v] on the dict at [addr], in place. *)
Definition setitem (addr : nat) (k : Z) (v : bool) : M unit := λ w,
  let d := default [] (store w !! addr) in
  let d' := if decide (k ∈ d.*1)
            then (λ kv, if decide (kv.1 = k) then (k, v) else kv) <$> d
            else d ++ [(k, v)] in
  Ok tt (set_store (<[addr := d']> (store w)) w).

(** [del d[k]] on the dict at [addr], in place. *)
Definition delitem (addr : nat) (k : Z) : M unit := λ w,
  let d := default [] (store w !! addr) in
  if decide (k ∈ d.*1)
  then Ok tt (set_store (<[addr := filter (λ kv, kv.1 ≠ k) d]> (store w)) w)
  else Raise KeyError w.

(** [bot.reply_to] and [bot.send_message] *)
Definition send_message (chat : Z) (r : Reply) : M unit := λ w,
  Ok tt (set_sent (sent w ++ [(chat, r)]) w).

Definition start (self : Instance) (message : Message) : M unit :=
  let user_id := chat_id message in
  d ← load (self_subscribers self);
  if decide (user_id ∉ d.*1) then
    setitem (self_subscribers self) user_id true;;
    send_message (chat_id message) Subscribed
  else send_message (chat_id message) AlreadySubscribed.

Definition stop (self : Instance) (message : Message) : M unit :=
  let user_id := chat_id message in
  d ← load (self_subscribers self);
  if decide (user_id ∈ d.*1) then
    delitem (self_subscribers self) user_id;;
    send_message (chat_id message) Unsubscribed
  else send_message (chat_id message) NotSubscribed.

Definition job (self : Instance) : M unit :=
  d ← load (self_subscribers self);
  for_each d.*1 (λ user_id, send_message user_id Reminder).

End Notification.

(** [start_reminders(bot)] constructs an instance and schedules its [job]
    for every day at 12:00; the thread that waits for the hour is not
    modelled, [daily_reminder] is what it runs then. *)
Definition reminders_notification : Notification.Instance :=
  Notification.new 1.

Definition daily_reminder : M unit := Notification.job reminders_notification.

(** ** The handlers of [main.py] *)

(** [notification = Notification(bot)], after [start_reminders(bot)]. *)
Definition notification : Notification.Instance := Notification.new 2.

(** The world when the module has been loaded, over a database and the
    draws to come. *)
Definition process_start (d : Database) (py pg : list nat) : World :=
  {| db := d; py_random := py; pg_random := pg; sent := [];
     user_data := ∅; next_step := [];
     store := {[ Notification.subscribers := [] ]} |}.

Definition send_message (chat : Z) (r : Reply) : M unit :=
  Notification.send_message chat r.

Definition register_next_step_handler (message : Message) (h : Handler)
  : M unit := λ w,
  Ok tt (set_next_step (next_step w ++ [(chat_id message, h)]) w).

(** [with bot.retrieve_data(...) as data: data['english_word'] = v] *)
Definition set_english_word (message : Message) (v : str) : M unit := λ w,
  Ok tt (set_user_data
           (<[(from_user_id message, chat_id message) := v]> (user_data w)) w).

(** [with bot.retrieve_data(...) as data: english_word = data['english_word']] *)
Definition get_english_word (message : Message) : M str := λ w,
  match user_data w !! (from_user_id message, chat_id message) with
  | Some v => Ok v w
  | None => Raise KeyError w
  end.

(** Python's truth value of [message.text]. *)
Definition truthy (t : option str) : bool :=
  match t with
  | Some (_ :: _) => true
  | _ => false
  end.

(** [message.text] where the handler has found it truthy. *)
Definition text_of (message : Message) : str := default [] (text message).

Definition handle_subscribe (message : Message) : M unit :=
  Notification.start notification message.

Definition handle_unsubscribe (message : Message) : M unit :=
  Notification.stop notification message.

Definition send_help (message : Message) : M unit :=
  send_message (chat_id message) HelpText.

Definition show_menu (message : Message) : M unit :=
  send_message (chat_id message) MenuText.

Definition start_message (message : Message) : M unit :=
  send_message (chat_id message) WelcomeSticker;;
  send_message (chat_id message) Welcome.

Definition drop_progress (message : Message) : M unit :=
  let user_id := from_user_id message in
  if truthy (text message) then
    (if decide (lower (text_of message) = lit_da) then
       BotDB.drop_progress user_id;;
       BotDB.register_user user_id;;
       send_message (chat_id message) ProgressDropped
     else if decide (lower (text_of message) = lit_net) then
       send_message (chat_id message) BackToMainMenu
     else mret tt);;
    register_next_step_handler message to_start_message
  else
    send_message (chat_id message) NotUnderstood;;
    start_message message.

Definition get_user_id (message : Message) : M Z :=
  let user_id := from_user_id message in
  BotDB.register_user user_id;;
  register_next_step_handler message to_start_word_learning_session;;
  mret user_id.

(** [x[i], x[j] = x[j], x[i]] *)
Definition swap {A} (i j : nat) (x : list A) : list A :=
  match x !! i, x !! j with
  | Some a, Some b => <[j := a]> (<[i := b]> x)
  | _, _ => x
  end.

(** [random.shuffle(x)]:
    [for i in reversed(range(1, len(x))): j = randbelow(i + 1); swap] *)
Fixpoint shuffle_from {A} (i : nat) (x : list A) : M (list A) :=
  match i with
  | O => mret x
  | S i' => j ← randbelow (i + 1); shuffle_from i' (swap i j x)
  end.

Definition shuffle {A} (x : list A) : M (list A) :=
  shuffle_from (length x - 1) x.

(** The set of captions is a [gset]; [list(other_words_btns)] lists it in
    some order, here that of [elements], before the shuffle. *)
Definition generate_buttons (english_word : str) : M Markup :=
  other_words_btns ← while
      (λ s : gset str, bool_decide (size s < 4)%nat)
      (λ s, ex ← BotDB.get_random_examples;
            let translation := ex.1.2 in
            mret (s ∪ {[ translation ]}))
      {[ english_word ]};
  buttons ← shuffle (elements other_words_btns);
  mret {| row_width := 2;
          keyboard := buttons ++
            [Command.NEXT; Command.ADD_WORD; Command.DELETE_WORD] |}.

Definition offer_reset_progress (message : Message) : M unit :=
  send_message (chat_id message) AllLearntOfferReset;;
  register_next_step_handler message to_drop_progress.

(** [bot.set_state] only marks the conversation for the session store; the
    value the handlers pass on is [data['english_word']]. *)
Definition start_word_learning_session (message : Message) : M unit :=
  if decide (text message = Some Command.START) then
    user_id ← get_user_id message;
    n ← BotDB.count_words_to_learn user_id;
    if decide (n ≠ 0%nat) then
      '(russian_word, english_word, example) ← BotDB.get_random_word user_id;
      set_english_word message english_word;;
      markup ← generate_buttons english_word;
      send_message (chat_id message) (Question russian_word example markup);;
      register_next_step_handler message to_handle_user_answer
    else offer_reset_progress message
  else if decide (text message = Some Command.RULES
                  ∨ text message = Some lit_help) then
    send_help message
  else if decide (text message = Some Command.START_AGAIN) then
    send_message (chat_id message) AskReset;;
    register_next_step_handler message to_drop_progress
  else mret tt.

(** [message.text = Command.START; start_word_learning_session(message)] *)
Definition start_new_round (message : Message) : M unit :=
  start_word_learning_session
    {| from_user_id := from_user_id message; chat_id := chat_id message;
       text := Some Command.START |}.

Definition handle_correct_answer (message : Message) (user_id : Z) : M unit :=
  send_message (chat_id message) Correct;;
  BotDB.add_learn_counter user_id (text_of message);;
  c ← BotDB.check_if_learnt user_id (text_of message);
  (if decide (c = 5) then
     send_message (chat_id message) (WordLearnt (text_of message))
   else mret tt);;
  start_new_round message.

Definition handle_incorrect_answer (message : Message) : M unit :=
  send_message (chat_id message) Incorrect;;
  register_next_step_handler message to_handle_user_answer.

Definition command_handlers : list (str * (Message → M unit)) :=
  [(lit_start, show_menu); (lit_menu, start_message);
   (lit_subscribe, handle_subscribe); (lit_unsubscribe, handle_unsubscribe)].

Definition handle_special_commands (message : Message) : M unit :=
  let command := text_of message in
  match list_find (λ kv, kv.1 = command) command_handlers with
  | Some (_, (_, handler)) => handler message
  | None => raise KeyError
  end.

Definition add_new_word (message : Message) (user_id : Z) : M unit :=
  assigned ← BotDB.all_words_ids user_id;
  lexicon ← BotDB.all_main_words_ids;
  if decide (length assigned = length lexicon) then
    send_message (chat_id message) MaxWordsAdded;;
    start_new_round message
  else
    word_id ← BotDB.add_word user_id 0;
    new_word ← BotDB.word_id_to_word word_id;
    to_learn ← BotDB.count_words_to_learn user_id;
    learnt ← BotDB.count_words_already_learnt user_id;
    send_message (chat_id message) (WordAdded new_word to_learn learnt);;
    start_new_round message.

Definition delete_word (message : Message) (user_id : Z) : M unit :=
  english_word ← get_english_word message;
  BotDB.delete_word user_id english_word;;
  send_message (chat_id message) (WordDeleted english_word);;
  start_new_round message.

Definition handle_user_answer (message : Message) : M unit :=
  english_word ← get_english_word message;
  user_id ← get_user_id message;
  let user_message := text message in
  if truthy user_message then
    if decide (lower (text_of message) = lower english_word) then
      handle_correct_answer message user_id
    else if decide (text_of message ∈
                      [lit_start; lit_menu; lit_subscribe; lit_unsubscribe])
    then handle_special_commands message
    else if decide (text_of message = Command.NEXT) then
      start_new_round message
    else if decide (text_of message = Command.ADD_WORD) then
      add_new_word message user_id
    else if decide (text_of message = Command.DELETE_WORD) then
      delete_word message user_id
    else handle_incorrect_answer message
  else
    send_message (chat_id message) NotUnderstood;;
    start_new_round message.

(** ** What the sampling loops compute

    [first_fresh used tape] is the first draw of the tape that, brought
    into 1..40, is not in [used], with the tape after it; [sample n] makes
    [n] rounds of it, each draw joining [used]. *)
Fixpoint first_fresh (used : list Z) (tape : list nat)
  : option (Z * list nat) :=
  match tape with
  | [] => None
  | r :: tape' =>
      if decide (randint_of 1 40 r ∉ used) then Some (randint_of 1 40 r, tape')
      else first_fresh used tape'
  end.

Fixpoint sample (n : nat) (used : list Z) (tape : list nat)
  : option (list Z * list nat) :=
  match n with
  | O => Some (used, tape)
  | S n' =>
      match first_fresh used tape with
      | Some (z, tape') => sample n' (used ++ [z]) tape'
      | None => None
      end
  end.

(** A fresh progress row, and a database with more of them. *)
Definition new_row (uid : Z) (wid : Z) : Progress :=
  {| pr_word_id := wid; pr_user_id := uid; learn_counter := 0 |}.

Definition with_rows (rows : list Progress) (d : Database) : Database :=
  {| words := words d; users := users d;
     words_to_users := words_to_users d ++ rows |}.


(** The primary key of a progress row, the row of a key at a counter, and
    a database after the UPDATE of [add_learn_counter] for a key. *)
Definition key (p : Progress) : Z * Z := (pr_word_id p, pr_user_id p).

Definition entry (wid uid c : Z) : Progress :=
  {| pr_word_id := wid; pr_user_id := uid; learn_counter := c |}.

Definition bumped (wid uid : Z) (d : Database) : Database :=
  {| words := words d; users := users d;
     words_to_users := increment (Some wid) uid <$> words_to_users d |}.

(** ** Sample data

    A lexicon of [n] words with the ids 1..n, as the SERIAL column numbers
    the rows that [load_data] inserts; a user 7; and the first word of the
    lexicon spelled out. *)
Definition numbered_word (i : Z) : Word :=
  {| word_id := i;
     word := [87; Z.to_N (48 + i / 10); Z.to_N (48 + i mod 10)]%N;
     translation := [1057; Z.to_N (48 + i / 10); Z.to_N (48 + i mod 10)]%N;
     definition := None |}.

Definition lexicon (n : Z) : list Word := numbered_word <$> seqZ 1 n.

(* 'Apple', 'Яблоко', 'яблоко' *)
Definition Apple : str := [65; 112; 112; 108; 101]%N.
Definition Yabloko : str := [1071; 1073; 1083; 1086; 1082; 1086]%N.
Definition yabloko : str := [1103; 1073; 1083; 1086; 1082; 1086]%N.

Definition apple_word : Word :=
  {| word_id := 1; word := Apple; translation := Yabloko;
     definition := None |}.

(** A message of user 7 in the chat 7. *)
Definition message_of (t : str) : Message :=
  {| from_user_id := 7; chat_id := 7; text := Some t |}.

(** No user yet, over a lexicon of [n] words. *)
Definition fresh_db (n : Z) : Database :=
  {| words := lexicon n; users := []; words_to_users := [] |}.

(** User 7 holds the words 1..k of a lexicon of [n] words, all at counter
    0. *)
Definition db_with_user (n k : Z) : Database :=
  {| words := lexicon n; users := [7];
     words_to_users := new_row 7 <$> seqZ 1 k |}.

(** User 7 holds 'Apple' at counter [c] and is being asked for it. *)
Definition apple_db (c : Z) : Database :=
  {| words := apple_word :: tail (lexicon 40); users := [7];
     words_to_users :=
       [{| pr_word_id := 1; pr_user_id := 7; learn_counter := c |}] |}.

Definition asked_for_apple (c : Z) (py pg : list nat) : World :=
  set_user_data {[ (7, 7) := Yabloko ]} (process_start (apple_db c) py pg).

(** The translation of the row that [ORDER BY random()] puts first when
    the database's draw is [r]. *)
Definition pick_translation (d : Database) (r : nat) : option str :=
  translation <$> words d !! (r mod length (words d))%nat.

(** ** Subscription commands

    The commands [/subscribe] and [/unsubscribe], as the dispatcher hands
    them to [handle_subscribe] and [handle_unsubscribe]. *)
Inductive Event :=
| Subscribe (chat : Z)
| Unsubscribe (chat : Z).

Definition handle_event (e : Event) : M unit :=
  match e with
  | Subscribe chat =>
      handle_subscribe {| from_user_id := chat; chat_id := chat;
                          text := Some lit_subscribe |}
  | Unsubscribe chat =>
      handle_unsubscribe {| from_user_id := chat; chat_id := chat;
                            text := Some lit_unsubscribe |}
  end.

(** The subscription set as the specification words it: a set of users
    that a subscription adds to and an unsubscription removes from. *)
Definition subscription_step (s : gset Z) (e : Event) : gset Z :=
  match e with
  | Subscribe chat => s ∪ {[ chat ]}
  | Unsubscribe chat => s ∖ {[ chat ]}
  end.

Definition subscription_set (events : list Event) : gset Z :=
  foldl subscription_step ∅ events.

(** A decidable statement about given data holds when its decision
    procedure says so. *)
Ltac by_computation :=
  match goal with
  | |- ?P => apply (bool_decide_eq_true_1 P); vm_compute; reflexivity
  end.

(** ** Plain texts *)

(** A text with no [%], [_] or backslash in it. *)
Definition plain (p : str) : Prop :=
  Forall (λ c, c ≠ chr_percent ∧ c ≠ chr_underscore ∧ c ≠ chr_backslash) p.

#[global] Instance plain_dec p : Decision (plain p).
Proof. unfold plain. apply _. Defined.

(** ** What a handler may touch

    [others_kept u d d']: from [d] to [d'] the lexicon is the same, and so
    are the registration and the progress rows of every user but [u]. *)
Definition others_kept (u : Z) (d d' : Database) : Prop :=
  words d' = words d
  ∧ ∀ other, other ≠ u →
      (other ∈ users d' ↔ other ∈ users d)
      ∧ filter (λ p, pr_user_id p = other) (words_to_users d')
        = filter (λ p, pr_user_id p = other) (words_to_users d).

(** The same of two worlds, with the stored questions of the other
    users. *)
Definition touches_only (u : Z) (w w' : World) : Prop :=
  others_kept u (db w) (db w')
  ∧ ∀ k : Z * Z, k.1 ≠ u → user_data w' !! k = user_data w !! k.

(** The constraints of the schema: the primary keys of the three tables
    and the two foreign keys of [words_to_users]. *)
Definition schema_holds (d : Database) : Prop :=
  NoDup (word_id <$> words d)
  ∧ NoDup (users d)
  ∧ NoDup (key <$> words_to_users d)
  ∧ Forall (λ p, pr_word_id p ∈ word_id <$> words d ∧ pr_user_id p ∈ users d)
           (words_to_users d).

#[global] Instance schema_holds_dec d : Decision (schema_holds d).
Proof. unfold schema_holds. apply _. Defined.

Definition keeps_schema (w w' : World) : Prop :=
  schema_holds (db w) → schema_holds (db w').

(** A computation is confined to a relation [R] when the world it ends in,
    by a return or by an exception, is related to the one it started in;
    [P] holds of what it returns. *)
Definition confined {A} (R : World → World → Prop) (P : A → Prop) (m : M A)
  : Prop :=
  ∀ w, match m w with
       | Ok a w' => R w w' ∧ P a
       | Raise _ w' => R w w'
       | Pending => True
       end.

(** ** More sample data *)

(* 'Big', 'Large', 'Большой' *)
Definition Big : str := [66; 105; 103]%N.
Definition Large : str := [76; 97; 114; 103; 101]%N.
Definition Bolshoy : str := [1041; 1086; 1083; 1100; 1096; 1086; 1081]%N.

(** Two words with one translation, as [load_data] stores them when the
    translation service answers alike for both. *)
Definition big_word : Word :=
  {| word_id := 1; word := Big; translation := Bolshoy; definition := None |}.
Definition large_word : Word :=
  {| word_id := 2; word := Large; translation := Bolshoy;
     definition := None |}.

(** User 7 holds 'Large', and not 'Big', at counter [c]. *)
Definition synonyms_db (c : Z) : Database :=
  {| words := [big_word; large_word]; users := [7];
     words_to_users := [entry 2 7 c] |}.

(** ... and is being asked for it. *)
Definition asked_for_large (c : Z) (py pg : list nat) : World :=
  set_user_data {[ (7, 7) := Bolshoy ]} (process_start (synonyms_db c) py pg).

(** User 7 holds the one word of a lexicon of one word, at counter [c]. *)
Definition one_word_db (c : Z) : Database :=
  {| words := lexicon 1; users := [7]; words_to_users := [entry 1 7 c] |}.

(** The texts on which [lower] is Python's [str.lower]: those written in
    Basic Latin and in Cyrillic up to U+045F. *)
Definition in_both_scripts (s : str) : Prop :=
  Forall (λ c, (c < 128)%N ∨ (1024 ≤ c)%N ∧ (c ≤ 1119)%N) s.

#[global] Instance in_both_scripts_dec s : Decision (in_both_scripts s).
Proof. unfold in_both_scripts. apply _. Defined.

(** * Properties *)

#[local] Set Warnings "-clear-no-such-hyp".

(** ** Running a computation *)

Lemma set_py_random_same (w : World) : set_py_random (py_random w) w = w.
Proof. by destruct w. Qed.

Lemma set_pg_random_same (w : World) : set_pg_random (pg_random w) w = w.
Proof. by destruct w. Qed.

Lemma set_db_same (w : World) : set_db (db w) w = w.
Proof. by destruct w. Qed.

(** ** Sampling with [randint(1, 40)] until the draw is unused *)

Lemma randint_of_range (r : nat) : 1 <= randint_of 1 40 r <= 40.
Proof.
  unfold randint_of.
  pose proof (Z.mod_pos_bound (Z.of_nat r) (40 - 1 + 1)). lia.
Qed.

Lemma first_fresh_Some used tape z tape' :
  first_fresh used tape = Some (z, tape') →
  (z ∉ used) ∧ (1 <= z <= 40) ∧ (z ∈ randint_of 1 40 <$> tape)
  ∧ (length tape' < length tape)%nat.
Proof.
  induction tape as [|r tape IH]; simpl; [done|].
  case_decide as Hr.
  - intros [= Hz Ht]. subst z tape'.
    split; [done|]. split; [apply randint_of_range|].
    split; [set_solver|lia].
  - intros (? & ? & ? & ?)%IH.
    split; [done|]. split; [done|]. split; [set_solver|lia].
Qed.

Lemma first_fresh_None used tape :
  first_fresh used tape = None ↔ Forall (λ r, randint_of 1 40 r ∈ used) tape.
Proof.
  induction tape as [|r tape IH]; simpl.
  - split; [constructor|done].
  - case_decide as Hr.
    + split; [done|]. intros Hall. apply Forall_cons in Hall as [Hin _].
      contradiction.
    + rewrite IH, Forall_cons. split; [|tauto].
      intros ?; split; [|done].
      by destruct (decide (randint_of 1 40 r ∈ used)).
Qed.

Lemma sample_Some n used tape ids tape' :
  NoDup used →
  sample n used tape = Some (ids, tape') →
  ∃ new, ids = used ++ new ∧ length new = n ∧ NoDup ids
         ∧ Forall (λ z, 1 <= z <= 40) new.
Proof.
  revert used tape. induction n as [|n IH]; intros used tape Hnd; simpl.
  - intros [= <- <-]. exists []. by rewrite app_nil_r.
  - destruct (first_fresh used tape) as [[z t]|] eqn:Hf; [|done].
    apply first_fresh_Some in Hf as (Hz & Hrange & _ & _).
    intros (new & -> & <- & Hnd' & Hall)%IH.
    + exists (z :: new). rewrite <- app_assoc in *. split_and!; try done.
      by constructor.
    + apply NoDup_app. split_and!; [done| |apply NoDup_singleton].
      intros x Hx ->%list_elem_of_singleton. done.
Qed.

(** There are enough draws when the tape holds [n] values that are new. *)
Lemma sample_enough tape : ∀ n used,
  (n ≤ size (list_to_set (randint_of 1 40 <$> tape) ∖ list_to_set used
             : gset Z))%nat →
  is_Some (sample n used tape).
Proof.
  induction tape as [|r tape IH]; intros [|n] used Hn; simpl; try done.
  - rewrite fmap_nil, list_to_set_nil in Hn.
    replace (∅ ∖ list_to_set used : gset Z) with (∅ : gset Z) in Hn
      by set_solver.
    rewrite size_empty in Hn. lia.
  - rewrite fmap_cons, list_to_set_cons in Hn.
    case_decide as Hr.
    + apply IH. rewrite list_to_set_app_L. simpl.
      set (T := list_to_set (randint_of 1 40 <$> tape) : gset Z) in *.
      set (U := list_to_set used : gset Z) in *.
      set (z := randint_of 1 40 r) in *.
      assert (({[z]} ∪ T) ∖ U ⊆ {[z]} ∪ T ∖ (U ∪ ({[z]} ∪ ∅))) as Hsub.
      { intros x. destruct (decide (x = z)); set_solver. }
      apply subseteq_size in Hsub.
      assert ({[z]} ## T ∖ (U ∪ ({[z]} ∪ ∅))) as Hdisj by set_solver.
      pose proof (size_union _ _ Hdisj) as Hsize.
      rewrite size_singleton in Hsize. lia.
    + specialize (IH (S n) used). simpl in IH. apply IH.
      replace (list_to_set (randint_of 1 40 <$> tape) ∖ list_to_set used
               : gset Z)
        with (({[randint_of 1 40 r]} ∪ list_to_set (randint_of 1 40 <$> tape))
                ∖ list_to_set used : gset Z); [done|].
      apply set_eq. intros x. set_solver.
Qed.

(** A [while True] loop whose body draws with [randint(1, 40)] and breaks,
    with [result] of the draw, when the draw is not in [used]. *)
Lemma while_True_randint {A} (result : Z → A) (used : list Z)
    (body : M (option A)) (tape : list nat) : ∀ fuel w,
  (∀ r rest w', py_random w' = r :: rest → db w' = db w →
     body w' = Ok (if decide (randint_of 1 40 r ∉ used)
                   then Some (result (randint_of 1 40 r)) else None)
                  (set_py_random rest w')) →
  (∀ w', py_random w' = [] → body w' = Pending) →
  py_random w = tape →
  (length tape < fuel)%nat →
  while_True_fuel fuel body w =
    match first_fresh used tape with
    | Some (z, tape') => Ok (result z) (set_py_random tape' w)
    | None => Pending
    end.
Proof.
  induction tape as [|r tape IH]; intros [|fuel] w Hbody Hend Htape Hfuel;
    simpl in *; try lia.
  - unfold mbind, M_bind. by rewrite Hend.
  - unfold mbind, M_bind. rewrite (Hbody r tape w) by done.
    case_decide as Hr; [done|].
    rewrite (IH fuel (set_py_random tape w)); [|simpl; auto..|lia].
    by destruct (first_fresh used tape) as [[z t]|].
Qed.

(** The first loop of [generate_10_words]. *)
Lemma sampling_rounds (n : nat) : ∀ used w,
  for_range n (λ used_ids,
      while_True (
        word_id ← randint 1 40;
        if decide (word_id ∉ used_ids)
        then mret (Some (used_ids ++ [word_id]))
        else mret None)) used w =
  match sample n used (py_random w) with
  | Some (ids, tape') => Ok ids (set_py_random tape' w)
  | None => Pending
  end.
Proof.
  induction n as [|n IH]; intros used w; simpl.
  - unfold mret, M_ret. by rewrite set_py_random_same.
  - unfold mbind at 1, M_bind at 1, while_True.
    rewrite (while_True_randint (λ z, used ++ [z]) used _ (py_random w));
      [| | |done|unfold draws_left; lia].
    + destruct (first_fresh used (py_random w)) as [[z t]|]; [|done].
      rewrite IH. simpl. by destruct (sample n (used ++ [z]) t) as [[ids t']|].
    + intros r rest w' Hw' _. unfold mbind, M_bind, randint. rewrite Hw'.
      by case_decide.
    + intros w' Hw'. unfold mbind, M_bind, randint. by rewrite Hw'.
Qed.

(** The second loop of [generate_10_words], when no constraint is hit. *)
Lemma insert_each (user_id : Z) (ids : list Z) : ∀ w,
  NoDup ids →
  int4 user_id →
  user_id ∈ users (db w) →
  Forall (λ id, int4 id ∧ id ∈ word_id <$> words (db w)
                ∧ ¬ Exists (same_key id user_id) (words_to_users (db w))) ids →
  for_each ids (λ id, execute (insert_words_to_users id user_id 0)) w
  = Ok tt (set_db (with_rows (new_row user_id <$> ids) (db w)) w).
Proof.
  induction ids as [|id ids IH]; intros w Hnd Hu Hin Hall; simpl.
  - unfold mret, M_ret, with_rows. rewrite app_nil_r.
    by destruct w as [[]].
  - apply NoDup_cons in Hnd as [Hid Hnd].
    apply Forall_cons in Hall as [(Hid4 & Hidw & Hfree) Hall].
    unfold mbind, M_bind, execute at 1, insert_words_to_users at 1.
    rewrite decide_True by (split_and!; [done|done|unfold int4; lia]).
    rewrite decide_False by done.
    rewrite decide_True by done.
    rewrite IH; simpl; try done.
    + unfold with_rows. simpl. by rewrite <- app_assoc.
    + eapply Forall_impl; [apply Forall_and; split; [exact Hall|]|].
      * apply Forall_forall. intros x Hx. exact Hx.
      * simpl. intros x [(H4 & Hw & Hf) Hx]. split_and!; [done..|].
        rewrite Exists_app. intros [?|Hex]; [done|].
        apply Exists_cons in Hex as [[Heq _]|Hex]; simpl in *.
        -- subst x. done.
        -- by apply Exists_nil in Hex.
Qed.

Lemma generate_10_words_run (user_id : Z) (w : World) :
  BotDB.generate_10_words user_id 0 w =
  match sample 10 [] (py_random w) with
  | Some (ids, tape') =>
      for_each ids (λ id, execute (insert_words_to_users id user_id 0))
        (set_py_random tape' w)
  | None => Pending
  end.
Proof.
  unfold BotDB.generate_10_words, mbind at 1, M_bind at 1.
  rewrite sampling_rounds.
  destruct (sample 10 [] (py_random w)) as [[ids t]|]; [|done].
  unfold mbind, M_bind, commit, mret, M_ret.
  by destruct (for_each ids _ _) as [[]| |].
Qed.

Lemma filter_new_rows (user_id : Z) (ids : list Z) :
  filter (λ p, pr_user_id p = user_id) (new_row user_id <$> ids)
  = new_row user_id <$> ids.
Proof.
  induction ids as [|id ids IH]; [done|].
  rewrite fmap_cons, filter_cons_True by done. by rewrite IH.
Qed.

Lemma filter_none {A} (P : A → Prop) `{∀ x, Decision (P x)} (l : list A) :
  Forall (λ x, ¬ P x) l → filter P l = [].
Proof.
  induction 1 as [|x l Hx _ IH]; [done|].
  by rewrite filter_cons_False.
Qed.

(** C1, as amended: over a lexicon that holds the ids 1..40, registering a
    new user creates the user and assigns 10 distinct ids of 1..40, each
    with counter 0, as soon as the generator yields 10 distinct values. *)
Theorem register_user_assigns_ten_words (w : World) (user_id : Z) :
  user_id ∉ users (db w) →
  int4 user_id →
  Forall (λ p, pr_user_id p ∈ users (db w)) (words_to_users (db w)) →
  seqZ 1 40 ⊆ word_id <$> words (db w) →
  (10 ≤ size (list_to_set (randint_of 1 40 <$> py_random w) : gset Z))%nat →
  ∃ w' ids,
    BotDB.register_user user_id w = Ok tt w' ∧
    user_id ∈ users (db w') ∧
    BotDB.all_words_ids user_id w' = Ok ids w' ∧
    length ids = 10%nat ∧ NoDup ids ∧
    Forall (λ i, 1 <= i <= 40 ∧ i ∈ word_id <$> words (db w')) ids ∧
    Forall (λ p, pr_user_id p = user_id → learn_counter p = 0)
           (words_to_users (db w')).
Proof.
  intros Hnew Hu4 Hfk Hlex Hdraws.
  destruct (sample_enough (py_random w) 10 []) as [[ids t] Hs].
  { simpl. by replace (list_to_set (randint_of 1 40 <$> py_random w) ∖ ∅
                       : gset Z)
      with (list_to_set (randint_of 1 40 <$> py_random w) : gset Z)
      by set_solver. }
  pose proof Hs as Hs'.
  apply sample_Some in Hs' as (new & Hids & Hlen & Hnd & Hrange);
    [|constructor].
  simpl in Hids. subst new.
  assert (Forall (λ p, pr_user_id p ≠ user_id) (words_to_users (db w)))
    as Hnone.
  { eapply Forall_impl; [exact Hfk|]. simpl. intros p Hp Heq.
    by rewrite Heq in Hp. }
  exists (set_db (with_rows (new_row user_id <$> ids)
                 {| words := words (db w); users := users (db w) ++ [user_id];
                    words_to_users := words_to_users (db w) |})
            (set_py_random t w)), ids.
  split_and!.
  - unfold BotDB.register_user, BotDB.all_users_list, query.
    unfold mbind, M_bind. simpl.
    rewrite decide_True by done.
    unfold mbind, M_bind, execute at 1, insert_users.
    rewrite decide_True by done. rewrite decide_False by done.
    rewrite generate_10_words_run.
    change (py_random (set_db _ w)) with (py_random w). rewrite Hs.
    rewrite insert_each; simpl; try done.
    + set_solver.
    + apply Forall_forall. intros id Hid.
      rewrite Forall_forall in Hrange. specialize (Hrange id Hid).
      split_and!; [unfold int4; lia|apply Hlex, elem_of_seqZ; lia|].
      rewrite Exists_exists. intros (p & Hp & _ & Hpu).
      rewrite Forall_forall in Hnone. by apply (Hnone p).
  - simpl. set_solver.
  - unfold BotDB.all_words_ids, query, select_word_ids_of_user. simpl. f_equal.
    rewrite filter_app, filter_new_rows, filter_none by done.
    simpl. rewrite <- list_fmap_compose.
    clear. induction ids as [|i ids IH]; [done|]. simpl. by f_equal.
  - done.
  - done.
  - simpl. eapply Forall_impl; [exact Hrange|]. simpl. intros i Hi.
    split; [done|apply Hlex, elem_of_seqZ; lia].
  - simpl. apply Forall_app. split.
    + eapply Forall_impl; [exact Hnone|]. simpl. intros p Hp Hpu. done.
    + apply Forall_forall. intros p (i & -> & _)%list_elem_of_fmap. done.
Qed.

(** ** [add_word] *)

Lemma all_words_ids_run (user_id : Z) (w : World) :
  BotDB.all_words_ids user_id w
  = Ok (select_word_ids_of_user user_id (db w)) w.
Proof. done. Qed.

Lemma add_word_run (user_id : Z) (w : World) :
  BotDB.add_word user_id 0 w =
  match first_fresh (select_word_ids_of_user user_id (db w)) (py_random w) with
  | Some (z, tape') =>
      match insert_words_to_users z user_id 0 (db w) with
      | inl d => Ok z (set_db d (set_py_random tape' w))
      | inr e => Raise e (set_py_random tape' w)
      end
  | None => Pending
  end.
Proof.
  unfold BotDB.add_word, mbind at 1, M_bind at 1, while_True.
  rewrite (while_True_randint (λ z, z) (select_word_ids_of_user user_id (db w)) _
             (py_random w)); [| | |done|unfold draws_left; lia].
  - destruct (first_fresh _ _) as [[z t]|]; [|done].
    unfold mbind, M_bind, execute, commit, mret, M_ret. simpl.
    by destruct (insert_words_to_users z user_id 0 (db w)).
  - intros r rest w' Hw' Hdb.
    unfold mbind, M_bind, randint. rewrite Hw'.
    rewrite all_words_ids_run. simpl. rewrite Hdb.
    by case_decide.
  - intros w' Hw'. unfold mbind, M_bind, randint. by rewrite Hw'.
Qed.

Lemma first_fresh_is_Some used tape :
  Exists (λ r, randint_of 1 40 r ∉ used) tape → is_Some (first_fresh used tape).
Proof.
  intros Hex. destruct (first_fresh used tape) eqn:Hf; [done|].
  apply first_fresh_None in Hf.
  apply Exists_exists in Hex as (r & Hr & Hfresh).
  rewrite Forall_forall in Hf. by specialize (Hf r Hr).
Qed.

(** A user who holds fewer than 40 distinct ids of 1..40 lacks one that
    [randint(1, 40)] can yield. *)
Lemma some_id_is_free (assigned : list Z) :
  NoDup assigned → assigned ⊆ seqZ 1 40 → length assigned ≠ 40%nat →
  Exists (λ r, randint_of 1 40 r ∉ assigned) (seq 0 40).
Proof.
  intros Hnd Hsub Hlen.
  destruct (decide (Exists (λ r, randint_of 1 40 r ∉ assigned) (seq 0 40)))
    as [|Hno]; [done|exfalso].
  apply not_Exists_Forall in Hno; [|apply _].
  rewrite Forall_forall in Hno.
  assert (seqZ 1 40 ⊆ assigned) as Hall.
  { intros i Hi. apply elem_of_seqZ in Hi.
    specialize (Hno (Z.to_nat (i - 1))).
    destruct (decide (i ∈ assigned)) as [|Hni]; [done|exfalso].
    apply Hno.
    - apply elem_of_seq. lia.
    - unfold randint_of. simpl.
      rewrite Z2Nat.id, Z.mod_small by lia. replace (1 + (i - 1)) with i by lia.
      done. }
  assert (length assigned ≤ 40)%nat.
  { replace 40%nat with (length (seqZ 1 40)) by done.
    apply submseteq_length, NoDup_submseteq; [done|]. apply Hsub. }
  assert (40 ≤ length assigned)%nat.
  { replace 40%nat with (length (seqZ 1 40)) at 1 by done.
    apply submseteq_length, NoDup_submseteq; [apply NoDup_seqZ|]. apply Hall. }
  lia.
Qed.

(** ** Registration over a lexicon that lacks some of the ids 1..40 *)

Lemma insert_each_inv (user_id : Z) (ids : list Z) : ∀ w w',
  for_each ids (λ id, execute (insert_words_to_users id user_id 0)) w
  = Ok tt w' →
  Forall (λ id, id ∈ word_id <$> words (db w)) ids.
Proof.
  induction ids as [|id ids IH]; intros w w'; simpl; [constructor|].
  unfold mbind, M_bind, execute at 1, insert_words_to_users at 1.
  repeat case_decide; try done.
  intros Hrest. constructor; [tauto|].
  by apply IH in Hrest.
Qed.

Lemma register_user_needs_ten_ids (user_id : Z) (w w' : World) :
  user_id ∉ users (db w) →
  BotDB.register_user user_id w = Ok tt w' →
  ∃ ids, length ids = 10%nat ∧ NoDup ids
         ∧ Forall (λ id, id ∈ word_id <$> words (db w)) ids.
Proof.
  intros Hnew. unfold BotDB.register_user, BotDB.all_users_list, query.
  unfold mbind, M_bind. simpl.
  rewrite decide_True by done.
  unfold mbind, M_bind, execute at 1.
  destruct (insert_users user_id (db w)) as [d|e] eqn:Hins; [|done].
  rewrite generate_10_words_run.
  change (py_random (set_db d w)) with (py_random w).
  destruct (sample 10 [] (py_random w)) as [[ids t]|] eqn:Hs; [|done].
  apply sample_Some in Hs as (new & Hids & Hlen & Hnd & _); [|constructor].
  simpl in Hids. subst new.
  destruct (for_each ids _ _) as [[] w1| |] eqn:Hfor; try done.
  intros _. exists ids. split_and!; [done..|].
  apply insert_each_inv in Hfor. simpl in Hfor.
  unfold insert_users in Hins. repeat case_decide; try done.
  by injection Hins as <-.
Qed.

(** Over 40 words, with the draws 1..10. *)
Lemma register_user_assigns_ten_words_witness :
  ∃ w' ids,
    BotDB.register_user 7 (process_start (fresh_db 40) (seq 0 10) []) = Ok tt w'
    ∧ 7 ∈ users (db w')
    ∧ BotDB.all_words_ids 7 w' = Ok ids w'
    ∧ length ids = 10%nat ∧ NoDup ids
    ∧ Forall (λ i, 1 <= i <= 40 ∧ i ∈ word_id <$> words (db w')) ids
    ∧ Forall (λ p, pr_user_id p = 7 → learn_counter p = 0)
             (words_to_users (db w')).
Proof.
  apply (register_user_assigns_ten_words
           (process_start (fresh_db 40) (seq 0 10) []) 7); by_computation.
Defined.

(** C1 fails over a lexicon of three words: whatever the generators yield,
    [register_user] does not return, let alone with three words assigned. *)
Lemma register_user_three_word_lexicon :
  ¬ ∃ py pg w' ids,
      BotDB.register_user 7 (process_start (fresh_db 3) py pg) = Ok tt w'
      ∧ BotDB.all_words_ids 7 w' = Ok ids w'
      ∧ length ids = (10 `min` length (lexicon 3))%nat.
Proof.
  intros (py & pg & w' & _ & Hreg & _).
  apply register_user_needs_ten_ids in Hreg as (ids & Hlen & Hnd & Hin);
    [|simpl; apply not_elem_of_nil].
  assert (length ids ≤ 3)%nat; [|lia].
  change 3%nat with (length (word_id <$> lexicon 3)).
  apply submseteq_length, NoDup_submseteq; [done|].
  by apply Forall_forall.
Qed.

(** ** [add_new_word] *)

Lemma add_new_word_run (message : Message) (user_id : Z) (w : World) :
  add_new_word message user_id w =
  if decide (length (select_word_ids_of_user user_id (db w))
             = length (words (db w)))
  then (send_message (chat_id message) MaxWordsAdded;;
        start_new_round message) w
  else (word_id ← BotDB.add_word user_id 0;
        new_word ← BotDB.word_id_to_word word_id;
        to_learn ← BotDB.count_words_to_learn user_id;
        learnt ← BotDB.count_words_already_learnt user_id;
        send_message (chat_id message) (WordAdded new_word to_learn learnt);;
        start_new_round message) w.
Proof.
  unfold add_new_word, mbind at 1, M_bind at 1.
  rewrite all_words_ids_run.
  unfold mbind at 1, M_bind at 1, BotDB.all_main_words_ids, query.
  cbv beta iota. rewrite length_fmap. by case_decide.
Qed.

Lemma word_id_to_word_run (wid : Z) (w : World) :
  wid ∈ word_id <$> words (db w) →
  ∃ new_word, BotDB.word_id_to_word wid w = Ok new_word w.
Proof.
  intros (r & -> & Hr)%list_elem_of_fmap.
  unfold BotDB.word_id_to_word, query, mbind, M_bind, subscript, fetchone.
  cbv beta iota.
  destruct (filter (λ r0, word_id r0 = word_id r) (words (db w)))
    as [|r' rows] eqn:Hf.
  - assert (r ∈ filter (λ r0, word_id r0 = word_id r) (words (db w))) as Hin
      by by apply list_elem_of_filter.
    rewrite Hf in Hin. by apply not_elem_of_nil in Hin.
  - by eexists.
Qed.

(** C3, as amended: over a lexicon whose ids are exactly 1..40, adding a
    word reports that the maximum is reached exactly when the user holds as
    many words as the lexicon has; otherwise some id of 1..40 is free, and
    once the generator yields a free id the handler writes one new row for
    it, with counter 0, and reports the word of that id. *)
Theorem add_new_word_over_forty_words
    (w : World) (message : Message) (user_id : Z) :
  let assigned := select_word_ids_of_user user_id (db w) in
  word_id <$> words (db w) ≡ₚ seqZ 1 40 →
  user_id ∈ users (db w) →
  int4 user_id →
  NoDup assigned →
  assigned ⊆ word_id <$> words (db w) →
  (length assigned = length (words (db w)) →
     add_new_word message user_id w
     = (send_message (chat_id message) MaxWordsAdded;;
        start_new_round message) w)
  ∧ (length assigned ≠ length (words (db w)) →
     Exists (λ r, randint_of 1 40 r ∉ assigned) (seq 0 40)
     ∧ (Exists (λ r, randint_of 1 40 r ∉ assigned) (py_random w) →
        ∃ wid tape' new_word,
          let w' := set_db (with_rows [new_row user_id wid] (db w))
                           (set_py_random tape' w) in
          (wid ∉ assigned)
          ∧ BotDB.add_word user_id 0 w = Ok wid w'
          ∧ BotDB.word_id_to_word wid w' = Ok new_word w'
          ∧ add_new_word message user_id w
            = (to_learn ← BotDB.count_words_to_learn user_id;
               learnt ← BotDB.count_words_already_learnt user_id;
               send_message (chat_id message)
                 (WordAdded new_word to_learn learnt);;
               start_new_round message) w')).
Proof.
  intros assigned Hlex Hu Hu4 Hnd Hsub.
  assert (length (words (db w)) = 40%nat) as Hlen.
  { rewrite <- (length_fmap word_id), Hlex. done. }
  split.
  - intros Hfull. rewrite add_new_word_run. by rewrite decide_True.
  - intros Hnot. split.
    + apply some_id_is_free; [done| |by rewrite <- Hlen].
      intros i Hi. rewrite <- Hlex. by apply Hsub.
    + intros Hdraw.
      destruct (first_fresh assigned (py_random w)) as [[wid t]|] eqn:Hf;
        [|by apply first_fresh_is_Some in Hdraw as [? ?]; simplify_eq].
      pose proof Hf as (Hfree & Hrange & _)%first_fresh_Some.
      assert (wid ∈ word_id <$> words (db w)) as Hin.
      { rewrite Hlex. apply elem_of_seqZ. lia. }
      assert (insert_words_to_users wid user_id 0 (db w)
              = inl (with_rows [new_row user_id wid] (db w))) as Hins.
      { unfold insert_words_to_users.
        rewrite decide_True by (unfold int4 in *; lia).
        rewrite decide_False.
        - by rewrite decide_True.
        - rewrite Exists_exists. intros (p & Hp & Hw & Hpu).
          apply Hfree. unfold assigned, select_word_ids_of_user.
          apply list_elem_of_fmap. exists p. split; [done|].
          by apply list_elem_of_filter. }
      destruct (word_id_to_word_run wid
                  (set_db (with_rows [new_row user_id wid] (db w))
                          (set_py_random t w))) as [new_word Hword]; [done|].
      exists wid, t, new_word. cbv zeta.
      assert (BotDB.add_word user_id 0 w
              = Ok wid (set_db (with_rows [new_row user_id wid] (db w))
                               (set_py_random t w))) as Hadd.
      { rewrite add_word_run. fold assigned. by rewrite Hf, Hins. }
      split_and!; [done..|].
      rewrite add_new_word_run. rewrite decide_False by done.
      unfold mbind at 1, M_bind at 1. rewrite Hadd.
      unfold mbind at 1, M_bind at 1. by rewrite Hword.
Qed.

(** User 7 over 40 words: holding all of them, and holding ten of them
    with the draws 4 and 13. *)
Lemma add_new_word_over_forty_words_witness :
  (add_new_word (message_of Command.ADD_WORD) 7
     (process_start (db_with_user 40 40) [3; 12]%nat [])
   = (send_message 7 MaxWordsAdded;;
      start_new_round (message_of Command.ADD_WORD))
       (process_start (db_with_user 40 40) [3; 12]%nat []))
  ∧ ∃ wid tape' new_word,
      let w := process_start (db_with_user 40 10) [3; 12]%nat [] in
      let w' := set_db (with_rows [new_row 7 wid] (db w))
                       (set_py_random tape' w) in
      (wid ∉ select_word_ids_of_user 7 (db w))
      ∧ BotDB.add_word 7 0 w = Ok wid w'
      ∧ BotDB.word_id_to_word wid w' = Ok new_word w'
      ∧ add_new_word (message_of Command.ADD_WORD) 7 w
        = (to_learn ← BotDB.count_words_to_learn 7;
           learnt ← BotDB.count_words_already_learnt 7;
           send_message 7 (WordAdded new_word to_learn learnt);;
           start_new_round (message_of Command.ADD_WORD)) w'.
Proof.
  split.
  - apply (add_new_word_over_forty_words
             (process_start (db_with_user 40 40) [3; 12]%nat [])
             (message_of Command.ADD_WORD) 7); by_computation.
  - apply (add_new_word_over_forty_words
             (process_start (db_with_user 40 10) [3; 12]%nat [])
             (message_of Command.ADD_WORD) 7); by_computation.
Defined.

(** C3 fails over a lexicon of 39 words: user 7 holds ten of them, the
    generator yields 40, and the handler ends in a foreign-key error, with
    no row written and nothing reported. *)
Lemma add_new_word_over_39_words :
  add_new_word (message_of Command.ADD_WORD) 7
    (process_start (db_with_user 39 10) [39%nat] [])
  = Raise ForeignKeyViolation (process_start (db_with_user 39 10) [] []).
Proof. vm_compute. reflexivity. Qed.

(** ** Termination of the sampling *)

Lemma insert_each_ends (user_id : Z) (ids : list Z) : ∀ w,
  for_each ids (λ id, execute (insert_words_to_users id user_id 0)) w
  ≠ Pending.
Proof.
  induction ids as [|id ids IH]; intros w; simpl; [done|].
  unfold mbind, M_bind, execute at 1.
  destruct (insert_words_to_users id user_id 0 (db w)); [apply IH|done].
Qed.

(** ** Counters *)

Lemma select_word_id_like_error (pattern : str) (rows : list Word) (e : exn) :
  select_word_id_like pattern rows = inr e → e = InvalidEscapeSequence.
Proof.
  induction rows as [|r rows IH]; simpl; [done|].
  destruct (MatchText pattern (translation r)); try done.
  - destruct (select_word_id_like pattern rows); [done|].
    intros [= <-]. by apply IH.
  - by intros [= <-].
Qed.

Lemma word_to_word_id_run (word : str) (w : World) :
  BotDB.word_to_word_id word w =
  match select_word_id_like word (words (db w)) with
  | inl ids => Ok (head ids) w
  | inr e => Raise e w
  end.
Proof.
  unfold BotDB.word_to_word_id, query, mbind, M_bind.
  by destruct (select_word_id_like word (words (db w))).
Qed.

Lemma check_if_learnt_eval (user_id : Z) (word : str) (w : World) :
  BotDB.check_if_learnt user_id word w =
  match select_word_id_like word (words (db w)) with
  | inl ids =>
      match head (select_learn_counter (head ids) user_id (db w)) with
      | Some c => Ok c w
      | None => Raise TypeError w
      end
  | inr e => Raise e w
  end.
Proof.
  unfold BotDB.check_if_learnt, mbind at 1, M_bind at 1.
  rewrite word_to_word_id_run.
  destruct (select_word_id_like word (words (db w))) as [ids|e]; [|done].
  unfold mbind, M_bind, query, subscript, fetchone. cbv beta iota.
  by destruct (head (select_learn_counter (head ids) user_id (db w))).
Qed.

(** The counter read depends on the database alone. *)
Lemma check_if_learnt_frame (user_id : Z) (word : str) (w w' : World) (c : Z) :
  db w' = db w →
  BotDB.check_if_learnt user_id word w = Ok c w →
  BotDB.check_if_learnt user_id word w' = Ok c w'.
Proof.
  intros Hdb. rewrite !check_if_learnt_eval, Hdb.
  destruct (select_word_id_like word (words (db w))) as [ids|e]; [|done].
  destruct (head (select_learn_counter (head ids) user_id (db w))); [|done].
  by intros [= ->].
Qed.

Lemma delete_word_eval (user_id : Z) (word : str) (w : World) :
  BotDB.delete_word user_id word w =
  match select_word_id_like word (words (db w)) with
  | inl ids =>
      Ok tt (set_db (delete_words_to_users (head ids) user_id (db w)) w)
  | inr e => Raise e w
  end.
Proof.
  unfold BotDB.delete_word, mbind at 1, M_bind at 1.
  rewrite word_to_word_id_run.
  by destruct (select_word_id_like word (words (db w))).
Qed.

Lemma filter_after_delete (wid : option Z) (uid : Z) (rows : list Progress) :
  filter (key_matches wid uid) (filter (λ p, ¬ key_matches wid uid p) rows)
  = [].
Proof.
  apply filter_none, Forall_forall.
  by intros p [Hp _]%list_elem_of_filter.
Qed.

(** C6: after [delete_word], [check_if_learnt] for the same user and word
    finds no row and raises; it returns no counter. *)
Theorem counter_of_deleted_word_is_not_found
    (w : World) (user_id : Z) (word : str) :
  match BotDB.delete_word user_id word w with
  | Ok _ w' => BotDB.check_if_learnt user_id word w' = Raise TypeError w'
  | Raise e w' =>
      e = InvalidEscapeSequence ∧ w' = w
      ∧ BotDB.check_if_learnt user_id word w = Raise e w
  | Pending => False
  end.
Proof.
  rewrite delete_word_eval, !check_if_learnt_eval.
  destruct (select_word_id_like word (words (db w))) as [ids|e] eqn:Hsel.
  - rewrite check_if_learnt_eval. simpl. rewrite Hsel.
    unfold select_learn_counter. simpl.
    by rewrite filter_after_delete.
  - split_and!; [by eapply select_word_id_like_error|done..].
Qed.

(** For instance, with 'Apple' at counter 3. *)
Example counter_before_and_after_delete :
  BotDB.check_if_learnt 7 Yabloko (asked_for_apple 3 [] [])
  = Ok 3 (asked_for_apple 3 [] [])
  ∧ (BotDB.delete_word 7 Yabloko;; BotDB.check_if_learnt 7 Yabloko)
      (asked_for_apple 3 [] [])
    = Raise TypeError
        (set_db {| words := words (apple_db 3); users := [7];
                   words_to_users := [] |} (asked_for_apple 3 [] [])).
Proof. split; vm_compute; reflexivity. Qed.

(** Under the primary key, a row is the only one with its key. *)
Lemma filter_by_key (rows : list Progress) (p : Progress) :
  NoDup (key <$> rows) → p ∈ rows →
  filter (key_matches (Some (pr_word_id p)) (pr_user_id p)) rows = [p].
Proof.
  induction rows as [|q rows IH]; intros Hnd Hin.
  - by apply not_elem_of_nil in Hin.
  - rewrite fmap_cons in Hnd. apply NoDup_cons in Hnd as [Hq Hnd].
    apply elem_of_cons in Hin as [Heq|Hin].
    + subst q. rewrite filter_cons_True by done. f_equal.
      apply filter_none, Forall_forall. intros p' Hp' [Hw Hu].
      apply Hq, list_elem_of_fmap. exists p'. split; [|done].
      unfold key. congruence.
    + rewrite filter_cons_False; [by apply IH|].
      intros [Hw Hu]. apply Hq, list_elem_of_fmap. exists p. split; [|done].
      unfold key. congruence.
Qed.

Lemma key_increment (wid : option Z) (uid : Z) (rows : list Progress) :
  key <$> (increment wid uid <$> rows) = key <$> rows.
Proof.
  rewrite <- list_fmap_compose. apply list_fmap_ext. intros _ p _.
  unfold increment. simpl. by case_decide.
Qed.

Section one_entry.
Context (w : World) (word : str) (user_id wid c : Z).
Hypothesis Hword : BotDB.word_to_word_id word w = Ok (Some wid) w.
Hypothesis Hkey : NoDup (key <$> words_to_users (db w)).
Hypothesis Hrow : entry wid user_id c ∈ words_to_users (db w).

Lemma check_if_learnt_run : BotDB.check_if_learnt user_id word w = Ok c w.
Proof using Hword Hkey Hrow.
  unfold BotDB.check_if_learnt, mbind at 1, M_bind at 1. rewrite Hword.
  unfold query, mbind, M_bind, select_learn_counter. cbv beta iota.
  by rewrite (filter_by_key _ (entry wid user_id c)).
Qed.

Lemma add_learn_counter_run :
  int4 (c + 1) →
  BotDB.add_learn_counter user_id word w
  = Ok tt (set_db (bumped wid user_id (db w)) w).
Proof using Hword Hkey Hrow.
  intros Hc.
  unfold BotDB.add_learn_counter, mbind at 1, M_bind at 1. rewrite Hword.
  unfold execute, commit, mbind, M_bind, mret, M_ret, update_learn_counter.
  rewrite decide_False; [done|].
  rewrite Exists_exists. intros (p & Hp & Hmatch & Hover).
  assert (p ∈ filter (key_matches (Some wid) user_id)
                     (words_to_users (db w))) as Hin
    by by apply list_elem_of_filter.
  rewrite (filter_by_key _ (entry wid user_id c)) in Hin by done.
  apply list_elem_of_singleton in Hin as ->. done.
Qed.

Lemma bumped_word :
  BotDB.word_to_word_id word (set_db (bumped wid user_id (db w)) w)
  = Ok (Some wid) (set_db (bumped wid user_id (db w)) w).
Proof using Hword.
  revert Hword. rewrite !word_to_word_id_run. simpl.
  destruct (select_word_id_like word (words (db w))); [|done].
  by intros [= ->].
Qed.

Lemma bumped_key :
  NoDup (key <$> words_to_users (db (set_db (bumped wid user_id (db w)) w))).
Proof using Hkey. simpl. by rewrite key_increment. Qed.

Lemma bumped_row :
  entry wid user_id (c + 1)
  ∈ words_to_users (db (set_db (bumped wid user_id (db w)) w)).
Proof using Hrow.
  simpl. apply list_elem_of_fmap. exists (entry wid user_id c).
  split; [|done]. unfold increment. by rewrite decide_True.
Qed.
End one_entry.

Lemma increments_add_up (word : str) (user_id wid : Z) (n : nat) : ∀ w c,
  BotDB.word_to_word_id word w = Ok (Some wid) w →
  NoDup (key <$> words_to_users (db w)) →
  entry wid user_id c ∈ words_to_users (db w) →
  0 <= c → c + Z.of_nat n <= 2147483647 →
  ∃ w', for_range n (λ _, BotDB.add_learn_counter user_id word) tt w
        = Ok tt w'
        ∧ BotDB.check_if_learnt user_id word w' = Ok (c + Z.of_nat n) w'.
Proof.
  induction n as [|n IH]; intros w c Hword Hkey Hrow Hc Hmax; simpl.
  - exists w. split; [done|]. rewrite Z.add_0_r.
    by eapply check_if_learnt_run.
  - unfold mbind, M_bind.
    rewrite (add_learn_counter_run w word user_id wid c)
      by (try done; unfold int4; lia).
    destruct (IH (set_db (bumped wid user_id (db w)) w) (c + 1))
      as (w' & Hrun & Hcount); [..|lia|lia|].
    + by apply bumped_word.
    + by apply bumped_key.
    + by apply bumped_row.
    + exists w'. split; [done|]. rewrite Hcount. f_equal. lia.
Qed.

(** X28: for an entry that the text of the answer resolves to, under the
    primary key of the table: [n] increments of the entry at counter [c]
    leave it at [c + n], so five of a fresh entry leave it at 5; and a
    correct answer reports the word as learnt exactly when it takes the
    counter from 4 to 5. *)
Theorem learnt_is_reported_on_the_fifth_increment
    (w : World) (message : Message) (user_id wid c : Z) :
  BotDB.word_to_word_id (text_of message) w = Ok (Some wid) w →
  NoDup (key <$> words_to_users (db w)) →
  entry wid user_id c ∈ words_to_users (db w) →
  0 <= c →
  (∀ n : nat, c + Z.of_nat n <= 2147483647 →
     ∃ w', for_range n (λ _, BotDB.add_learn_counter user_id (text_of message))
             tt w = Ok tt w'
           ∧ BotDB.check_if_learnt user_id (text_of message) w'
             = Ok (c + Z.of_nat n) w')
  ∧ (c + 1 <= 2147483647 →
     ∃ w', handle_correct_answer message user_id w = start_new_round message w'
           ∧ BotDB.check_if_learnt user_id (text_of message) w'
             = Ok (c + 1) w'
           ∧ sent w' = sent w ++ (chat_id message, Correct) ::
               (if decide (c = 4)
                then [(chat_id message, WordLearnt (text_of message))]
                else [])).
Proof.
  intros Hword Hkey Hrow Hc. split.
  - intros n Hmax. by eapply increments_add_up.
  - intros Hmax.
    set (w1 := set_sent (sent w ++ [(chat_id message, Correct)]) w).
    assert (BotDB.word_to_word_id (text_of message) w1 = Ok (Some wid) w1)
      as Hword1.
    { revert Hword. rewrite !word_to_word_id_run. simpl.
      destruct (select_word_id_like _ _); [|done]. by intros [= ->]. }
    set (w2 := set_db (bumped wid user_id (db w1)) w1).
    pose proof (bumped_word w1 _ user_id wid Hword1) as Hword2.
    pose proof (bumped_key w1 user_id wid Hkey) as Hkey2.
    pose proof (bumped_row w1 user_id wid c Hrow) as Hrow2.
    pose proof (check_if_learnt_run w2 _ user_id wid (c + 1)
                  Hword2 Hkey2 Hrow2) as Hcheck.
    assert (handle_correct_answer message user_id w =
      ((if decide (c + 1 = 5) then
          send_message (chat_id message) (WordLearnt (text_of message))
        else mret tt);; start_new_round message) w2) as ->.
    { unfold handle_correct_answer.
      unfold mbind at 1, M_bind at 1, send_message at 1,
        Notification.send_message at 1. fold w1.
      unfold mbind at 1, M_bind at 1.
      rewrite (add_learn_counter_run w1 _ user_id wid c)
        by (try done; unfold int4; lia).
      fold w2. unfold mbind at 1, M_bind at 1. by rewrite Hcheck. }
    destruct (decide (c = 4)) as [->|Hne].
    + rewrite decide_True by done.
      eexists. split; [reflexivity|]. split.
      * by apply (check_if_learnt_frame _ _ w2).
      * simpl. by rewrite <- app_assoc.
    + rewrite decide_False by lia.
      exists w2. split; [done|]. split; [done|]. done.
Qed.

(** User 7 and the word 'Apple': five increments from 0, and a correct
    answer at the counters 3, 4 and 5. *)
Lemma learnt_is_reported_on_the_fifth_increment_witness :
  (∃ w', for_range 5 (λ _, BotDB.add_learn_counter 7 Yabloko) tt
           (asked_for_apple 0 [] []) = Ok tt w'
         ∧ BotDB.check_if_learnt 7 Yabloko w' = Ok 5 w')
  ∧ (∃ w', handle_correct_answer (message_of Yabloko) 7
             (asked_for_apple 3 [] [])
           = start_new_round (message_of Yabloko) w'
           ∧ BotDB.check_if_learnt 7 Yabloko w' = Ok 4 w'
           ∧ sent w' = [(7, Correct)])
  ∧ (∃ w', handle_correct_answer (message_of Yabloko) 7
             (asked_for_apple 4 [] [])
           = start_new_round (message_of Yabloko) w'
           ∧ BotDB.check_if_learnt 7 Yabloko w' = Ok 5 w'
           ∧ sent w' = [(7, Correct); (7, WordLearnt Yabloko)])
  ∧ (∃ w', handle_correct_answer (message_of Yabloko) 7
             (asked_for_apple 5 [] [])
           = start_new_round (message_of Yabloko) w'
           ∧ BotDB.check_if_learnt 7 Yabloko w' = Ok 6 w'
           ∧ sent w' = [(7, Correct)]).
Proof.
  split_and!.
  - apply (proj1 (learnt_is_reported_on_the_fifth_increment
                    (asked_for_apple 0 [] []) (message_of Yabloko) 7 1 0
                    eq_refl ltac:(by_computation) ltac:(by_computation)
                    ltac:(lia)) 5%nat).
    lia.
  - apply (proj2 (learnt_is_reported_on_the_fifth_increment
                    (asked_for_apple 3 [] []) (message_of Yabloko) 7 1 3
                    eq_refl ltac:(by_computation) ltac:(by_computation)
                    ltac:(lia))).
    lia.
  - apply (proj2 (learnt_is_reported_on_the_fifth_increment
                    (asked_for_apple 4 [] []) (message_of Yabloko) 7 1 4
                    eq_refl ltac:(by_computation) ltac:(by_computation)
                    ltac:(lia))).
    lia.
  - apply (proj2 (learnt_is_reported_on_the_fifth_increment
                    (asked_for_apple 5 [] []) (message_of Yabloko) 7 1 5
                    eq_refl ltac:(by_computation) ltac:(by_computation)
                    ltac:(lia))).
    lia.
Defined.

(** ** A translation stored for two words

    The counters are looked up by the text of the answer, and the LIKE
    query takes the first row that stores it. *)

(** C5 at two words with one translation: user 7 holds 'Large' at counter
    0 and not 'Big'.  Five increments for the translation change nothing,
    reading the counter raises TypeError, and so does the handler, after
    '✅ Верно!', at the right answer. *)
Theorem shared_translation_is_not_counted :
  for_range 5 (λ _, BotDB.add_learn_counter 7 Bolshoy) tt
    (asked_for_large 0 [] [])
  = Ok tt (asked_for_large 0 [] [])
  ∧ BotDB.check_if_learnt 7 Bolshoy (asked_for_large 0 [] [])
    = Raise TypeError (asked_for_large 0 [] [])
  ∧ handle_user_answer (message_of Bolshoy) (asked_for_large 0 [] [])
    = Raise TypeError
        (set_sent [(7, Correct)]
           (set_next_step [(7, to_start_word_learning_session)]
              (asked_for_large 0 [] []))).
Proof. split_and!; vm_compute; reflexivity. Qed.

(** ** An answer in another case

    The handler compares the answer with the translation in lower case,
    and then looks the word up by the answer as it was typed. *)

(** C4 at an answer typed in lower case: the answer is accepted, no counter
    moves, and the handler ends in a TypeError; typed as stored, the same
    answer moves the counter by one. *)
Theorem lower_case_answer_is_not_counted :
  handle_user_answer (message_of yabloko) (asked_for_apple 0 [] [])
  = Raise TypeError
      (set_sent [(7, Correct)]
         (set_next_step [(7, to_start_word_learning_session)]
            (asked_for_apple 0 [] [])))
  ∧ BotDB.add_learn_counter 7 yabloko (asked_for_apple 0 [] [])
    = Ok tt (asked_for_apple 0 [] [])
  ∧ BotDB.add_learn_counter 7 Yabloko (asked_for_apple 0 [] [])
    = Ok tt (asked_for_apple 1 [] []).
Proof. split_and!; vm_compute; reflexivity. Qed.

(** ** The choices of a question *)

Lemma swap_Permutation {A} (i j : nat) (x : list A) : swap i j x ≡ₚ x.
Proof.
  unfold swap.
  destruct (x !! i) as [a|] eqn:Hi; [|done].
  destruct (x !! j) as [b|] eqn:Hj; [|done].
  pose proof (lookup_lt_Some _ _ _ Hi) as Hil.
  pose proof (lookup_lt_Some _ _ _ Hj) as Hjl.
  apply Permutation_inj. split; [by rewrite !length_insert|].
  exists (λ k, if decide (k = j) then i else if decide (k = i) then j else k).
  split.
  - intros k1 k2. repeat case_decide; lia.
  - intros k. destruct (decide (k = j)) as [->|Hkj].
    + rewrite list_lookup_insert_eq by (by rewrite length_insert). done.
    + rewrite list_lookup_insert_ne by done.
      destruct (decide (k = i)) as [->|Hki].
      * by rewrite list_lookup_insert_eq.
      * by rewrite list_lookup_insert_ne.
Qed.

Lemma shuffle_from_run {A} (i : nat) : ∀ (x : list A) (w : World),
  (i ≤ length (py_random w))%nat →
  ∃ x', shuffle_from i x w = Ok x' (set_py_random (drop i (py_random w)) w)
        ∧ x' ≡ₚ x.
Proof.
  induction i as [|i IH]; intros x w Hdraws.
  - exists x. simpl. unfold mret, M_ret. rewrite drop_0.
    by rewrite set_py_random_same.
  - destruct (py_random w) as [|r rest] eqn:Hpy; [simpl in *; lia|].
    destruct (IH (swap (S i) (r mod (S i + 1)) x) (set_py_random rest w))
      as (x' & Hrun & Hperm); [simpl in *; lia|].
    exists x'. split.
    + change (shuffle_from (S i) x)
        with (j ← randbelow (S i + 1); shuffle_from i (swap (S i) j x)).
      unfold mbind, M_bind, randbelow. rewrite Hpy.
      by rewrite Hrun.
    + by rewrite Hperm, swap_Permutation.
Qed.

Lemma order_by_random_run {A} (rows : list A) (w : World) (r : nat)
    (rest : list nat) :
  rows ≠ [] → pg_random w = r :: rest →
  order_by_random rows w
  = Ok (rows !! (r mod length rows)%nat) (set_pg_random rest w).
Proof.
  intros Hrows Hpg. unfold order_by_random.
  destruct rows; [done|]. by rewrite Hpg.
Qed.

Lemma get_random_examples_run (w : World) (r : nat) (rest : list nat) :
  pg_random w = r :: rest → words (db w) ≠ [] →
  ∃ row, words (db w) !! (r mod length (words (db w)))%nat = Some row
         ∧ BotDB.get_random_examples w
           = Ok (word row, translation row, definition row)
                (set_pg_random rest w).
Proof.
  intros Hpg Hlex.
  destruct (lookup_lt_is_Some_2 (words (db w))
              (r mod length (words (db w)))%nat) as [row Hrow].
  { apply Nat.mod_upper_bound. by destruct (words (db w)). }
  exists row. split; [done|].
  unfold BotDB.get_random_examples, query, mbind, M_bind. cbv beta iota.
  rewrite (order_by_random_run _ w r rest); [|by destruct (words (db w))|done].
  by rewrite length_fmap, list_lookup_fmap, Hrow.
Qed.

Lemma size_add_one (s : gset str) (x : str) : (size (s ∪ {[x]}) ≤ size s + 1)%nat.
Proof.
  rewrite size_union_alt.
  assert (size ({[x]} ∖ s : gset str) ≤ size ({[x]} : gset str))%nat
    by (apply subseteq_size; set_solver).
  rewrite size_singleton in *. lia.
Qed.

Lemma while_fuel_step {St} (fuel : nat) (cond : St → bool)
    (body : St → M St) (s : St) (w : World) :
  cond s = true →
  while_fuel (S fuel) cond body s w =
  match body s w with
  | Ok s' w' => while_fuel fuel cond body s' w'
  | Raise e w' => Raise e w'
  | Pending => Pending
  end.
Proof. intros Hc. simpl. by rewrite Hc. Qed.

Lemma while_fuel_exit {St} (fuel : nat) (cond : St → bool)
    (body : St → M St) (s : St) (w : World) :
  cond s = false → while_fuel fuel cond body s w = Ok s w.
Proof. intros Hc. destruct fuel; simpl; by rewrite Hc. Qed.

(** The loop of [generate_buttons]. *)
Lemma choices_loop (pg : list nat) : ∀ fuel (s : gset str) (w : World),
  pg_random w = pg →
  (length pg < fuel)%nat →
  words (db w) ≠ [] →
  (size s ≤ 4)%nat →
  (4 ≤ size (s ∪ list_to_set (omap (pick_translation (db w)) pg)))%nat →
  ∃ s' pg',
    while_fuel fuel (λ s : gset str, bool_decide (size s < 4)%nat)
      (λ s, ex ← BotDB.get_random_examples; mret (s ∪ {[ ex.1.2 ]})) s w
    = Ok s' (set_pg_random pg' w)
    ∧ size s' = 4%nat ∧ s ⊆ s'
    ∧ s' ⊆ s ∪ list_to_set (omap (pick_translation (db w)) pg).
Proof.
  set (body := λ s : gset str, BotDB.get_random_examples ≫= _).
  induction pg as [|r pg IH]; intros [|fuel] s w Hpg Hfuel Hlex Hle Hge;
    try (simpl in Hfuel; lia).
  - simpl in Hge. rewrite (right_id_L ∅ (∪)) in Hge.
    exists s, []. rewrite while_fuel_exit by (apply bool_decide_false; lia).
    rewrite <- Hpg, set_pg_random_same.
    split_and!; [done|lia|done|set_solver].
  - destruct (decide (size s < 4)%nat) as [Hlt|Hlt].
    + destruct (get_random_examples_run w r pg Hpg Hlex)
        as (row & Hrow & Hrun).
      assert (pick_translation (db w) r = Some (translation row)) as Hpick
        by (unfold pick_translation; by rewrite Hrow).
      simpl in Hge. rewrite Hpick, list_to_set_cons in Hge.
      destruct (IH fuel (s ∪ {[translation row]}) (set_pg_random pg w))
        as (s' & pg' & Hloop & Hsize & Hsub & Hsup);
        [done|simpl in Hfuel; lia|done
        |pose proof (size_add_one s (translation row)); lia| |].
      { simpl db. by rewrite <- (assoc_L (∪)). }
      exists s', pg'. split_and!; [|done|set_solver|].
      * rewrite while_fuel_step by (by apply bool_decide_true).
        assert (body s w = Ok (s ∪ {[translation row]}) (set_pg_random pg w))
          as -> by (unfold body, mbind, M_bind; by rewrite Hrun).
        by rewrite Hloop.
      * simpl. rewrite Hpick, list_to_set_cons. simpl db in Hsup. set_solver.
    + exists s, (r :: pg).
      rewrite while_fuel_exit by (by apply bool_decide_false).
      rewrite <- Hpg, set_pg_random_same.
      split_and!; [done|lia|done|set_solver].
Qed.

Lemma pick_translation_in_lexicon (d : Database) (r : nat) (t : str) :
  pick_translation d r = Some t → t ∈ translation <$> words d.
Proof.
  unfold pick_translation.
  destruct (words d !! (r mod length (words d))%nat) as [row|] eqn:Hrow;
    [|done].
  intros [= <-]. apply list_elem_of_fmap. exists row. split; [done|].
  by eapply list_elem_of_lookup_2.
Qed.

Lemma no_pick_in_empty_lexicon (d : Database) (pg : list nat) :
  words d = [] → omap (pick_translation d) pg = [].
Proof.
  intros Hnil. induction pg as [|r pg IH]; [done|].
  change (omap (pick_translation d) (r :: pg))
    with (match pick_translation d r with
          | Some t => t :: omap (pick_translation d) pg
          | None => omap (pick_translation d) pg
          end).
  rewrite IH. unfold pick_translation. by rewrite Hnil.
Qed.

Lemma swap_lookup {A} (i j k : nat) (x : list A) (a b : A) :
  x !! i = Some a → x !! j = Some b →
  swap i j x !! k
  = if decide (k = j) then Some a else if decide (k = i) then Some b
    else x !! k.
Proof.
  intros Hi Hj. unfold swap. rewrite Hi, Hj.
  pose proof (lookup_lt_Some _ _ _ Hi) as Hil.
  pose proof (lookup_lt_Some _ _ _ Hj) as Hjl.
  destruct (decide (k = j)) as [->|Hkj].
  - by rewrite list_lookup_insert_eq by (by rewrite length_insert).
  - rewrite list_lookup_insert_ne by done.
    destruct (decide (k = i)) as [->|Hki].
    + by rewrite list_lookup_insert_eq.
    + by rewrite list_lookup_insert_ne.
Qed.

(** [random.shuffle] reaches every arrangement: for a list without
    duplicates and any arrangement [t] of it that agrees with it beyond the
    position [i], there are [i] draws with which the loop from [i] down
    leaves [t]. *)
Lemma shuffle_from_reaches {A} (i : nat) : ∀ x t : list A,
  NoDup x → x ≡ₚ t → (i < length x)%nat →
  drop (S i) x = drop (S i) t →
  ∃ draws, length draws = i
           ∧ ∀ w rest, py_random w = draws ++ rest →
               shuffle_from i x w = Ok t (set_py_random rest w).
Proof.
  induction i as [|i IH]; intros x t Hnd Hperm Hi Htail.
  - exists []. split; [done|]. intros w rest Hpy. simpl in Hpy.
    simpl. unfold mret, M_ret. rewrite <- Hpy, set_py_random_same.
    f_equal.
    destruct x as [|a xs]; [simpl in Hi; lia|].
    destruct t as [|b ts]; [by apply Permutation_nil_r in Hperm|].
    change (xs = ts) in Htail. subst ts. f_equal.
    apply NoDup_cons in Hnd as [Ha _].
    assert (a ∈ b :: xs) as Hin by (rewrite <- Hperm; left).
    by apply elem_of_cons in Hin as [?|?].
  - assert (length t = length x) as Hlen by by rewrite Hperm.
    assert (NoDup t) as Hndt by by rewrite <- Hperm.
    destruct (lookup_lt_is_Some_2 t (S i)) as [y Hy]; [lia|].
    assert (y ∈ x) as Hyx
      by (rewrite Hperm; by eapply list_elem_of_lookup_2).
    apply list_elem_of_lookup_1 in Hyx as [j Hj].
    assert (j ≤ S i)%nat as Hle.
    { destruct (decide (j ≤ S i)%nat) as [|Hgt]; [done|exfalso].
      assert (t !! j = Some y) as Hj'.
      { replace j with (S (S i) + (j - S (S i)))%nat by lia.
        rewrite <- lookup_drop, <- Htail, lookup_drop.
        by replace (S (S i) + (j - S (S i)))%nat with j by lia. }
      pose proof (NoDup_lookup _ _ _ _ Hndt Hj' Hy). lia. }
    destruct (lookup_lt_is_Some_2 x (S i)) as [z Hz]; [lia|].
    set (x' := swap (S i) j x).
    assert (∀ k, x' !! k = if decide (k = j) then Some z
                           else if decide (k = S i) then Some y
                           else x !! k) as Hx'
      by (intros k; by apply swap_lookup).
    destruct (IH x' t) as (draws & Hdraws & Hrun).
    + unfold x'. by rewrite swap_Permutation.
    + unfold x'. by rewrite swap_Permutation.
    + unfold x'. rewrite swap_Permutation. lia.
    + apply list_eq. intros k. rewrite !lookup_drop, Hx'.
      destruct (decide (S i + k = j)%nat) as [Hkj|Hkj].
      * assert (k = 0%nat) as -> by lia. replace j with (S i) in * by lia.
        rewrite Nat.add_0_r, Hy. congruence.
      * destruct (decide (S i + k = S i)%nat) as [Hk|Hk].
        -- rewrite Hk. done.
        -- replace (S i + k)%nat with (S (S i) + (k - 1))%nat by lia.
           by rewrite <- !lookup_drop, Htail.
    + exists (j :: draws). split; [simpl; lia|].
      intros w rest Hpy.
      change ((j :: draws) ++ rest) with (j :: (draws ++ rest)) in Hpy.
      change (shuffle_from (S i) x)
        with (r ← randbelow (S i + 1); shuffle_from i (swap (S i) r x)).
      unfold mbind, M_bind, randbelow. rewrite Hpy. cbv beta iota.
      rewrite Nat.mod_small by lia. fold x'.
      by rewrite (Hrun _ rest).
Qed.

Lemma shuffle_reaches {A} (x t : list A) :
  NoDup x → x ≡ₚ t →
  ∃ draws, length draws = (length x - 1)%nat
           ∧ ∀ w rest, py_random w = draws ++ rest →
               shuffle x w = Ok t (set_py_random rest w).
Proof.
  intros Hnd Hperm. unfold shuffle.
  destruct x as [|a xs].
  - apply Permutation_nil_l in Hperm. subst t. exists [].
    split; [reflexivity|].
    intros w rest Hpy. simpl in *. unfold mret, M_ret.
    by rewrite <- Hpy, set_py_random_same.
  - apply shuffle_from_reaches; [done..|simpl; lia|].
    replace (S (length (a :: xs) - 1)) with (length (a :: xs))
      by (simpl; lia).
    rewrite drop_all. symmetry.
    rewrite (Permutation_length Hperm). apply drop_all.
Qed.

(** The loop of [generate_buttons] again: what it collects and the draws
    it leaves depend on the database and its draws only. *)
Lemma choices_loop_result (d : Database) (pg : list nat) :
  words d ≠ [] →
  ∀ s : gset str,
    (size s ≤ 4)%nat →
    (4 ≤ size (s ∪ list_to_set (omap (pick_translation d) pg)))%nat →
    ∃ s' pg',
      size s' = 4%nat ∧ s ⊆ s'
      ∧ s' ⊆ s ∪ list_to_set (omap (pick_translation d) pg)
      ∧ ∀ fuel w,
          db w = d → pg_random w = pg → (length pg < fuel)%nat →
          while_fuel fuel (λ s : gset str, bool_decide (size s < 4)%nat)
            (λ s, ex ← BotDB.get_random_examples; mret (s ∪ {[ ex.1.2 ]}))
            s w
          = Ok s' (set_pg_random pg' w).
Proof.
  intros Hlex.
  set (body := λ s : gset str, BotDB.get_random_examples ≫= _).
  induction pg as [|r pg IH]; intros s Hle Hge.
  - simpl in Hge. rewrite (right_id_L ∅ (∪)) in Hge.
    exists s, []. split_and!; [lia|done|set_solver|].
    intros fuel w Hdb Hpg Hfuel.
    rewrite while_fuel_exit by (apply bool_decide_false; lia).
    by rewrite <- Hpg, set_pg_random_same.
  - destruct (decide (size s < 4)%nat) as [Hlt|Hlt].
    + destruct (lookup_lt_is_Some_2 (words d) (r mod length (words d))%nat)
        as [row Hrow].
      { apply Nat.mod_upper_bound. by destruct (words d). }
      assert (pick_translation d r = Some (translation row)) as Hpick
        by (unfold pick_translation; by rewrite Hrow).
      simpl in Hge. rewrite Hpick, list_to_set_cons in Hge.
      destruct (IH (s ∪ {[translation row]}))
        as (s' & pg' & Hsize & Hsub & Hsup & Hloop).
      { pose proof (size_add_one s (translation row)). lia. }
      { by rewrite <- (assoc_L (∪)). }
      exists s', pg'. split_and!; [done|set_solver| |].
      * simpl. rewrite Hpick, list_to_set_cons. set_solver.
      * intros [|fuel] w Hdb Hpg Hfuel; [simpl in Hfuel; lia|].
        rewrite while_fuel_step by (by apply bool_decide_true).
        destruct (get_random_examples_run w r pg Hpg)
          as (row' & Hrow' & Hrun); [by rewrite Hdb|].
        rewrite Hdb, Hrow in Hrow'. injection Hrow' as <-.
        assert (body s w = Ok (s ∪ {[translation row]}) (set_pg_random pg w))
          as -> by (unfold body, mbind, M_bind; by rewrite Hrun).
        rewrite (Hloop fuel (set_pg_random pg w)); [done..|].
        simpl in Hfuel. lia.
    + exists s, (r :: pg). split_and!; [lia|done|set_solver|].
      intros fuel w Hdb Hpg Hfuel.
      rewrite while_fuel_exit by (by apply bool_decide_false).
      by rewrite <- Hpg, set_pg_random_same.
Qed.

(** C9, as amended: when the answer and the translations that the
    database's draws bring make four distinct captions, and Python's
    generator has the three draws of the shuffle, [generate_buttons]
    returns a keyboard whose first four buttons are distinct, hold the
    answer it was given and otherwise translations of the lexicon; the
    three command buttons follow.  The four are the set the loop has
    collected, in the order [random.shuffle] leaves them in: for every
    arrangement of the four there are three draws with which that
    arrangement is returned. *)
Theorem generate_buttons_offers_four_choices
    (w : World) (english_word : str) :
  (4 ≤ size ({[english_word]} ∪
             list_to_set (omap (pick_translation (db w)) (pg_random w))
             : gset str))%nat →
  (3 ≤ length (py_random w))%nat →
  ∃ (others : gset str) (choices : list str) (pg' : list nat),
    generate_buttons english_word w
    = Ok {| row_width := 2;
            keyboard := choices ++
              [Command.NEXT; Command.ADD_WORD; Command.DELETE_WORD] |}
         (set_py_random (drop 3 (py_random w)) (set_pg_random pg' w))
    ∧ size others = 4%nat ∧ english_word ∈ others
    ∧ others ⊆ {[english_word]}
               ∪ list_to_set (translation <$> words (db w))
    ∧ choices ≡ₚ elements others
    ∧ length choices = 4%nat ∧ NoDup choices ∧ english_word ∈ choices
    ∧ Forall (λ c, c = english_word ∨ c ∈ translation <$> words (db w))
             choices
    ∧ ∀ target, target ≡ₚ choices →
        ∃ r3 r2 r1,
          generate_buttons english_word
            (set_py_random (r3 :: r2 :: r1 :: drop 3 (py_random w)) w)
          = Ok {| row_width := 2;
                  keyboard := target ++
                    [Command.NEXT; Command.ADD_WORD; Command.DELETE_WORD] |}
               (set_py_random (drop 3 (py_random w)) (set_pg_random pg' w)).
Proof.
  intros Hdraws Hpy.
  assert (words (db w) ≠ []) as Hlex.
  { intros Hnil. rewrite (no_pick_in_empty_lexicon _ _ Hnil) in Hdraws.
    replace ({[english_word]} ∪ list_to_set [] : gset str)
      with ({[english_word]} : gset str) in Hdraws by set_solver.
    pose proof (size_singleton (C:=gset str) english_word). lia. }
  destruct (choices_loop_result (db w) (pg_random w) Hlex {[english_word]})
    as (s' & pg' & Hsize & Hsub & Hsup & Hloop);
    [rewrite size_singleton; lia|done|].
  assert (length (elements s') = 4%nat) as Hlen by exact Hsize.
  destruct (shuffle_from_run (length (elements s') - 1) (elements s')
              (set_pg_random pg' w)) as (choices & Hshuffle & Hperm).
  { rewrite Hlen. simpl. lia. }
  rewrite Hlen in Hshuffle. simpl in Hshuffle.
  assert (s' ⊆ {[english_word]}
               ∪ list_to_set (translation <$> words (db w))) as Hsup'.
  { intros c Hc. apply Hsup in Hc.
    apply elem_of_union in Hc as [Hc|Hc]; [set_solver|].
    apply elem_of_union_r, elem_of_list_to_set.
    apply elem_of_list_to_set, list_elem_of_omap in Hc as (r & _ & Hr).
    by eapply pick_translation_in_lexicon. }
  exists s', choices, pg'. split_and!.
  - unfold generate_buttons, mbind at 1, M_bind at 1, while.
    rewrite (Hloop _ w) by (done || unfold draws_left; lia).
    unfold mbind, M_bind, shuffle. rewrite Hlen. simpl.
    by rewrite Hshuffle.
  - done.
  - set_solver.
  - done.
  - done.
  - by rewrite Hperm.
  - rewrite Hperm. apply NoDup_elements.
  - rewrite Hperm. apply elem_of_elements. set_solver.
  - apply Forall_forall. intros c Hc. rewrite Hperm in Hc.
    apply elem_of_elements, Hsup' in Hc.
    apply elem_of_union in Hc as [Hc|Hc]; [left; set_solver|right].
    by apply elem_of_list_to_set in Hc.
  - intros target Htarget.
    destruct (shuffle_reaches (elements s') target) as (draws & Hn & Hrun).
    { apply NoDup_elements. }
    { by rewrite Htarget, Hperm. }
    rewrite Hlen in Hn.
    destruct draws as [|r3 [|r2 [|r1 [|? ?]]]]; try done.
    exists r3, r2, r1.
    set (w2 := set_py_random _ w).
    unfold generate_buttons, mbind at 1, M_bind at 1, while.
    rewrite (Hloop _ w2) by (done || unfold draws_left; simpl; lia).
    unfold mbind, M_bind.
    by rewrite (Hrun (set_pg_random pg' w2) (drop 3 (py_random w))).
Qed.

(** Over 40 words, the database drawing the rows 1, 8, 8, 22, ... *)
Lemma generate_buttons_offers_four_choices_witness :
  ∃ (others : gset str) (choices : list str) (pg' : list nat),
    generate_buttons (translation (numbered_word 1))
      (process_start (fresh_db 40) [5; 1; 0]%nat [0; 7; 7; 21; 30; 2]%nat)
    = Ok {| row_width := 2;
            keyboard := choices ++
              [Command.NEXT; Command.ADD_WORD; Command.DELETE_WORD] |}
         (set_py_random []
            (set_pg_random pg'
               (process_start (fresh_db 40) [5; 1; 0]%nat
                  [0; 7; 7; 21; 30; 2]%nat)))
    ∧ size others = 4%nat ∧ translation (numbered_word 1) ∈ others
    ∧ others ⊆ {[translation (numbered_word 1)]}
               ∪ list_to_set (translation <$> words (fresh_db 40))
    ∧ choices ≡ₚ elements others
    ∧ length choices = 4%nat ∧ NoDup choices
    ∧ translation (numbered_word 1) ∈ choices
    ∧ Forall (λ c, c = translation (numbered_word 1)
                   ∨ c ∈ translation <$> words (fresh_db 40)) choices
    ∧ ∀ target, target ≡ₚ choices →
        ∃ r3 r2 r1,
          generate_buttons (translation (numbered_word 1))
            (set_py_random [r3; r2; r1]
               (process_start (fresh_db 40) [5; 1; 0]%nat
                  [0; 7; 7; 21; 30; 2]%nat))
          = Ok {| row_width := 2;
                  keyboard := target ++
                    [Command.NEXT; Command.ADD_WORD; Command.DELETE_WORD] |}
               (set_py_random []
                  (set_pg_random pg'
                     (process_start (fresh_db 40) [5; 1; 0]%nat
                        [0; 7; 7; 21; 30; 2]%nat))).
Proof.
  apply (generate_buttons_offers_four_choices
           (process_start (fresh_db 40) [5; 1; 0]%nat [0; 7; 7; 21; 30; 2]%nat)
           (translation (numbered_word 1))); by_computation.
Defined.

(** The order of the choices follows the draws. *)
Example generate_buttons_order_follows_the_draws :
  (λ o, match o with Ok m _ => take 4 (keyboard m) | _ => [] end)
    (generate_buttons (translation (numbered_word 1))
       (process_start (fresh_db 40) [5; 1; 0]%nat [7; 21; 30]%nat))
  ≠ (λ o, match o with Ok m _ => take 4 (keyboard m) | _ => [] end)
      (generate_buttons (translation (numbered_word 1))
         (process_start (fresh_db 40) [0; 2; 1]%nat [7; 21; 30]%nat)).
Proof. vm_compute. discriminate. Qed.

(** ** Subscriptions *)

Lemma reminders_to_each (l : list Z) : ∀ w,
  for_each l (λ user_id, Notification.send_message user_id Reminder) w
  = Ok tt (set_sent (sent w ++ ((λ c, (c, Reminder)) <$> l)) w).
Proof.
  induction l as [|c l IH]; intros w; simpl.
  - unfold mret, M_ret. rewrite app_nil_r. by destruct w.
  - unfold mbind, M_bind, Notification.send_message at 1.
    rewrite IH. simpl. by rewrite <- app_assoc.
Qed.

Lemma job_run (self : Notification.Instance) (w : World) (d : dict) :
  store w !! Notification.self_subscribers self = Some d →
  Notification.job self w
  = Ok tt (set_sent (sent w ++ ((λ c, (c, Reminder)) <$> d.*1)) w).
Proof.
  intros Hd. unfold Notification.job, mbind, M_bind, Notification.load.
  rewrite Hd. simpl. apply reminders_to_each.
Qed.

Lemma keys_after_del (k : Z) (d : dict) :
  (filter (λ kv, kv.1 ≠ k) d).*1 = filter (λ x, x ≠ k) d.*1.
Proof.
  induction d as [|[k' v] d IH]; [done|].
  rewrite fmap_cons, !filter_cons. cbn [fst].
  destruct (decide (k' ≠ k)); [rewrite fmap_cons; cbn [fst]|];
    by rewrite IH.
Qed.

(** One command, on the class-level dict. *)
Lemma handle_event_run (e : Event) (w : World) (d : dict) :
  store w !! Notification.subscribers = Some d →
  NoDup d.*1 →
  ∃ w' d',
    handle_event e w = Ok tt w'
    ∧ store w' !! Notification.subscribers = Some d'
    ∧ NoDup d'.*1
    ∧ list_to_set d'.*1 =@{gset Z} subscription_step (list_to_set d.*1) e.
Proof.
  intros Hd Hnd. destruct e as [chat|chat]; simpl.
  - unfold handle_subscribe, Notification.start, mbind, M_bind,
      Notification.load, Notification.setitem, Notification.send_message.
    change (Notification.self_subscribers notification)
      with Notification.subscribers.
    rewrite Hd. simpl.
    destruct (decide (chat ∉ d.*1)) as [Hnew|Hold].
    + simpl. rewrite Hd. simpl. rewrite decide_False by done.
      eexists _, (d ++ [(chat, true)]). split; [done|]. simpl.
      rewrite lookup_insert_eq. split; [done|].
      rewrite fmap_app. simpl. split.
      * apply NoDup_app. split_and!; [done| |apply NoDup_singleton].
        intros x Hx ->%list_elem_of_singleton. done.
      * rewrite list_to_set_app_L. simpl. set_solver.
    + eexists _, d. split; [done|]. simpl. split_and!; [done..|].
      apply dec_stable in Hold. set_solver.
  - unfold handle_unsubscribe, Notification.stop, mbind, M_bind,
      Notification.load, Notification.delitem, Notification.send_message.
    change (Notification.self_subscribers notification)
      with Notification.subscribers.
    rewrite Hd. simpl.
    destruct (decide (chat ∈ d.*1)) as [Hold|Hnew].
    + simpl. rewrite Hd. simpl. rewrite decide_True by done.
      eexists _, (filter (λ kv, kv.1 ≠ chat) d). split; [done|].
      cbn [store set_sent set_store].
      rewrite lookup_insert_eq. split; [done|].
      rewrite keys_after_del.
      split; [by apply NoDup_filter|].
      apply set_eq. intros x.
      rewrite elem_of_list_to_set, list_elem_of_filter. set_solver.
    + eexists _, d. split; [done|]. simpl. split_and!; [done..|].
      set_solver.
Qed.

Lemma handle_events_run (events : list Event) : ∀ (w : World) (d : dict),
  store w !! Notification.subscribers = Some d →
  NoDup d.*1 →
  ∃ w' d',
    for_each events handle_event w = Ok tt w'
    ∧ store w' !! Notification.subscribers = Some d'
    ∧ NoDup d'.*1
    ∧ list_to_set d'.*1
      =@{gset Z} foldl subscription_step (list_to_set d.*1) events.
Proof.
  induction events as [|e events IH]; intros w d Hd Hnd; simpl.
  - by exists w, d.
  - destruct (handle_event_run e w d Hd Hnd) as (w1 & d1 & Hrun & Hd1 & Hnd1 & Hset).
    destruct (IH w1 d1 Hd1 Hnd1) as (w' & d' & Hrun' & Hd' & Hnd' & Hset').
    exists w', d'. unfold mbind, M_bind. rewrite Hrun.
    split_and!; [done..|]. by rewrite Hset', Hset.
Qed.

(** C10: every instance reads the dict of the class, and the handlers'
    instance and the scheduler's are two of them; the dict is empty when the
    process starts, so a reminder then goes to nobody; and after any run of
    subscription commands through the handlers' instance, the job of the
    scheduler's instance sends one reminder to each member of the
    subscription set, and to nobody else. *)
Theorem subscribers_are_shared_by_the_instances
    (d : Database) (py pg : list nat) (events : list Event) :
  (∀ i, Notification.self_subscribers (Notification.new i)
        = Notification.subscribers)
  ∧ Notification.ident notification
    ≠ Notification.ident reminders_notification
  ∧ store (process_start d py pg)
      !! Notification.self_subscribers reminders_notification = Some []
  ∧ daily_reminder (process_start d py pg) = Ok tt (process_start d py pg)
  ∧ ∃ w recipients,
      for_each events handle_event (process_start d py pg) = Ok tt w
      ∧ NoDup recipients
      ∧ list_to_set recipients = subscription_set events
      ∧ daily_reminder w
        = Ok tt (set_sent (sent w ++ ((λ c, (c, Reminder)) <$> recipients)) w).
Proof.
  split_and!; [done..|].
  destruct (handle_events_run events (process_start d py pg) [])
    as (w & dict' & Hrun & Hd & Hnd & Hset); [done|constructor|].
  exists w, dict'.*1. split_and!; [done..|].
  by apply job_run.
Qed.

(** For instance: 5 and 8 subscribe, 5 again, then 5 unsubscribes. *)
Example reminders_after_four_commands :
  (for_each [Subscribe 5; Subscribe 8; Subscribe 5; Unsubscribe 5]
     handle_event;; daily_reminder) (process_start (fresh_db 40) [] [])
  = Ok tt (set_store {[ Notification.subscribers := [(8, true)] ]}
             (set_sent [(5, Subscribed); (8, Subscribed);
                        (5, AlreadySubscribed); (5, Unsubscribed);
                        (8, Reminder)]
                (process_start (fresh_db 40) [] []))).
Proof. vm_compute. reflexivity. Qed.

(** ** Counting and re-registration *)

Lemma filter_split_length {A} (P Q Q' : A → Prop)
    `{∀ x, Decision (P x)} `{∀ x, Decision (Q x)} `{∀ x, Decision (Q' x)}
    (l : list A) :
  (∀ x, P x → (Q x ↔ ¬ Q' x)) →
  (length (filter (λ x, P x ∧ Q x) l) + length (filter (λ x, P x ∧ Q' x) l)
   = length (filter P l))%nat.
Proof.
  intros HQ. induction l as [|x l IH]; [done|].
  rewrite !filter_cons.
  destruct (decide (P x)) as [HP|HP].
  - specialize (HQ x HP).
    destruct (decide (P x ∧ Q x)), (decide (P x ∧ Q' x)); simpl; try lia; tauto.
  - destruct (decide (P x ∧ Q x)), (decide (P x ∧ Q' x)); simpl; try lia; tauto.
Qed.

(** C7: in every state of the store, the words of a user still to learn
    and those already learnt add up to the words assigned to the user. *)
Theorem pending_and_learnt_add_up (w : World) (user_id : Z) :
  ∃ pending learnt ids,
    BotDB.count_words_to_learn user_id w = Ok pending w
    ∧ BotDB.count_words_already_learnt user_id w = Ok learnt w
    ∧ BotDB.all_words_ids user_id w = Ok ids w
    ∧ (pending + learnt = length ids)%nat.
Proof.
  eexists _, _, _. split_and!; [reflexivity..|].
  unfold select_word_ids_of_user. rewrite !length_fmap.
  apply (filter_split_length (λ p, pr_user_id p = user_id)
           (λ p, learn_counter p < 5) (λ p, learn_counter p >= 5)).
  intros; lia.
Qed.

Lemma insert_each_users (user_id : Z) (ids : list Z) : ∀ w w',
  for_each ids (λ id, execute (insert_words_to_users id user_id 0)) w
  = Ok tt w' →
  users (db w') = users (db w).
Proof.
  induction ids as [|id ids IH]; intros w w'; simpl.
  - by intros [= <-].
  - unfold mbind, M_bind, execute at 1, insert_words_to_users at 1.
    repeat case_decide; try done.
    intros Hrest. by apply IH in Hrest.
Qed.

Lemma register_user_registers (user_id : Z) (w w' : World) :
  BotDB.register_user user_id w = Ok tt w' → user_id ∈ users (db w').
Proof.
  unfold BotDB.register_user, BotDB.all_users_list, query.
  unfold mbind, M_bind. simpl.
  destruct (decide (user_id ∉ users (db w))) as [Hnew|Hold].
  - unfold mbind, M_bind, execute at 1.
    destruct (insert_users user_id (db w)) as [d|e] eqn:Hins; [|done].
    rewrite generate_10_words_run.
    destruct (sample 10 [] _) as [[ids t]|]; [|done].
    destruct (for_each ids _ _) as [[] w1| |] eqn:Hfor; try done.
    intros [= <-]. apply insert_each_users in Hfor. rewrite Hfor. simpl.
    unfold insert_users in Hins. repeat case_decide; try done.
    injection Hins as <-. simpl. set_solver.
  - intros [= <-]. by apply dec_stable.
Qed.

(** C8: registering a user who is in the user table changes nothing, so a
    second registration leaves the words and counters of the first. *)
Theorem register_user_is_idempotent (w : World) (user_id : Z) :
  (user_id ∈ users (db w) → BotDB.register_user user_id w = Ok tt w)
  ∧ (∀ w', BotDB.register_user user_id w = Ok tt w' →
           BotDB.register_user user_id w' = Ok tt w').
Proof.
  assert (∀ w0, user_id ∈ users (db w0) →
                BotDB.register_user user_id w0 = Ok tt w0) as Hnoop.
  { intros w0 Hin.
    unfold BotDB.register_user, BotDB.all_users_list, query.
    unfold mbind, M_bind. simpl. by rewrite decide_False by (by intros ?). }
  split; [apply Hnoop|].
  intros w' Hreg. by apply Hnoop, (register_user_registers user_id w).
Qed.

(** User 7, already registered; and user 7 registering twice. *)
Lemma register_user_is_idempotent_witness :
  BotDB.register_user 7 (process_start (db_with_user 40 10) [3; 12]%nat [])
  = Ok tt (process_start (db_with_user 40 10) [3; 12]%nat [])
  ∧ ∃ w', BotDB.register_user 7 (process_start (fresh_db 40) (seq 0 10) [])
          = Ok tt w'
          ∧ BotDB.register_user 7 w' = Ok tt w'.
Proof.
  split.
  - apply (proj1 (register_user_is_idempotent
                    (process_start (db_with_user 40 10) [3; 12]%nat []) 7)).
    by_computation.
  - eexists. split; [vm_compute; reflexivity|].
    apply (proj2 (register_user_is_idempotent
                    (process_start (fresh_db 40) (seq 0 10) []) 7)).
    vm_compute. reflexivity.
Defined.

(** * Further properties of the code *)

(** ** Resetting a user *)

Lemma drop_progress_eval (user_id : Z) (w : World) :
  BotDB.drop_progress user_id w
  = Ok tt (set_db {| words := words (db w);
                     users := filter (λ u, u ≠ user_id) (users (db w));
                     words_to_users :=
                       filter (λ p, pr_user_id p ≠ user_id)
                              (words_to_users (db w)) |} w).
Proof.
  unfold BotDB.drop_progress, mbind, M_bind, execute, commit, mret, M_ret.
  cbv beta iota. simpl db. unfold delete_users.
  rewrite decide_False; [done|].
  rewrite Exists_exists. intros (p & Hp & Hu). simpl in Hp.
  by apply list_elem_of_filter in Hp as [? _].
Qed.

Lemma filter_filter_other {A} (P Q : A → Prop)
    `{∀ x, Decision (P x)} `{∀ x, Decision (Q x)} (l : list A) :
  (∀ x, P x → Q x) → filter P (filter Q l) = filter P l.
Proof.
  intros HPQ. induction l as [|x l IH]; [done|].
  rewrite (filter_cons Q). destruct (decide (Q x)) as [HQ|HQ].
  - rewrite !filter_cons. case_decide; by rewrite IH.
  - rewrite IH, (filter_cons P). rewrite decide_False; [done|].
    intros HP. by apply HQ, HPQ.
Qed.

(** X1: [BotDB.drop_progress] always returns: it deletes the rows of the user
    before the user, so the foreign key never stands in the way.  The user
    and the user's rows are gone, every other user and every other row
    stays, and the lexicon is as it was. *)
Theorem drop_progress_removes_only_the_user (w : World) (user_id : Z) :
  ∃ w',
    BotDB.drop_progress user_id w = Ok tt w'
    ∧ (user_id ∉ users (db w'))
    ∧ BotDB.all_words_ids user_id w' = Ok [] w'
    ∧ words (db w') = words (db w)
    ∧ ∀ other, other ≠ user_id →
        (other ∈ users (db w') ↔ other ∈ users (db w))
        ∧ filter (λ p, pr_user_id p = other) (words_to_users (db w'))
          = filter (λ p, pr_user_id p = other) (words_to_users (db w)).
Proof.
  eexists. split; [apply drop_progress_eval|]. simpl. split_and!.
  - intros [? _]%list_elem_of_filter. done.
  - unfold BotDB.all_words_ids, query, select_word_ids_of_user. simpl.
    rewrite filter_none; [done|]. apply Forall_forall.
    by intros p [? _]%list_elem_of_filter.
  - done.
  - intros other Hother. split.
    + rewrite list_elem_of_filter. naive_solver.
    + apply filter_filter_other. intros p ->. done.
Qed.

(** Registration of a new user, with the words the draws select. *)
Lemma register_new_user_run (w : World) (user_id : Z) (ids : list Z)
    (tape' : list nat) :
  user_id ∉ users (db w) →
  int4 user_id →
  Forall (λ p, pr_user_id p ∈ users (db w)) (words_to_users (db w)) →
  seqZ 1 40 ⊆ word_id <$> words (db w) →
  sample 10 [] (py_random w) = Some (ids, tape') →
  BotDB.register_user user_id w
  = Ok tt (set_db (with_rows (new_row user_id <$> ids)
                     {| words := words (db w);
                        users := users (db w) ++ [user_id];
                        words_to_users := words_to_users (db w) |})
             (set_py_random tape' w)).
Proof.
  intros Hnew Hu4 Hfk Hlex Hs.
  pose proof Hs as (new & Hids & _ & Hnd & Hrange)%sample_Some;
    [|constructor].
  simpl in Hids. subst new.
  unfold BotDB.register_user, BotDB.all_users_list, query.
  unfold mbind, M_bind. simpl.
  rewrite decide_True by done.
  unfold mbind, M_bind, execute at 1, insert_users.
  rewrite decide_True by done. rewrite decide_False by done.
  rewrite generate_10_words_run.
  change (py_random (set_db _ w)) with (py_random w). rewrite Hs.
  rewrite insert_each; simpl; try done.
  - set_solver.
  - apply Forall_forall. intros id Hid.
    rewrite Forall_forall in Hrange. specialize (Hrange id Hid).
    split_and!; [unfold int4; lia|apply Hlex, elem_of_seqZ; lia|].
    rewrite Exists_exists. intros (p & Hp & _ & Hpu).
    rewrite Forall_forall in Hfk. specialize (Hfk p Hp).
    by rewrite Hpu in Hfk.
Qed.

Lemma enough_draws_sample (tape : list nat) :
  (10 ≤ size (list_to_set (randint_of 1 40 <$> tape) : gset Z))%nat →
  ∃ ids tape', sample 10 [] tape = Some (ids, tape')
               ∧ length ids = 10%nat ∧ NoDup ids.
Proof.
  intros Hdraws.
  destruct (sample_enough tape 10 []) as [[ids t] Hs].
  { simpl. by replace (list_to_set (randint_of 1 40 <$> tape) ∖ ∅ : gset Z)
      with (list_to_set (randint_of 1 40 <$> tape) : gset Z) by set_solver. }
  exists ids, t. split; [done|].
  apply sample_Some in Hs as (new & -> & Hlen & Hnd & _); [|constructor].
  done.
Qed.

(** ** The reset dialogue ([drop_progress] of [main.py]) *)

(** X2: Unless the text, in lower case, is 'да', the reset dialogue leaves the
    database and the generators as they are; it hands the conversation to
    [start_message], or greets at once when the message has no text. *)
Theorem drop_progress_needs_a_yes (w : World) (message : Message) :
  lower (text_of message) ≠ lit_da →
  ∃ w',
    drop_progress message w = Ok tt w'
    ∧ db w' = db w ∧ py_random w' = py_random w ∧ pg_random w' = pg_random w
    ∧ sent w' = sent w ++
        (if truthy (text message) then
           if decide (lower (text_of message) = lit_net)
           then [(chat_id message, BackToMainMenu)] else []
         else [(chat_id message, NotUnderstood);
               (chat_id message, WelcomeSticker);
               (chat_id message, Welcome)])
    ∧ next_step w' = next_step w ++
        (if truthy (text message) then [(chat_id message, to_start_message)]
         else []).
Proof.
  intros Hno. unfold drop_progress.
  destruct (truthy (text message)).
  - rewrite decide_False by done.
    destruct (decide (lower (text_of message) = lit_net)).
    + eexists. split; [reflexivity|]. simpl. split_and!; done.
    + eexists. split; [reflexivity|]. simpl. rewrite app_nil_r.
      split_and!; done.
  - eexists. split; [reflexivity|]. simpl. rewrite app_nil_r.
    rewrite <- !app_assoc. split_and!; done.
Qed.

Lemma drop_progress_on_yes_run (w : World) (message : Message) :
  let user_id := from_user_id message in
  lower (text_of message) = lit_da →
  int4 user_id →
  Forall (λ p, pr_user_id p ∈ users (db w)) (words_to_users (db w)) →
  seqZ 1 40 ⊆ word_id <$> words (db w) →
  (10 ≤ size (list_to_set (randint_of 1 40 <$> py_random w) : gset Z))%nat →
  ∃ w' ids,
    drop_progress message w = Ok tt w'
    ∧ user_id ∈ users (db w')
    ∧ BotDB.all_words_ids user_id w' = Ok ids w'
    ∧ length ids = 10%nat ∧ NoDup ids
    ∧ Forall (λ p, pr_user_id p = user_id → learn_counter p = 0)
             (words_to_users (db w'))
    ∧ (∀ other, other ≠ user_id →
         filter (λ p, pr_user_id p = other) (words_to_users (db w'))
         = filter (λ p, pr_user_id p = other) (words_to_users (db w)))
    ∧ sent w' = sent w ++ [(chat_id message, ProgressDropped)]
    ∧ next_step w' = next_step w ++ [(chat_id message, to_start_message)].
Proof.
  intros user_id Hyes Hu4 Hfk Hlex Hdraws.
  destruct (enough_draws_sample _ Hdraws) as (ids & t & Hs & Hlen & Hnd).
  assert (truthy (text message) = true) as Htruthy.
  { unfold text_of in Hyes. by destruct (text message) as [[|? ?]|]. }
  set (w1 := set_db {| words := words (db w);
                       users := filter (λ u, u ≠ user_id) (users (db w));
                       words_to_users :=
                         filter (λ p, pr_user_id p ≠ user_id)
                                (words_to_users (db w)) |} w).
  assert (BotDB.register_user user_id w1
          = Ok tt (set_db (with_rows (new_row user_id <$> ids)
                     {| words := words (db w1);
                        users := users (db w1) ++ [user_id];
                        words_to_users := words_to_users (db w1) |})
                     (set_py_random t w1))) as Hreg.
  { apply register_new_user_run; simpl; try done.
    - intros [? _]%list_elem_of_filter. done.
    - apply Forall_forall. intros p [Hp Hin]%list_elem_of_filter.
      apply list_elem_of_filter. split; [done|].
      rewrite Forall_forall in Hfk. by apply Hfk. }
  eexists _, ids. split.
  { unfold drop_progress. rewrite Htruthy, decide_True by done.
    unfold mbind at 1, M_bind at 1, mbind at 1, M_bind at 1.
    fold user_id. rewrite drop_progress_eval. fold w1.
    unfold mbind at 1, M_bind at 1. rewrite Hreg. reflexivity. }
  simpl. split_and!; try done.
  - set_solver.
  - unfold BotDB.all_words_ids, query, select_word_ids_of_user. simpl.
    f_equal. rewrite filter_app, filter_new_rows, filter_none.
    + simpl. rewrite <- list_fmap_compose.
      clear. induction ids as [|i ids IH]; [done|]. simpl. by f_equal.
    + apply Forall_forall. by intros p [? _]%list_elem_of_filter.
  - apply Forall_app. split.
    + apply Forall_forall. by intros p [? _]%list_elem_of_filter.
    + apply Forall_forall. intros p (i & -> & _)%list_elem_of_fmap. done.
  - intros other Hother. rewrite filter_app.
    rewrite (filter_none _ (new_row user_id <$> ids)).
    + rewrite app_nil_r. apply filter_filter_other. by intros p ->.
    + apply Forall_forall. intros p (i & -> & _)%list_elem_of_fmap. simpl.
      done.
Qed.

(** X3: a 'да' in any letter case resets the sender.  For a sender whose
    id fits the INTEGER column, with every progress row that of a
    registered user, over a lexicon that holds the ids 1..40 and once the
    generator yields 10 distinct values: whatever the sender held before,
    the sender then holds 10 distinct words, each at counter 0, and the
    other users' rows are untouched.  For a sender whose id does not fit,
    the reset is carried out and the registration that follows it raises:
    nothing is sent. *)
Theorem drop_progress_on_yes_starts_afresh (w : World) (message : Message) :
  let user_id := from_user_id message in
  lower (text_of message) = lit_da →
  (int4 user_id →
   Forall (λ p, pr_user_id p ∈ users (db w)) (words_to_users (db w)) →
   seqZ 1 40 ⊆ word_id <$> words (db w) →
   (10 ≤ size (list_to_set (randint_of 1 40 <$> py_random w) : gset Z))%nat →
   ∃ w' ids,
     drop_progress message w = Ok tt w'
     ∧ user_id ∈ users (db w')
     ∧ BotDB.all_words_ids user_id w' = Ok ids w'
     ∧ length ids = 10%nat ∧ NoDup ids
     ∧ Forall (λ p, pr_user_id p = user_id → learn_counter p = 0)
              (words_to_users (db w'))
     ∧ (∀ other, other ≠ user_id →
          filter (λ p, pr_user_id p = other) (words_to_users (db w'))
          = filter (λ p, pr_user_id p = other) (words_to_users (db w)))
     ∧ sent w' = sent w ++ [(chat_id message, ProgressDropped)]
     ∧ next_step w' = next_step w ++ [(chat_id message, to_start_message)])
  ∧ (¬ int4 user_id →
     ∃ w',
       BotDB.drop_progress user_id w = Ok tt w'
       ∧ drop_progress message w = Raise NumericValueOutOfRange w').
Proof.
  intros user_id Hyes. split.
  - intros Hu4 Hfk Hlex Hdraws. by apply drop_progress_on_yes_run.
  - intros Hbig.
    assert (truthy (text message) = true) as Htruthy.
    { unfold text_of in Hyes. by destruct (text message) as [[|? ?]|]. }
    eexists. split; [apply drop_progress_eval|].
    unfold drop_progress. rewrite Htruthy, decide_True by done.
    unfold mbind at 1, M_bind at 1, mbind at 1, M_bind at 1.
    fold user_id. rewrite drop_progress_eval.
    unfold mbind at 1, M_bind at 1.
    unfold BotDB.register_user, BotDB.all_users_list, query.
    unfold mbind, M_bind. simpl.
    rewrite decide_True by (by intros [? _]%list_elem_of_filter).
    unfold execute, insert_users. simpl.
    by rewrite decide_False.
Qed.

(** Witnesses: a 'нет'; a 'ДА' of a user who holds 'Apple' at 3; and a
    'ДА' of a sender whose id is 5000000000. *)
Lemma drop_progress_needs_a_yes_witness :
  ∃ w',
    drop_progress (message_of lit_net) (asked_for_apple 3 [] []) = Ok tt w'
    ∧ db w' = apple_db 3 ∧ py_random w' = [] ∧ pg_random w' = []
    ∧ sent w' = [(7, BackToMainMenu)]
    ∧ next_step w' = [(7, to_start_message)].
Proof.
  apply (drop_progress_needs_a_yes (asked_for_apple 3 [] [])
           (message_of lit_net)).
  by_computation.
Defined.

Lemma drop_progress_on_yes_starts_afresh_witness :
  (∃ w' ids,
     drop_progress (message_of [1044; 1040]%N)
       (asked_for_apple 3 (seq 20 10) [])
     = Ok tt w'
     ∧ 7 ∈ users (db w')
     ∧ BotDB.all_words_ids 7 w' = Ok ids w'
     ∧ length ids = 10%nat ∧ NoDup ids
     ∧ Forall (λ p, pr_user_id p = 7 → learn_counter p = 0)
              (words_to_users (db w'))
     ∧ (∀ other, other ≠ 7 →
          filter (λ p, pr_user_id p = other) (words_to_users (db w'))
          = filter (λ p, pr_user_id p = other)
                   (words_to_users (apple_db 3)))
     ∧ sent w' = [(7, ProgressDropped)]
     ∧ next_step w' = [(7, to_start_message)])
  ∧ (∃ w',
       BotDB.drop_progress 5000000000 (asked_for_apple 3 [] []) = Ok tt w'
       ∧ drop_progress {| from_user_id := 5000000000; chat_id := 5000000000;
                          text := Some [1044; 1040]%N |}
           (asked_for_apple 3 [] [])
         = Raise NumericValueOutOfRange w').
Proof.
  split.
  - apply (proj1 (drop_progress_on_yes_starts_afresh
                    (asked_for_apple 3 (seq 20 10) [])
                    (message_of [1044; 1040]%N) eq_refl));
      by_computation.
  - apply (proj2 (drop_progress_on_yes_starts_afresh
                    (asked_for_apple 3 [] [])
                    {| from_user_id := 5000000000; chat_id := 5000000000;
                       text := Some [1044; 1040]%N |} eq_refl)).
    by_computation.
Defined.

(** ** Choosing the next word ([get_random_word]) *)

Lemma elem_of_words_to_learn (user_id : Z) (d : Database)
    (x : str * str * option str) :
  x ∈ select_words_to_learn user_id d ↔
  ∃ r p, r ∈ words d ∧ p ∈ words_to_users d
         ∧ pr_word_id p = word_id r ∧ pr_user_id p = user_id
         ∧ learn_counter p < 5
         ∧ x = (word r, translation r, definition r).
Proof.
  unfold select_words_to_learn. rewrite list_elem_of_bind. split.
  - intros (r & Hx & Hr). apply list_elem_of_bind in Hx as (p & Hx & Hp).
    apply list_elem_of_singleton in Hx.
    apply list_elem_of_filter in Hp as [(? & ? & ?) ?]. by exists r, p.
  - intros (r & p & Hr & Hp & ? & ? & ? & ->). exists r. split; [|done].
    apply list_elem_of_bind. exists p. split; [by apply list_elem_of_singleton|].
    by apply list_elem_of_filter.
Qed.

Lemma get_random_word_cases (w : World) (user_id : Z) :
  match BotDB.get_random_word user_id w with
  | Ok x w' =>
      x ∈ select_words_to_learn user_id (db w)
      ∧ ∃ r, pg_random w = r :: pg_random w'
             ∧ w' = set_pg_random (pg_random w') w
             ∧ select_words_to_learn user_id (db w)
                 !! (r mod length (select_words_to_learn user_id (db w)))%nat
               = Some x
  | Raise e w' =>
      e = TypeError ∧ w' = w ∧ select_words_to_learn user_id (db w) = []
  | Pending =>
      pg_random w = [] ∧ select_words_to_learn user_id (db w) ≠ []
  end.
Proof.
  unfold BotDB.get_random_word, query, mbind, M_bind. cbv beta iota.
  destruct (select_words_to_learn user_id (db w)) as [|x0 rows] eqn:Hrows.
  - done.
  - unfold order_by_random.
    destruct (pg_random w) as [|r rest] eqn:Hpg; [done|].
    destruct (lookup_lt_is_Some_2 (x0 :: rows) (r mod length (x0 :: rows))%nat)
      as [x Hx]; [by apply Nat.mod_upper_bound|].
    rewrite Hx. simpl. split; [by eapply list_elem_of_lookup_2|].
    by exists r.
Qed.

(** X4: [get_random_word] yields a word that the user holds with a counter
    below 5, and uses one draw of the database; when the user holds no such
    word it raises TypeError, the row being None. *)
Theorem get_random_word_is_pending (w : World) (user_id : Z) :
  match BotDB.get_random_word user_id w with
  | Ok x w' =>
      (∃ r p, r ∈ words (db w) ∧ p ∈ words_to_users (db w)
              ∧ pr_word_id p = word_id r ∧ pr_user_id p = user_id
              ∧ learn_counter p < 5
              ∧ x = (word r, translation r, definition r))
      ∧ ∃ r, pg_random w = r :: pg_random w'
             ∧ w' = set_pg_random (pg_random w') w
  | Raise e w' =>
      e = TypeError ∧ w' = w
      ∧ Forall (λ p, ¬ (pr_user_id p = user_id ∧ learn_counter p < 5
                        ∧ pr_word_id p ∈ word_id <$> words (db w)))
               (words_to_users (db w))
  | Pending => pg_random w = []
  end.
Proof.
  pose proof (get_random_word_cases w user_id) as Hcases.
  destruct (BotDB.get_random_word user_id w) as [x w'|e w'|].
  - destruct Hcases as [Hx (r & Hpg & Hw & _)]. split; [|by exists r].
    by apply elem_of_words_to_learn.
  - destruct Hcases as (-> & -> & Hnone). split_and!; [done..|].
    apply Forall_forall. intros p Hp (Hu & Hc & Hw).
    apply list_elem_of_fmap in Hw as (r & Hr & Hin).
    assert ((word r, translation r, definition r)
            ∈ select_words_to_learn user_id (db w)) as Hx.
    { apply elem_of_words_to_learn. exists r, p. split_and!; done. }
    rewrite Hnone in Hx. by apply not_elem_of_nil in Hx.
  - by destruct Hcases.
Qed.

(** X5: Under the foreign key to the lexicon, the guard of
    [start_word_learning_session] is enough: when [count_words_to_learn] is
    not 0 and the database has a draw, [get_random_word] returns. *)
Theorem get_random_word_after_the_guard (w : World) (user_id : Z) (n : nat) :
  Forall (λ p, pr_word_id p ∈ word_id <$> words (db w))
         (words_to_users (db w)) →
  BotDB.count_words_to_learn user_id w = Ok n w →
  n ≠ 0%nat →
  pg_random w ≠ [] →
  ∃ x w', BotDB.get_random_word user_id w = Ok x w'.
Proof.
  intros Hfk Hcount Hn Hpg.
  pose proof (get_random_word_cases w user_id) as Hspec.
  destruct (BotDB.get_random_word user_id w) as [x w'|e w'|]; [by eauto|..].
  - exfalso. destruct Hspec as (_ & _ & Hnone).
    unfold BotDB.count_words_to_learn, query, mbind, M_bind in Hcount.
    injection Hcount as Hlen. rewrite length_fmap in Hlen.
    destruct (filter _ (words_to_users (db w))) as [|p ps] eqn:Hf;
      [simpl in Hlen; lia|].
    assert (p ∈ filter (λ p, pr_user_id p = user_id ∧ learn_counter p < 5)
                       (words_to_users (db w))) as Hp
      by (rewrite Hf; left).
    apply list_elem_of_filter in Hp as [[Hu Hc] Hp].
    rewrite Forall_forall in Hfk.
    destruct (proj1 (list_elem_of_fmap _ _ _) (Hfk p Hp)) as (r & Hr & Hin).
    assert ((word r, translation r, definition r)
            ∈ select_words_to_learn user_id (db w)) as Hx.
    { apply elem_of_words_to_learn. exists r, p. split_and!; done. }
    rewrite Hnone in Hx. by apply not_elem_of_nil in Hx.
  - by destruct Hspec.
Qed.

Lemma get_random_word_after_the_guard_witness :
  ∃ x w', BotDB.get_random_word 7 (asked_for_apple 2 [] [3%nat]) = Ok x w'.
Proof.
  apply (get_random_word_after_the_guard (asked_for_apple 2 [] [3%nat]) 7 1);
    [by_computation|reflexivity|by_computation|by_computation].
Defined.

(** ** Asking a question ([start_word_learning_session]) *)

Lemma register_existing_user (w : World) (user_id : Z) :
  user_id ∈ users (db w) → BotDB.register_user user_id w = Ok tt w.
Proof.
  intros Hin. unfold BotDB.register_user, BotDB.all_users_list, query.
  unfold mbind, M_bind. simpl. by rewrite decide_False by (by intros ?).
Qed.

Lemma get_user_id_run (message : Message) (w : World) :
  from_user_id message ∈ users (db w) →
  get_user_id message w
  = Ok (from_user_id message)
       (set_next_step
          (next_step w ++ [(chat_id message, to_start_word_learning_session)])
          w).
Proof.
  intros Hin. unfold get_user_id, mbind, M_bind.
  by rewrite register_existing_user.
Qed.

Lemma count_words_to_learn_eval (user_id : Z) (w : World) :
  BotDB.count_words_to_learn user_id w
  = Ok (length (filter (λ p, pr_user_id p = user_id ∧ learn_counter p < 5)
                       (words_to_users (db w)))) w.
Proof.
  unfold BotDB.count_words_to_learn, query, mbind, M_bind, mret, M_ret.
  cbv beta iota. by rewrite length_fmap.
Qed.

Lemma start_word_learning_session_START (message : Message) (w : World) :
  text message = Some Command.START →
  from_user_id message ∈ users (db w) →
  start_word_learning_session message w =
  let w1 := set_next_step
              (next_step w ++
                 [(chat_id message, to_start_word_learning_session)]) w in
  if decide (Exists (λ p, pr_user_id p = from_user_id message
                          ∧ learn_counter p < 5) (words_to_users (db w)))
  then ('(russian_word, english_word, example) ←
          BotDB.get_random_word (from_user_id message);
        set_english_word message english_word;;
        markup ← generate_buttons english_word;
        send_message (chat_id message) (Question russian_word example markup);;
        register_next_step_handler message to_handle_user_answer) w1
  else offer_reset_progress message w1.
Proof.
  intros Htext Hin. unfold start_word_learning_session.
  rewrite decide_True by done.
  unfold mbind at 1, M_bind at 1. rewrite get_user_id_run by done.
  unfold mbind at 1, M_bind at 1. rewrite count_words_to_learn_eval.
  cbv zeta. change (db (set_next_step _ w)) with (db w).
  destruct (filter (λ p, pr_user_id p = from_user_id message
                         ∧ learn_counter p < 5) (words_to_users (db w)))
    as [|p ps] eqn:Hf.
  - rewrite decide_False by (simpl; lia).
    rewrite decide_False; [done|].
    rewrite Exists_exists. intros (p & Hp & Hu).
    assert (p ∈ filter (λ p, pr_user_id p = from_user_id message
                             ∧ learn_counter p < 5) (words_to_users (db w)))
      as Hin' by by apply list_elem_of_filter.
    rewrite Hf in Hin'. by apply not_elem_of_nil in Hin'.
  - rewrite decide_True by done.
    rewrite decide_True; [done|].
    assert (p ∈ filter (λ p, pr_user_id p = from_user_id message
                             ∧ learn_counter p < 5) (words_to_users (db w)))
      as Hin' by (rewrite Hf; left).
    apply list_elem_of_filter in Hin' as [? ?].
    apply Exists_exists. by exists p.
Qed.

(** X6: A registered user who holds no word with a counter below 5 is offered
    the reset: the handler sends the offer and hands the conversation to
    [drop_progress]; it draws nothing and stores nothing. *)
Theorem nothing_left_to_learn_offers_reset (w : World) (message : Message) :
  text message = Some Command.START →
  from_user_id message ∈ users (db w) →
  Forall (λ p, pr_user_id p = from_user_id message → 5 <= learn_counter p)
         (words_to_users (db w)) →
  start_word_learning_session message w
  = Ok tt (set_next_step
             (next_step w ++
                [(chat_id message, to_start_word_learning_session);
                 (chat_id message, to_drop_progress)])
             (set_sent (sent w ++ [(chat_id message, AllLearntOfferReset)])
                w)).
Proof.
  intros Htext Hin Hall.
  rewrite start_word_learning_session_START by done. cbv zeta.
  rewrite decide_False.
  - unfold offer_reset_progress, mbind, M_bind, send_message,
      Notification.send_message, register_next_step_handler. simpl.
    by rewrite <- app_assoc.
  - rewrite Exists_exists. intros (p & Hp & Hu & Hc).
    rewrite Forall_forall in Hall. specialize (Hall p Hp Hu). lia.
Qed.

Lemma nothing_left_to_learn_offers_reset_witness :
  start_word_learning_session (message_of Command.START)
    (asked_for_apple 5 [3%nat] [4%nat])
  = Ok tt (set_next_step
             [(7, to_start_word_learning_session); (7, to_drop_progress)]
             (set_sent [(7, AllLearntOfferReset)] (asked_for_apple 5 [3%nat] [4%nat]))).
Proof.
  apply (nothing_left_to_learn_offers_reset (asked_for_apple 5 [3%nat] [4%nat])
           (message_of Command.START)); [reflexivity|by_computation..].
Defined.

Lemma generate_buttons_run (w : World) (english_word : str) :
  (4 ≤ size ({[english_word]} ∪
             list_to_set (omap (pick_translation (db w)) (pg_random w))
             : gset str))%nat →
  (3 ≤ length (py_random w))%nat →
  ∃ choices py' pg',
    generate_buttons english_word w
    = Ok {| row_width := 2;
            keyboard := choices ++
              [Command.NEXT; Command.ADD_WORD; Command.DELETE_WORD] |}
         (set_py_random py' (set_pg_random pg' w))
    ∧ length choices = 4%nat ∧ NoDup choices ∧ english_word ∈ choices
    ∧ Forall (λ c, c = english_word ∨ c ∈ translation <$> words (db w))
             choices.
Proof.
  intros Hdraws Hpy.
  assert (words (db w) ≠ []) as Hlex.
  { intros Hnil. rewrite (no_pick_in_empty_lexicon _ _ Hnil) in Hdraws.
    replace ({[english_word]} ∪ list_to_set [] : gset str)
      with ({[english_word]} : gset str) in Hdraws by set_solver.
    pose proof (size_singleton (C:=gset str) english_word). lia. }
  destruct (choices_loop (pg_random w) (S (draws_left w)) {[english_word]} w)
    as (s' & pg' & Hloop & Hsize & Hsub & Hsup);
    [done|unfold draws_left; lia|done|rewrite size_singleton; lia|done|].
  destruct (shuffle_from_run (length (elements s') - 1) (elements s')
              (set_pg_random pg' w)) as (choices & Hshuffle & Hperm).
  { change (length (elements s')) with (size s'). rewrite Hsize.
    simpl. lia. }
  eexists choices, _, pg'. split_and!.
  - unfold generate_buttons, mbind at 1, M_bind at 1, while.
    rewrite Hloop. unfold mbind, M_bind, shuffle. by rewrite Hshuffle.
  - rewrite Hperm. exact Hsize.
  - rewrite Hperm. apply NoDup_elements.
  - rewrite Hperm. apply elem_of_elements. set_solver.
  - apply Forall_forall. intros c Hc. rewrite Hperm in Hc.
    apply elem_of_elements, Hsup in Hc.
    apply elem_of_union in Hc as [Hc|Hc]; [left; set_solver|right].
    apply elem_of_list_to_set, list_elem_of_omap in Hc as (r & _ & Hr).
    by eapply pick_translation_in_lexicon.
Qed.

Lemma pending_has_words (user_id : Z) (d : Database) :
  Forall (λ p, pr_word_id p ∈ word_id <$> words d) (words_to_users d) →
  Exists (λ p, pr_user_id p = user_id ∧ learn_counter p < 5)
         (words_to_users d) →
  select_words_to_learn user_id d ≠ [].
Proof.
  intros Hfk (p & Hp & Hu & Hc)%Exists_exists Hnone.
  rewrite Forall_forall in Hfk.
  destruct (proj1 (list_elem_of_fmap _ _ _) (Hfk p Hp)) as (r & Hr & Hin).
  assert ((word r, translation r, definition r)
          ∈ select_words_to_learn user_id d) as Hx.
  { apply elem_of_words_to_learn. exists r, p. split_and!; done. }
  rewrite Hnone in Hx. by apply not_elem_of_nil in Hx.
Qed.

(** X7: A registered user with a word still to learn gets a question: for one
    of the user's words with a counter below 5, chosen by the database's
    draw, the handler stores the translation as the expected answer and
    sends the word with a keyboard of four distinct choices, the translation
    among them; the database is not changed.  It does so once the database's
    further draws bring four distinct translations and Python's generator
    has three draws for the shuffle. *)
Theorem pending_word_is_asked (w : World) (message : Message)
    (r0 : nat) (pg : list nat) :
  let user_id := from_user_id message in
  text message = Some Command.START →
  user_id ∈ users (db w) →
  Forall (λ p, pr_word_id p ∈ word_id <$> words (db w))
         (words_to_users (db w)) →
  Exists (λ p, pr_user_id p = user_id ∧ learn_counter p < 5)
         (words_to_users (db w)) →
  pg_random w = r0 :: pg →
  (4 ≤ size (list_to_set (omap (pick_translation (db w)) pg) : gset str))%nat →
  (3 ≤ length (py_random w))%nat →
  ∃ w' row entry choices,
    start_word_learning_session message w = Ok tt w'
    ∧ row ∈ words (db w) ∧ entry ∈ words_to_users (db w)
    ∧ pr_word_id entry = word_id row ∧ pr_user_id entry = user_id
    ∧ learn_counter entry < 5
    ∧ db w' = db w
    ∧ user_data w' = <[(user_id, chat_id message) := translation row]>
                       (user_data w)
    ∧ sent w' = sent w ++
        [(chat_id message,
          Question (word row) (definition row)
            {| row_width := 2;
               keyboard := choices ++
                 [Command.NEXT; Command.ADD_WORD; Command.DELETE_WORD] |})]
    ∧ length choices = 4%nat ∧ NoDup choices ∧ translation row ∈ choices
    ∧ next_step w' = next_step w ++
        [(chat_id message, to_start_word_learning_session);
         (chat_id message, to_handle_user_answer)].
Proof.
  intros user_id Htext Hin Hfk Hpending Hpg Hdraws Hpy.
  rewrite start_word_learning_session_START by done. cbv zeta.
  rewrite decide_True by done. fold user_id.
  set (w1 := set_next_step _ w).
  pose proof (get_random_word_cases w1 user_id) as Hcases.
  unfold mbind at 1, M_bind at 1.
  destruct (BotDB.get_random_word user_id w1) as [x w2|e w2|].
  - destruct Hcases as [Hx (r & Hpg2 & Hw2 & _)].
    change (pg_random w1) with (pg_random w) in Hpg2.
    rewrite Hpg in Hpg2. injection Hpg2 as _ Hpg2.
    apply elem_of_words_to_learn in Hx
      as (row & entry & Hrow & Hentry & Hwid & Huid & Hc & ->).
    set (w3 := set_user_data
                 (<[(from_user_id message, chat_id message)
                    := translation row]> (user_data w2)) w2).
    destruct (generate_buttons_run w3 (translation row))
      as (choices & py' & pg' & Hgen & Hlen & Hnd & Hcorrect & _).
    { simpl. rewrite Hw2. simpl. rewrite <- Hpg2.
      etrans; [exact Hdraws|]. apply subseteq_size. set_solver. }
    { simpl. rewrite Hw2. simpl. done. }
    exists (set_next_step
              (next_step w1 ++ [(chat_id message, to_handle_user_answer)])
              (set_sent (sent w ++
                 [(chat_id message,
                   Question (word row) (definition row)
                     {| row_width := 2;
                        keyboard := choices ++
                          [Command.NEXT; Command.ADD_WORD;
                           Command.DELETE_WORD] |})])
                 (set_py_random py' (set_pg_random pg' w3)))),
      row, entry, choices.
    split.
    { unfold mbind at 1, M_bind at 1, set_english_word at 1. fold w3.
      unfold mbind at 1, M_bind at 1. rewrite Hgen.
      unfold mbind, M_bind, send_message, Notification.send_message,
        register_next_step_handler. simpl. rewrite Hw2. simpl. done. }
    simpl. rewrite Hw2. simpl. rewrite <- app_assoc.
    split_and!; done.
  - exfalso. destruct Hcases as (_ & _ & Hnone).
    by apply (pending_has_words user_id (db w)).
  - exfalso. destruct Hcases as [Hnil _].
    change (pg_random w1) with (pg_random w) in Hnil. by rewrite Hpg in Hnil.
Qed.

Lemma pending_word_is_asked_witness :
  ∃ w' row entry choices,
    start_word_learning_session (message_of Command.START)
      (process_start (db_with_user 40 10) [5; 1; 0]%nat
         [13; 0; 7; 7; 21; 30]%nat) = Ok tt w'
    ∧ row ∈ words (db_with_user 40 10)
    ∧ entry ∈ words_to_users (db_with_user 40 10)
    ∧ pr_word_id entry = word_id row ∧ pr_user_id entry = 7
    ∧ learn_counter entry < 5
    ∧ db w' = db_with_user 40 10
    ∧ user_data w' = <[(7, 7) := translation row]> ∅
    ∧ sent w' =
        [(7, Question (word row) (definition row)
               {| row_width := 2;
                  keyboard := choices ++
                    [Command.NEXT; Command.ADD_WORD; Command.DELETE_WORD] |})]
    ∧ length choices = 4%nat ∧ NoDup choices ∧ translation row ∈ choices
    ∧ next_step w' =
        [(7, to_start_word_learning_session); (7, to_handle_user_answer)].
Proof.
  apply (pending_word_is_asked
           (process_start (db_with_user 40 10) [5; 1; 0]%nat
              [13; 0; 7; 7; 21; 30]%nat)
           (message_of Command.START) 13 [0; 7; 7; 21; 30]%nat);
    [reflexivity|by_computation|by_computation|by_computation
    |reflexivity|by_computation|by_computation].
Defined.

(** ** Answers ([handle_user_answer]) *)

Lemma handle_user_answer_run (message : Message) (w : World)
    (english_word : str) :
  user_data w !! (from_user_id message, chat_id message) = Some english_word →
  from_user_id message ∈ users (db w) →
  truthy (text message) = true →
  handle_user_answer message w =
  (if decide (lower (text_of message) = lower english_word) then
     handle_correct_answer message (from_user_id message)
   else if decide (text_of message ∈
                     [lit_start; lit_menu; lit_subscribe; lit_unsubscribe])
   then handle_special_commands message
   else if decide (text_of message = Command.NEXT) then
     start_new_round message
   else if decide (text_of message = Command.ADD_WORD) then
     add_new_word message (from_user_id message)
   else if decide (text_of message = Command.DELETE_WORD) then
     delete_word message (from_user_id message)
   else handle_incorrect_answer message)
    (set_next_step
       (next_step w ++ [(chat_id message, to_start_word_learning_session)]) w).
Proof.
  intros Hdata Hin Htruthy. unfold handle_user_answer.
  unfold mbind at 1, M_bind at 1, get_english_word. rewrite Hdata.
  unfold mbind at 1, M_bind at 1. rewrite get_user_id_run by done.
  cbv zeta. by rewrite Htruthy.
Qed.

(** X8: Without a stored question there is nothing to answer or delete:
    [handle_user_answer] and [delete_word] raise KeyError at once, and the
    world is as it was. *)
Theorem no_stored_question_is_a_KeyError
    (w : World) (message : Message) (user_id : Z) :
  user_data w !! (from_user_id message, chat_id message) = None →
  handle_user_answer message w = Raise KeyError w
  ∧ delete_word message user_id w = Raise KeyError w.
Proof.
  intros Hdata. unfold handle_user_answer, delete_word.
  unfold mbind, M_bind, get_english_word. by rewrite Hdata.
Qed.

Lemma no_stored_question_is_a_KeyError_witness :
  handle_user_answer (message_of Command.DELETE_WORD)
    (process_start (apple_db 0) [] [])
  = Raise KeyError (process_start (apple_db 0) [] [])
  ∧ delete_word (message_of Command.DELETE_WORD) 7
      (process_start (apple_db 0) [] [])
    = Raise KeyError (process_start (apple_db 0) [] []).
Proof.
  apply (no_stored_question_is_a_KeyError (process_start (apple_db 0) [] [])
           (message_of Command.DELETE_WORD) 7).
  reflexivity.
Defined.

(** X9: a wrong answer changes no progress: the handler says so and waits
    for the next answer to the same question.  The answer and the expected
    word are texts in Basic Latin and Cyrillic, on which the comparison in
    lower case is the one Python makes; the answer is not the expected word
    in any letter case, and it is no command and no button. *)
Theorem wrong_answer_changes_nothing (w : World) (message : Message)
    (english_word : str) :
  user_data w !! (from_user_id message, chat_id message) = Some english_word →
  from_user_id message ∈ users (db w) →
  truthy (text message) = true →
  in_both_scripts (text_of message) →
  in_both_scripts english_word →
  lower (text_of message) ≠ lower english_word →
  text_of message ∉ [lit_start; lit_menu; lit_subscribe; lit_unsubscribe;
                     Command.NEXT; Command.ADD_WORD; Command.DELETE_WORD] →
  handle_user_answer message w
  = Ok tt (set_next_step
             (next_step w ++
                [(chat_id message, to_start_word_learning_session);
                 (chat_id message, to_handle_user_answer)])
             (set_sent (sent w ++ [(chat_id message, Incorrect)]) w)).
Proof.
  intros Hdata Hin Htruthy _ _ Hwrong Hcmd.
  rewrite (handle_user_answer_run _ _ english_word) by done.
  rewrite decide_False by done.
  rewrite decide_False by set_solver.
  rewrite !decide_False by set_solver.
  unfold handle_incorrect_answer, mbind, M_bind, send_message,
    Notification.send_message, register_next_step_handler. simpl.
  by rewrite <- app_assoc.
Qed.

Lemma wrong_answer_changes_nothing_witness :
  handle_user_answer (message_of Apple) (asked_for_apple 2 [] [])
  = Ok tt (set_next_step
             [(7, to_start_word_learning_session); (7, to_handle_user_answer)]
             (set_sent [(7, Incorrect)] (asked_for_apple 2 [] []))).
Proof.
  apply (wrong_answer_changes_nothing (asked_for_apple 2 [] [])
           (message_of Apple) Yabloko);
    [reflexivity|by_computation|reflexivity|by_computation|by_computation
    |by_computation|by_computation].
Defined.

Lemma increment_None (uid : Z) (rows : list Progress) :
  increment None uid <$> rows = rows.
Proof.
  induction rows as [|p rows IH]; [done|].
  rewrite fmap_cons, IH. by f_equal.
Qed.

(** X10: An answer that passes the comparison in lower case but matches no
    stored translation as it was typed is acknowledged and not counted: the
    handler sends '✅ Верно!', the UPDATE finds no row, and reading the
    counter raises TypeError with the database unchanged. *)
Theorem accepted_answer_unmatched_is_not_counted
    (w : World) (message : Message) (english_word : str) :
  user_data w !! (from_user_id message, chat_id message) = Some english_word →
  from_user_id message ∈ users (db w) →
  truthy (text message) = true →
  lower (text_of message) = lower english_word →
  BotDB.word_to_word_id (text_of message) w = Ok None w →
  ∃ w',
    handle_user_answer message w = Raise TypeError w'
    ∧ db w' = db w
    ∧ sent w' = sent w ++ [(chat_id message, Correct)].
Proof.
  intros Hdata Hin Htruthy Hright Hnone.
  rewrite (handle_user_answer_run _ _ english_word) by done.
  rewrite decide_True by done.
  set (w1 := set_next_step _ w).
  set (w2 := set_sent (sent w1 ++ [(chat_id message, Correct)]) w1).
  assert (select_word_id_like (text_of message) (words (db w)) = inl [])
    as Hsel.
  { rewrite word_to_word_id_run in Hnone.
    destruct (select_word_id_like _ _) as [[|i ids]|e]; by simplify_eq. }
  exists w2. split; [|done].
  unfold handle_correct_answer.
  unfold mbind at 1, M_bind at 1, send_message at 1,
    Notification.send_message at 1. fold w2.
  unfold mbind at 1, M_bind at 1, BotDB.add_learn_counter.
  unfold mbind at 1, M_bind at 1. rewrite word_to_word_id_run.
  change (words (db w2)) with (words (db w)). rewrite Hsel. simpl head.
  unfold mbind at 1, M_bind at 1, execute, update_learn_counter.
  rewrite decide_False.
  - unfold commit, mret, M_ret. cbv beta iota.
    unfold mbind at 1, M_bind at 1. rewrite check_if_learnt_eval.
    simpl. rewrite Hsel. unfold select_learn_counter. simpl.
    rewrite filter_none; [|apply Forall_forall; by intros p _ [? _]].
    simpl. rewrite increment_None. by destruct w as [[]].
  - rewrite Exists_exists. by intros (p & _ & [? _] & _).
Qed.

Lemma accepted_answer_unmatched_is_not_counted_witness :
  ∃ w',
    handle_user_answer (message_of [1071; 1041; 1051; 1054; 1050; 1054]%N)
      (asked_for_apple 4 [] []) = Raise TypeError w'
    ∧ db w' = apple_db 4
    ∧ sent w' = [(7, Correct)].
Proof.
  apply (accepted_answer_unmatched_is_not_counted (asked_for_apple 4 [] [])
           (message_of [1071; 1041; 1051; 1054; 1050; 1054]%N) Yabloko);
    [reflexivity|by_computation|reflexivity|by_computation|reflexivity].
Defined.

(** X11: An answer that matches a stored translation as typed is counted once:
    the entry of the user for the word the text resolves to moves from [c]
    to [c + 1], the word is reported learnt exactly at 5, and the handler
    goes on to the next round. *)
Theorem accepted_answer_is_counted_once
    (w : World) (message : Message) (english_word : str) (wid c : Z) :
  user_data w !! (from_user_id message, chat_id message) = Some english_word →
  from_user_id message ∈ users (db w) →
  truthy (text message) = true →
  lower (text_of message) = lower english_word →
  BotDB.word_to_word_id (text_of message) w = Ok (Some wid) w →
  NoDup (key <$> words_to_users (db w)) →
  entry wid (from_user_id message) c ∈ words_to_users (db w) →
  int4 (c + 1) →
  ∃ w',
    handle_user_answer message w = start_new_round message w'
    ∧ db w' = bumped wid (from_user_id message) (db w)
    ∧ entry wid (from_user_id message) (c + 1) ∈ words_to_users (db w')
    ∧ key <$> words_to_users (db w') = key <$> words_to_users (db w)
    ∧ sent w' = sent w ++ (chat_id message, Correct) ::
        (if decide (c + 1 = 5)
         then [(chat_id message, WordLearnt (text_of message))] else []).
Proof.
  intros Hdata Hin Htruthy Hright Hword Hkey Hrow Hc.
  rewrite (handle_user_answer_run _ _ english_word) by done.
  rewrite decide_True by done.
  set (w1 := set_next_step _ w).
  set (w2 := set_sent (sent w1 ++ [(chat_id message, Correct)]) w1).
  assert (BotDB.word_to_word_id (text_of message) w2 = Ok (Some wid) w2)
    as Hword2.
  { revert Hword. rewrite !word_to_word_id_run. simpl.
    destruct (select_word_id_like _ _); [|done]. by intros [= ->]. }
  set (w3 := set_db (bumped wid (from_user_id message) (db w2)) w2).
  pose proof (bumped_word w2 _ (from_user_id message) wid Hword2) as Hword3.
  pose proof (bumped_key w2 (from_user_id message) wid Hkey) as Hkey3.
  pose proof (bumped_row w2 (from_user_id message) wid c Hrow) as Hrow3.
  pose proof (check_if_learnt_run w3 _ _ wid (c + 1) Hword3 Hkey3 Hrow3)
    as Hcheck.
  assert (handle_correct_answer message (from_user_id message) w1 =
    ((if decide (c + 1 = 5) then
        send_message (chat_id message) (WordLearnt (text_of message))
      else mret tt);; start_new_round message) w3) as ->.
  { unfold handle_correct_answer.
    unfold mbind at 1, M_bind at 1, send_message at 1,
      Notification.send_message at 1. fold w2.
    unfold mbind at 1, M_bind at 1.
    rewrite (add_learn_counter_run w2 _ (from_user_id message) wid c)
      by done.
    fold w3. unfold mbind at 1, M_bind at 1. by rewrite Hcheck. }
  destruct (decide (c + 1 = 5)).
  - eexists. split; [reflexivity|]. simpl.
    split_and!; [done|exact Hrow3|apply key_increment|].
    by rewrite <- app_assoc.
  - exists w3. split; [done|]. simpl.
    split_and!; [done|exact Hrow3|apply key_increment|done].
Qed.

Lemma accepted_answer_is_counted_once_witness :
  ∃ w',
    handle_user_answer (message_of Yabloko) (asked_for_apple 4 [] [])
    = start_new_round (message_of Yabloko) w'
    ∧ db w' = bumped 1 7 (apple_db 4)
    ∧ entry 1 7 5 ∈ words_to_users (db w')
    ∧ key <$> words_to_users (db w') = key <$> words_to_users (apple_db 4)
    ∧ sent w' = [(7, Correct); (7, WordLearnt Yabloko)].
Proof.
  apply (accepted_answer_is_counted_once (asked_for_apple 4 [] [])
           (message_of Yabloko) Yabloko 1 4);
    [reflexivity|by_computation|reflexivity|reflexivity|reflexivity
    |by_computation|by_computation|by_computation].
Defined.

(** ** Looking a word up ([word_to_word_id], [word_id_to_word]) *)

(** As a pattern, such a text matches itself and nothing else. *)
Lemma MatchText_plain (p : str) : plain p → ∀ t,
  MatchText p t = (if decide (t = p) then LIKE_TRUE
                   else match MatchText p t with
                        | LIKE_ABORT => LIKE_ABORT
                        | _ => LIKE_FALSE
                        end).
Proof.
  induction 1 as [|pc p (Hpercent & Hunder & Hback) Hp IH]; intros [|tc t].
  - done.
  - done.
  - simpl. by apply N.eqb_neq in Hpercent as ->.
  - simpl.
    apply N.eqb_neq in Hpercent as ->. apply N.eqb_neq in Hunder as ->.
    apply N.eqb_neq in Hback as ->.
    destruct (N.eqb_spec pc tc) as [->|Hne].
    + rewrite (IH t). destruct (decide (t = p)) as [->|Hne].
      * by rewrite decide_True.
      * rewrite decide_False by congruence.
        by destruct (MatchText p t).
    + by rewrite decide_False by congruence.
Qed.

Lemma select_word_id_like_plain (p : str) (rows : list Word) :
  plain p →
  select_word_id_like p rows
  = inl (word_id <$> filter (λ r, translation r = p) rows).
Proof.
  intros Hp. induction rows as [|r rows IH]; [done|].
  simpl. rewrite (MatchText_plain p Hp), IH, filter_cons.
  destruct (decide (translation r = p)) as [Heq|Hne]; [done|].
  by destruct (MatchText p (translation r)).
Qed.

Lemma filter_unique {A B} `{EqDecision B} (f : A → B) (l : list A) (x : A) :
  NoDup (f <$> l) → x ∈ l → filter (λ y, f y = f x) l = [x].
Proof.
  induction l as [|y l IH]; intros Hnd Hin.
  - by apply not_elem_of_nil in Hin.
  - rewrite fmap_cons in Hnd. apply NoDup_cons in Hnd as [Hy Hnd].
    apply elem_of_cons in Hin as [Heq|Hin].
    + subst y. rewrite filter_cons_True by done. f_equal.
      apply filter_none, Forall_forall. intros z Hz Hfz.
      apply Hy, list_elem_of_fmap. by exists z.
    + rewrite filter_cons_False; [by apply IH|].
      intros Hfy. apply Hy, list_elem_of_fmap. by exists x.
Qed.

Lemma word_to_word_id_plain (w : World) (word : str) :
  plain word →
  BotDB.word_to_word_id word w
  = Ok (word_id <$> head (filter (λ r, translation r = word) (words (db w))))
       w.
Proof.
  intros Hp. rewrite word_to_word_id_run, select_word_id_like_plain by done.
  by destruct (filter _ (words (db w))).
Qed.

(** X12: For a text without [%], [_] and backslash, [word_to_word_id] finds the
    first lexicon row whose translation is the text, letter for letter, and
    nothing when there is none; it does not raise. *)
Theorem word_to_word_id_finds_the_first_equal (w : World) (word : str) :
  plain word →
  BotDB.word_to_word_id word w
  = Ok (word_id <$> head (filter (λ r, translation r = word) (words (db w))))
       w.
Proof.
  intros Hp. rewrite word_to_word_id_run, select_word_id_like_plain by done.
  by destruct (filter _ (words (db w))).
Qed.

Lemma word_to_word_id_finds_the_first_equal_witness :
  BotDB.word_to_word_id Yabloko (asked_for_apple 0 [] [])
  = Ok (word_id <$> head (filter (λ r, translation r = Yabloko)
                                 (words (apple_db 0))))
       (asked_for_apple 0 [] []).
Proof.
  apply (word_to_word_id_finds_the_first_equal (asked_for_apple 0 [] [])
           Yabloko).
  by_computation.
Defined.

(** X13: Over a lexicon whose ids are distinct and whose translations are
    distinct, the two lookups agree on every row with a plain translation:
    the translation leads to the id, and the id to the word. *)
Theorem lookups_agree_on_a_row (w : World) (row : Word) :
  row ∈ words (db w) →
  NoDup (word_id <$> words (db w)) →
  NoDup (translation <$> words (db w)) →
  plain (translation row) →
  BotDB.word_to_word_id (translation row) w = Ok (Some (word_id row)) w
  ∧ BotDB.word_id_to_word (word_id row) w = Ok (word row) w.
Proof.
  intros Hin Hids Htr Hp. split.
  - rewrite word_to_word_id_plain by done.
    by rewrite (filter_unique translation _ row).
  - unfold BotDB.word_id_to_word, query, mbind, M_bind. cbv beta iota.
    by rewrite (filter_unique word_id _ row).
Qed.

Lemma lookups_agree_on_a_row_witness :
  BotDB.word_to_word_id (translation (numbered_word 17))
    (process_start (fresh_db 40) [] [])
  = Ok (Some 17) (process_start (fresh_db 40) [] [])
  ∧ BotDB.word_id_to_word 17 (process_start (fresh_db 40) [] [])
    = Ok (word (numbered_word 17)) (process_start (fresh_db 40) [] []).
Proof.
  apply (lookups_agree_on_a_row (process_start (fresh_db 40) [] [])
           (numbered_word 17)); by_computation.
Defined.

Lemma filter_increment_other (wid other uid : Z) (rows : list Progress) :
  other ≠ wid →
  filter (λ p, pr_word_id p = other) (increment (Some wid) uid <$> rows)
  = filter (λ p, pr_word_id p = other) rows.
Proof.
  intros Hne. induction rows as [|p rows IH]; [done|].
  rewrite fmap_cons, !filter_cons, IH. unfold increment.
  destruct (decide (key_matches (Some wid) uid p)) as [[Hw Hu]|Hno]; [|done].
  simpl. injection Hw as Hw.
  rewrite !decide_False by congruence. done.
Qed.

(** The id that [fetchone] takes from the LIKE query is that of the first
    row the pattern matches. *)
Lemma like_head_position (pat : str) : ∀ (rows : list Word) ids i,
  select_word_id_like pat rows = inl ids → head ids = Some i →
  ∃ l1 r l2, rows = l1 ++ r :: l2 ∧ word_id r = i
             ∧ MatchText pat (translation r) = LIKE_TRUE
             ∧ Forall (λ x, MatchText pat (translation x) ≠ LIKE_TRUE) l1.
Proof.
  induction rows as [|r rows IH]; intros ids i Hsel Hhead.
  - simpl in Hsel. by simplify_eq.
  - simpl in Hsel.
    destruct (MatchText pat (translation r)) eqn:Hr.
    + destruct (select_word_id_like pat rows) as [ids'|e]; [|done].
      injection Hsel as <-. injection Hhead as <-.
      exists [], r, rows. split_and!; [done..|constructor].
    + destruct (IH ids i Hsel Hhead) as (l1 & r' & l2 & -> & Hi & Hm & Hl1).
      exists (r :: l1), r', l2. split_and!; [done..|].
      constructor; [by rewrite Hr|done].
    + destruct (IH ids i Hsel Hhead) as (l1 & r' & l2 & -> & Hi & Hm & Hl1).
      exists (r :: l1), r', l2. split_and!; [done..|].
      constructor; [by rewrite Hr|done].
    + done.
Qed.

Lemma shared_translation_resolves_elsewhere
    (w : World) (first second : Word) (before between after : list Word)
    (ids : list Z) :
  words (db w) = before ++ first :: between ++ second :: after →
  translation second = translation first →
  NoDup (word_id <$> words (db w)) →
  select_word_id_like (translation second) (words (db w)) = inl ids →
  head ids ≠ Some (word_id second).
Proof.
  intros Hwords Heq Hnd Hsel Hhead.
  destruct (like_head_position _ _ _ _ Hsel Hhead)
    as (l1 & r & l2 & Hsplit & Hid & Hmatch & Hl1).
  assert (words (db w) = (before ++ first :: between) ++ second :: after)
    as Hwords' by (by rewrite Hwords, <- app_assoc).
  assert (length l1 = length (before ++ first :: between)) as Hlen.
  { apply (NoDup_lookup _ _ _ (word_id second) Hnd).
    - by rewrite Hsplit, list_lookup_fmap, list_lookup_middle, <- Hid.
    - by rewrite Hwords', list_lookup_fmap, list_lookup_middle. }
  rewrite Hwords' in Hsplit. symmetry in Hsplit.
  apply app_inj_1 in Hsplit as [-> Hr]; [|done].
  injection Hr as -> _.
  rewrite Forall_forall in Hl1.
  apply (Hl1 first); [set_solver|]. by rewrite <- Heq.
Qed.

(** X14: when two rows of a lexicon with distinct ids store the same
    translation, the counter of the later word cannot be moved through
    that translation: [add_learn_counter] resolves it to a row before the
    later one, or to none, so every entry for the later word stays as it
    is, for every user. *)
Theorem shared_translation_never_counts_for_the_second
    (w : World) (user_id : Z) (first second : Word)
    (before between after : list Word) :
  words (db w) = before ++ first :: between ++ second :: after →
  translation second = translation first →
  NoDup (word_id <$> words (db w)) →
  match BotDB.add_learn_counter user_id (translation second) w with
  | Ok _ w' =>
      filter (λ p, pr_word_id p = word_id second) (words_to_users (db w'))
      = filter (λ p, pr_word_id p = word_id second) (words_to_users (db w))
  | Raise e w' => w' = w
  | Pending => False
  end.
Proof.
  intros Hwords Heq Hnd.
  unfold BotDB.add_learn_counter, mbind at 1, M_bind at 1.
  rewrite word_to_word_id_run.
  destruct (select_word_id_like (translation second) (words (db w)))
    as [ids|e] eqn:Hsel; [|done].
  pose proof (shared_translation_resolves_elsewhere
                w first second before between after ids Hwords Heq Hnd Hsel)
    as Hother.
  unfold mbind, M_bind, execute, commit, update_learn_counter.
  case_decide; [done|]. simpl.
  destruct (head ids) as [i|].
  - apply filter_increment_other. congruence.
  - by rewrite increment_None.
Qed.

Lemma shared_translation_never_counts_for_the_second_witness :
  match BotDB.add_learn_counter 7 Bolshoy
          (process_start (synonyms_db 0) [] []) with
  | Ok _ w' =>
      filter (λ p, pr_word_id p = 2) (words_to_users (db w')) = [entry 2 7 0]
  | Raise e w' => False
  | Pending => False
  end.
Proof.
  pose proof (shared_translation_never_counts_for_the_second
                (process_start (synonyms_db 0) [] []) 7 big_word large_word
                [] [] [] eq_refl eq_refl ltac:(by_computation)) as H.
  exact H.
Defined.

(** ** Subscribing and unsubscribing ([Notification.start], [stop]) *)

Lemma start_run (i : nat) (message : Message) (w : World) (d : dict) :
  store w !! Notification.subscribers = Some d →
  Notification.start (Notification.new i) message w =
  if decide (chat_id message ∈ d.*1)
  then Ok tt (set_sent (sent w ++ [(chat_id message, AlreadySubscribed)]) w)
  else Ok tt (set_sent (sent w ++ [(chat_id message, Subscribed)])
                (set_store (<[Notification.subscribers :=
                                d ++ [(chat_id message, true)]]> (store w))
                   w)).
Proof.
  intros Hd.
  unfold Notification.start, mbind, M_bind, Notification.load,
    Notification.setitem, Notification.send_message.
  change (Notification.self_subscribers (Notification.new i))
    with Notification.subscribers.
  rewrite Hd. simpl.
  destruct (decide (chat_id message ∈ d.*1)) as [Hold|Hnew].
  - by rewrite decide_False by (by intros ?).
  - rewrite decide_True by done. simpl. rewrite Hd. simpl.
    by rewrite decide_False by done.
Qed.

Lemma stop_run (i : nat) (message : Message) (w : World) (d : dict) :
  store w !! Notification.subscribers = Some d →
  Notification.stop (Notification.new i) message w =
  if decide (chat_id message ∈ d.*1)
  then Ok tt (set_sent (sent w ++ [(chat_id message, Unsubscribed)])
                (set_store (<[Notification.subscribers :=
                                filter (λ kv, kv.1 ≠ chat_id message) d]>
                              (store w)) w))
  else Ok tt (set_sent (sent w ++ [(chat_id message, NotSubscribed)]) w).
Proof.
  intros Hd.
  unfold Notification.stop, mbind, M_bind, Notification.load,
    Notification.delitem, Notification.send_message.
  change (Notification.self_subscribers (Notification.new i))
    with Notification.subscribers.
  rewrite Hd. simpl.
  destruct (decide (chat_id message ∈ d.*1)) as [Hold|Hnew]; [|done].
  simpl. rewrite Hd. simpl. by rewrite decide_True by done.
Qed.

Lemma filter_keys_fresh (k : Z) (d : dict) :
  k ∉ d.*1 → filter (λ kv, kv.1 ≠ k) (d ++ [(k, true)]) = d.
Proof.
  intros Hk. rewrite filter_app, filter_cons_False by (simpl; by intros ?).
  rewrite filter_nil, app_nil_r.
  induction d as [|[k' v] d IH]; [done|].
  rewrite fmap_cons in Hk. apply not_elem_of_cons in Hk as [Hne Hk].
  simpl in Hne. rewrite filter_cons_True by (simpl; by intros ->).
  by rewrite IH.
Qed.

(** X15: Through any instances: a chat that is not subscribed is subscribed by
    [start] and put back by [stop], which leaves the dict as it was; a
    second [start] changes nothing and answers that the chat is subscribed
    already.  Neither raises. *)
Theorem subscribe_and_unsubscribe_cancel
    (i j : nat) (message : Message) (w : World) (d : dict) :
  store w !! Notification.subscribers = Some d →
  chat_id message ∉ d.*1 →
  (Notification.start (Notification.new i) message;;
   Notification.stop (Notification.new j) message) w
  = Ok tt (set_sent (sent w ++ [(chat_id message, Subscribed);
                                (chat_id message, Unsubscribed)]) w)
  ∧ ∃ w1,
      Notification.start (Notification.new i) message w = Ok tt w1
      ∧ store w1 !! Notification.subscribers
        = Some (d ++ [(chat_id message, true)])
      ∧ Notification.start (Notification.new j) message w1
        = Ok tt (set_sent (sent w1 ++ [(chat_id message, AlreadySubscribed)])
                   w1).
Proof.
  intros Hd Hnew.
  set (w1 := set_sent (sent w ++ [(chat_id message, Subscribed)])
               (set_store (<[Notification.subscribers :=
                               d ++ [(chat_id message, true)]]> (store w)) w)).
  assert (Notification.start (Notification.new i) message w = Ok tt w1) as Hs.
  { rewrite (start_run i message w d) by done. by rewrite decide_False. }
  assert (store w1 !! Notification.subscribers
          = Some (d ++ [(chat_id message, true)])) as Hd1.
  { simpl. by rewrite lookup_insert_eq. }
  split.
  - unfold mbind, M_bind. rewrite Hs.
    rewrite (stop_run j message w1 _ Hd1).
    rewrite decide_True by (rewrite fmap_app; set_solver).
    simpl. rewrite filter_keys_fresh by done.
    rewrite insert_insert_eq, insert_id by done.
    rewrite <- app_assoc. by destruct w.
  - exists w1. split_and!; [done..|].
    rewrite (start_run j message w1 _ Hd1).
    by rewrite decide_True by (rewrite fmap_app; set_solver).
Qed.

Lemma subscribe_and_unsubscribe_cancel_witness :
  (Notification.start (Notification.new 2) (message_of lit_subscribe);;
   Notification.stop (Notification.new 2) (message_of lit_unsubscribe))
    (process_start (fresh_db 40) [] [])
  = Ok tt (set_sent [(7, Subscribed); (7, Unsubscribed)]
             (process_start (fresh_db 40) [] []))
  ∧ ∃ w1,
      Notification.start (Notification.new 2) (message_of lit_subscribe)
        (process_start (fresh_db 40) [] []) = Ok tt w1
      ∧ store w1 !! Notification.subscribers = Some [(7, true)]
      ∧ Notification.start (Notification.new 1) (message_of lit_subscribe) w1
        = Ok tt (set_sent (sent w1 ++ [(7, AlreadySubscribed)]) w1).
Proof.
  apply (subscribe_and_unsubscribe_cancel 2 1 (message_of lit_subscribe)
           (process_start (fresh_db 40) [] []) []);
    [reflexivity|by_computation].
Defined.

(** X16: [stop] for a chat that is not subscribed deletes nothing and raises
    nothing: it answers that the chat is not subscribed. *)
Theorem unsubscribing_a_stranger_is_harmless
    (i : nat) (message : Message) (w : World) (d : dict) :
  store w !! Notification.subscribers = Some d →
  chat_id message ∉ d.*1 →
  Notification.stop (Notification.new i) message w
  = Ok tt (set_sent (sent w ++ [(chat_id message, NotSubscribed)]) w).
Proof.
  intros Hd Hnew. rewrite (stop_run i message w d) by done.
  by rewrite decide_False.
Qed.

Lemma unsubscribing_a_stranger_is_harmless_witness :
  Notification.stop (Notification.new 2) (message_of lit_unsubscribe)
    (process_start (fresh_db 40) [] [])
  = Ok tt (set_sent [(7, NotSubscribed)] (process_start (fresh_db 40) [] [])).
Proof.
  apply (unsubscribing_a_stranger_is_harmless 2 (message_of lit_unsubscribe)
           (process_start (fresh_db 40) [] []) []);
    [reflexivity|by_computation].
Defined.

(** ** Deleting a word ([BotDB.delete_word]) *)

Lemma ids_after_delete (wid : option Z) (uid : Z) (rows : list Progress) :
  pr_word_id <$> filter (λ p, pr_user_id p = uid)
                        (filter (λ p, ¬ key_matches wid uid p) rows)
  = filter (λ z, Some z ≠ wid)
           (pr_word_id <$> filter (λ p, pr_user_id p = uid) rows).
Proof.
  induction rows as [|p rows IH]; [done|].
  rewrite (filter_cons (λ p, pr_user_id p = uid) p).
  destruct (decide (pr_user_id p = uid)) as [Hu|Hu].
  - rewrite fmap_cons, (filter_cons (λ z, Some z ≠ wid)).
    rewrite (filter_cons (λ p, ¬ key_matches wid uid p)).
    destruct (decide (Some (pr_word_id p) ≠ wid)) as [Hw|Hw].
    + rewrite decide_True by (unfold key_matches; naive_solver).
      rewrite filter_cons_True by done. by rewrite fmap_cons, IH.
    + rewrite decide_False; [done|].
      apply dec_stable in Hw. unfold key_matches. naive_solver.
  - rewrite (filter_cons (λ p, ¬ key_matches wid uid p)).
    rewrite decide_True by (unfold key_matches; naive_solver).
    by rewrite filter_cons_False by done.
Qed.

(** X17: [BotDB.delete_word] ends at once.  When the pattern is well formed it
    returns, and the user then holds the ids held before without the id the
    word resolved to (all of them when it resolved to none); rows of other
    users, the users and the lexicon stay.  Otherwise it raises what the
    LIKE raised and nothing has changed. *)
Theorem delete_word_removes_the_resolved_id
    (w : World) (user_id : Z) (word : str) :
  match BotDB.delete_word user_id word w with
  | Ok _ w' =>
      ∃ wid,
        BotDB.word_to_word_id word w = Ok wid w
        ∧ BotDB.all_words_ids user_id w'
          = Ok (filter (λ z, Some z ≠ wid)
                       (select_word_ids_of_user user_id (db w))) w'
        ∧ (∀ other, other ≠ user_id →
             filter (λ p, pr_user_id p = other) (words_to_users (db w'))
             = filter (λ p, pr_user_id p = other) (words_to_users (db w)))
        ∧ words (db w') = words (db w)
        ∧ users (db w') = users (db w)
        ∧ set_db (db w) w' = w
  | Raise e w' => e = InvalidEscapeSequence ∧ w' = w
  | Pending => False
  end.
Proof.
  rewrite delete_word_eval, word_to_word_id_run.
  destruct (select_word_id_like word (words (db w))) as [ids|e] eqn:Hsel.
  - exists (head ids). split_and!; try done.
    + rewrite all_words_ids_run. f_equal. apply ids_after_delete.
    + intros other Hother. simpl. apply filter_filter_other.
      intros p Hp [_ Hu]. congruence.
    + by destruct w.
  - split; [|done]. by apply select_word_id_like_error in Hsel.
Qed.

(** X18: Deleting the same word a second time changes nothing more. *)
Theorem delete_word_twice_is_once (w : World) (user_id : Z) (word : str) :
  (BotDB.delete_word user_id word;; BotDB.delete_word user_id word) w
  = BotDB.delete_word user_id word w.
Proof.
  unfold mbind, M_bind. rewrite delete_word_eval.
  destruct (select_word_id_like word (words (db w))) as [ids|e] eqn:Hsel;
    [|done].
  rewrite delete_word_eval. simpl. rewrite Hsel.
  unfold delete_words_to_users, set_db. simpl. do 3 f_equal.
  by apply filter_filter_other.
Qed.

(** ** Counting an answer ([BotDB.add_learn_counter]) *)

(** X19: [BotDB.add_learn_counter] ends at once.  When it returns, the
    table holds the same keys, each as often as before; every row is a row
    of before with its counter as it was or one higher; the rows of other
    users are all there as they were, and so are the users and the
    lexicon.  Nothing is said of the order of the rows.  When it raises,
    the LIKE pattern was ill formed or a counter would have left the
    INTEGER range, and nothing has changed. *)
Theorem add_learn_counter_keeps_the_keys
    (w : World) (user_id : Z) (word : str) :
  match BotDB.add_learn_counter user_id word w with
  | Ok _ w' =>
      key <$> words_to_users (db w') ≡ₚ key <$> words_to_users (db w)
      ∧ (∀ p', p' ∈ words_to_users (db w') →
           ∃ p, p ∈ words_to_users (db w) ∧ key p' = key p
                ∧ learn_counter p <= learn_counter p' <= learn_counter p + 1
                ∧ (pr_user_id p ≠ user_id → p' = p))
      ∧ (∀ p, p ∈ words_to_users (db w) → pr_user_id p ≠ user_id →
              p ∈ words_to_users (db w'))
      ∧ words (db w') = words (db w)
      ∧ users (db w') = users (db w)
      ∧ set_db (db w) w' = w
  | Raise e w' =>
      (e = InvalidEscapeSequence ∨ e = NumericValueOutOfRange) ∧ w' = w
  | Pending => False
  end.
Proof.
  unfold BotDB.add_learn_counter, mbind at 1, M_bind at 1.
  rewrite word_to_word_id_run.
  destruct (select_word_id_like word (words (db w))) as [ids|e] eqn:Hsel.
  - unfold mbind, M_bind, execute, commit, mret, M_ret, update_learn_counter.
    case_decide; [by auto|]. simpl. split_and!; try done.
    + by rewrite key_increment.
    + intros p' (p & -> & Hp)%list_elem_of_fmap. exists p.
      split; [done|]. unfold increment, key.
      case_decide as Hk; simpl.
      * split; [done|]. split; [lia|]. destruct Hk as [_ Hu]. done.
      * split; [done|]. split; [lia|done].
    + intros p Hp Hother. apply list_elem_of_fmap. exists p.
      split; [|done]. unfold increment.
      rewrite decide_False; [done|]. by intros [_ ?].
    + by destruct w.
  - split; [|done]. left. by apply select_word_id_like_error in Hsel.
Qed.

(** ** Adding a word ([BotDB.add_word]) *)

(** X20: [BotDB.add_word] over any lexicon.  When it returns an id, the id lies
    in 1..40, is in the lexicon, was not held by the user, and is held now
    through one new row with a counter of 0 at the end of the table; the
    user is registered.  It never raises UniqueViolation, and what it
    raises leaves the database as it was.  It is still drawing when the
    draws are used up only if every draw was an id the user holds. *)
Theorem add_word_adds_one_fresh_row (w : World) (user_id : Z) :
  match BotDB.add_word user_id 0 w with
  | Ok z w' =>
      1 <= z <= 40
      ∧ z ∈ word_id <$> words (db w)
      ∧ user_id ∈ users (db w)
      ∧ (z ∉ select_word_ids_of_user user_id (db w))
      ∧ db w' = with_rows [new_row user_id z] (db w)

  | Raise e w' =>
      (e = ForeignKeyViolation ∨ e = NumericValueOutOfRange) ∧ db w' = db w
  | Pending =>
      Forall (λ r, randint_of 1 40 r ∈ select_word_ids_of_user user_id (db w))
             (py_random w)
  end.
Proof.
  rewrite add_word_run.
  destruct (first_fresh _ _) as [[z tape']|] eqn:Hfresh.
  - apply first_fresh_Some in Hfresh as (Hnew & Hz & _ & _).
    unfold insert_words_to_users.
    case_decide; [|by auto].
    case_decide as Hheld.
    { exfalso. apply Hnew. apply Exists_exists in Hheld as (p & Hp & Hw & Hu).
      unfold select_word_ids_of_user. apply list_elem_of_fmap.
      exists p. split; [done|]. by apply list_elem_of_filter. }
    case_decide as Hfk; [|by auto].
    destruct Hfk as [Hw Hu]. done.
  - by apply first_fresh_None.
Qed.

(** ** What a handler may change

    The handlers are followed once, for any relation [R u] between the
    world before and the world after that every statement run for the
    user [u] respects. *)

Create HintDb confined.

Section confinement.

Context (R : Z → World → World → Prop).

Hypothesis R_same : ∀ u w w',
  db w' = db w → user_data w' = user_data w → R u w w'.
Hypothesis R_trans : ∀ u w1 w2 w3, R u w1 w2 → R u w2 w3 → R u w1 w3.
Hypothesis R_insert_users : ∀ u w d',
  insert_users u (db w) = inl d' → R u w (set_db d' w).
Hypothesis R_insert_words_to_users : ∀ wid u c w d',
  insert_words_to_users wid u c (db w) = inl d' → R u w (set_db d' w).
Hypothesis R_delete_words_to_users : ∀ wid u w,
  R u w (set_db (delete_words_to_users wid u (db w)) w).
Hypothesis R_delete_words_of_user : ∀ u w,
  R u w (set_db (delete_words_of_user u (db w)) w).
Hypothesis R_delete_users : ∀ u w d',
  delete_users u (db w) = inl d' → R u w (set_db d' w).
Hypothesis R_update_learn_counter : ∀ wid u w d',
  update_learn_counter wid u (db w) = inl d' → R u w (set_db d' w).
Hypothesis R_set_english_word : ∀ message v w,
  R (from_user_id message) w
    (set_user_data
       (<[(from_user_id message, chat_id message) := v]> (user_data w)) w).

Lemma confined_ret {A} (u : Z) (P : A → Prop) (a : A) :
  P a → confined (R u) P (mret a).
Proof using R_same. intros HP w. split; [by apply R_same|done]. Qed.

Lemma confined_ret_any {A} (u : Z) (a : A) :
  confined (R u) (λ _, True) (mret a).
Proof using R_same. by apply confined_ret. Qed.

Lemma confined_commit (u : Z) : confined (R u) (λ _, True) commit.
Proof using R_same. apply confined_ret_any. Qed.

Lemma confined_bind {A B} (u : Z) (P : A → Prop) (Q : B → Prop)
    (m : M A) (k : A → M B) :
  confined (R u) P m → (∀ a, P a → confined (R u) Q (k a)) →
  confined (R u) Q (m ≫= k).
Proof using R_trans.
  intros Hm Hk w. unfold mbind, M_bind. specialize (Hm w).
  destruct (m w) as [a w1|e w1|]; [|done..].
  destruct Hm as [H1 Ha]. specialize (Hk a Ha w1).
  destruct (k a w1) as [b w2|e w2|]; [|by eapply R_trans|done].
  destruct Hk as [H2 Hb]. split; [by eapply R_trans|done].
Qed.

Lemma confined_read_only {A} (u : Z) (m : M A) :
  (∀ w, match m w with
        | Ok _ w' | Raise _ w' => db w' = db w ∧ user_data w' = user_data w
        | Pending => True
        end) →
  confined (R u) (λ _, True) m.
Proof using R_same.
  intros Hm w. specialize (Hm w).
  destruct (m w) as [a w'|e w'|]; [| |done]; destruct Hm as [Hdb Hdata].
  - split; [by apply R_same|done].
  - by apply R_same.
Qed.

Lemma confined_execute (u : Z) (stmt : Database → Database + exn) :
  (∀ w d', stmt (db w) = inl d' → R u w (set_db d' w)) →
  confined (R u) (λ _, True) (execute stmt).
Proof using R_same.
  intros Hstmt w. unfold execute.
  destruct (stmt (db w)) as [d'|e] eqn:Hd; [|by apply R_same].
  split; [by apply Hstmt|done].
Qed.

Lemma confined_query {A} (u : Z) (q : Database → A + exn) :
  confined (R u) (λ _, True) (query q).
Proof using R_same.
  apply confined_read_only. intros w. unfold query.
  by destruct (q (db w)).
Qed.

Lemma confined_subscript {A} (u : Z) (row : option A) :
  confined (R u) (λ _, True) (subscript row).
Proof using R_same. apply confined_read_only. intros w. by destruct row. Qed.

Lemma confined_raise {A} (u : Z) (e : exn) :
  confined (R u) (λ _ : A, True) (raise e).
Proof using R_same. by apply confined_read_only. Qed.

Lemma confined_randint (u : Z) (a b : Z) :
  confined (R u) (λ _, True) (randint a b).
Proof using R_same.
  apply confined_read_only. intros w. unfold randint.
  by destruct (py_random w).
Qed.

Lemma confined_randbelow (u : Z) (n : nat) :
  confined (R u) (λ _, True) (randbelow n).
Proof using R_same.
  apply confined_read_only. intros w. unfold randbelow.
  by destruct (py_random w).
Qed.

Lemma confined_order_by_random {A} (u : Z) (rows : list A) :
  confined (R u) (λ _, True) (order_by_random rows).
Proof using R_same.
  apply confined_read_only. intros w. unfold order_by_random.
  destruct rows; [done|]. by destruct (pg_random w).
Qed.

Lemma confined_send_message (u chat : Z) (r : Reply) :
  confined (R u) (λ _, True) (send_message chat r).
Proof using R_same. by apply confined_read_only. Qed.

Lemma confined_register_next_step_handler
    (u : Z) (message : Message) (h : Handler) :
  confined (R u) (λ _, True) (register_next_step_handler message h).
Proof using R_same. by apply confined_read_only. Qed.

Lemma confined_get_english_word (u : Z) (message : Message) :
  confined (R u) (λ _, True) (get_english_word message).
Proof using R_same.
  apply confined_read_only. intros w. unfold get_english_word.
  by destruct (user_data w !! _).
Qed.

Lemma confined_set_english_word (message : Message) (v : str) :
  confined (R (from_user_id message)) (λ _, True)
    (set_english_word message v).
Proof using R_set_english_word.
  intros w. split; [apply R_set_english_word|done].
Qed.

(** *** Loops *)

Lemma confined_while_True {A} (u : Z) (body : M (option A)) :
  confined (R u) (λ _, True) body →
  confined (R u) (λ _, True) (while_True body).
Proof using R_same R_trans.
  intros Hbody.
  assert (∀ fuel, confined (R u) (λ _, True) (while_True_fuel fuel body))
    as H.
  { induction fuel as [|fuel IH]; [by intros w|].
    simpl. eapply confined_bind; [done|].
    intros [a|] _; [by apply confined_ret|done]. }
  intros w. apply H.
Qed.

Lemma confined_while {St} (u : Z) (cond : St → bool) (body : St → M St)
    (s : St) :
  (∀ s, confined (R u) (λ _, True) (body s)) →
  confined (R u) (λ _, True) (while cond body s).
Proof using R_same R_trans.
  intros Hbody.
  assert (∀ fuel s, confined (R u) (λ _, True) (while_fuel fuel cond body s))
    as H.
  { induction fuel as [|fuel IH]; intros s'; simpl;
      (destruct (cond s'); [|by apply confined_ret]).
    - by intros w.
    - eapply confined_bind; [apply Hbody|]. intros s'' _. apply IH. }
  intros w. apply H.
Qed.

Lemma confined_for_range {St} (u : Z) (n : nat) (body : St → M St) (s : St) :
  (∀ s, confined (R u) (λ _, True) (body s)) →
  confined (R u) (λ _, True) (for_range n body s).
Proof using R_same R_trans.
  intros Hbody. revert s.
  induction n as [|n IH]; intros s; simpl; [by apply confined_ret|].
  eapply confined_bind; [apply Hbody|]. intros s' _. apply IH.
Qed.

Lemma confined_for_each {A} (u : Z) (l : list A) (body : A → M unit) :
  (∀ x, confined (R u) (λ _, True) (body x)) →
  confined (R u) (λ _, True) (for_each l body).
Proof using R_same R_trans.
  intros Hbody.
  induction l as [|x l IH]; simpl; [by apply confined_ret|].
  eapply confined_bind; [apply Hbody|]. by intros _ _.
Qed.

#[local] Hint Resolve confined_query confined_subscript confined_raise
  confined_randint confined_randbelow confined_order_by_random
  confined_send_message confined_register_next_step_handler
  confined_get_english_word confined_set_english_word confined_commit
  : confined.

(** One step through a computation that is to be shown confined. *)
Ltac confined_step :=
  match goal with
  | |- confined _ _ (mbind _ _) => eapply confined_bind
  | |- confined _ _ (if decide _ then _ else _) => case_decide
  | |- confined _ _ (if ?b then _ else _) => destruct b
  | |- confined _ _ (mret _) =>
      first [apply confined_ret_any | by apply confined_ret]
  | |- confined _ _ (while_True _) => apply confined_while_True
  | |- confined _ _ (while _ _ _) => apply confined_while
  | |- confined _ _ (for_range _ _ _) => apply confined_for_range
  | |- confined _ _ (for_each _ _) => apply confined_for_each
  | |- confined _ _ (execute _) => apply confined_execute
  | |- ∀ _, _ => intros
  | |- _ => solve [eauto with confined]
  end.

(** *** The methods of [BotDB] *)

Lemma confined_word_to_word_id (u : Z) (word : str) :
  confined (R u) (λ _, True) (BotDB.word_to_word_id word).
Proof using R_same R_trans.
  unfold BotDB.word_to_word_id. repeat confined_step.
Qed.

Lemma confined_word_id_to_word (u wid : Z) :
  confined (R u) (λ _, True) (BotDB.word_id_to_word wid).
Proof using R_same R_trans.
  unfold BotDB.word_id_to_word. repeat confined_step.
Qed.

Lemma confined_generate_10_words (u c : Z) :
  confined (R u) (λ _, True) (BotDB.generate_10_words u c).
Proof using R_same R_trans R_insert_words_to_users.
  unfold BotDB.generate_10_words. repeat confined_step.
Qed.

#[local] Hint Resolve confined_word_to_word_id confined_word_id_to_word
  confined_generate_10_words : confined.

Lemma confined_register_user (u : Z) :
  confined (R u) (λ _, True) (BotDB.register_user u).
Proof using R_same R_trans R_insert_users R_insert_words_to_users.
  unfold BotDB.register_user, BotDB.all_users_list. repeat confined_step.
Qed.

Lemma confined_drop_progress (u : Z) :
  confined (R u) (λ _, True) (BotDB.drop_progress u).
Proof using R_same R_trans R_delete_words_of_user R_delete_users.
  unfold BotDB.drop_progress. repeat confined_step.
  simplify_eq. apply R_delete_words_of_user.
Qed.

Lemma confined_get_random_word (u : Z) :
  confined (R u) (λ _, True) (BotDB.get_random_word u).
Proof using R_same R_trans.
  unfold BotDB.get_random_word. repeat confined_step.
Qed.

Lemma confined_get_random_examples (u : Z) :
  confined (R u) (λ _, True) BotDB.get_random_examples.
Proof using R_same R_trans.
  unfold BotDB.get_random_examples. repeat confined_step.
Qed.

Lemma confined_delete_word (u : Z) (word : str) :
  confined (R u) (λ _, True) (BotDB.delete_word u word).
Proof using R_same R_trans R_delete_words_to_users.
  unfold BotDB.delete_word. repeat confined_step.
  simplify_eq. apply R_delete_words_to_users.
Qed.

Lemma confined_counts (u : Z) :
  confined (R u) (λ _, True) (BotDB.all_words_ids u)
  ∧ confined (R u) (λ _, True) BotDB.all_main_words_ids
  ∧ confined (R u) (λ _, True) (BotDB.count_words_to_learn u)
  ∧ confined (R u) (λ _, True) (BotDB.count_words_already_learnt u).
Proof using R_same R_trans.
  unfold BotDB.all_words_ids, BotDB.all_main_words_ids,
    BotDB.count_words_to_learn, BotDB.count_words_already_learnt.
  split_and!; repeat confined_step.
Qed.

Lemma confined_add_word (u c : Z) :
  confined (R u) (λ _, True) (BotDB.add_word u c).
Proof using R_same R_trans R_insert_words_to_users.
  unfold BotDB.add_word, BotDB.all_words_ids. repeat confined_step.
Qed.

Lemma confined_add_learn_counter (u : Z) (word : str) :
  confined (R u) (λ _, True) (BotDB.add_learn_counter u word).
Proof using R_same R_trans R_update_learn_counter.
  unfold BotDB.add_learn_counter. repeat confined_step.
Qed.

Lemma confined_check_if_learnt (u : Z) (word : str) :
  confined (R u) (λ _, True) (BotDB.check_if_learnt u word).
Proof using R_same R_trans.
  unfold BotDB.check_if_learnt. repeat confined_step.
Qed.

(** *** The handlers *)

#[local] Hint Resolve confined_register_user confined_drop_progress
  confined_get_random_word confined_get_random_examples confined_delete_word
  confined_add_word confined_add_learn_counter confined_check_if_learnt
  : confined.

#[local] Hint Extern 1 (confined _ _ (BotDB.all_words_ids _)) =>
  apply confined_counts : confined.
#[local] Hint Extern 1 (confined _ _ BotDB.all_main_words_ids) =>
  apply confined_counts : confined.
#[local] Hint Extern 1 (confined _ _ (BotDB.count_words_to_learn _)) =>
  apply confined_counts : confined.
#[local] Hint Extern 1 (confined _ _ (BotDB.count_words_already_learnt _)) =>
  apply confined_counts : confined.

Lemma confined_subscriptions (u : Z) (self : Notification.Instance)
    (message : Message) :
  confined (R u) (λ _, True) (Notification.start self message)
  ∧ confined (R u) (λ _, True) (Notification.stop self message)
  ∧ confined (R u) (λ _, True) (Notification.job self).
Proof using All.
  split_and!; apply confined_read_only; intros w.
  - unfold Notification.start, mbind, M_bind, Notification.load. simpl.
    by case_decide.
  - unfold Notification.stop, mbind, M_bind, Notification.load. simpl.
    case_decide as Hin; [|done]. unfold Notification.delitem.
    by rewrite decide_True by done.
  - unfold Notification.job, mbind, M_bind, Notification.load. simpl.
    generalize (default [] (store w !! Notification.self_subscribers self)).*1.
    intros l. revert w.
    cut (∀ w0 w, db w = db w0 → user_data w = user_data w0 →
           match for_each l (λ user_id,
                   Notification.send_message user_id Reminder) w with
           | Ok _ w' | Raise _ w' =>
               db w' = db w0 ∧ user_data w' = user_data w0
           | Pending => True
           end).
    { intros H w. by apply H. }
    induction l as [|x l IH]; intros w0 w Hdb Hdata; [done|].
    simpl. unfold mbind, M_bind. simpl. by apply IH.
Qed.

Lemma confined_start_message (u : Z) (message : Message) :
  confined (R u) (λ _, True) (start_message message).
Proof using All. unfold start_message. repeat confined_step. Qed.

Lemma confined_get_user_id (message : Message) :
  confined (R (from_user_id message)) (λ a, a = from_user_id message)
    (get_user_id message).
Proof using All.
  unfold get_user_id. cbv zeta. repeat confined_step.
Qed.

Lemma confined_shuffle {A} (u : Z) (x : list A) :
  confined (R u) (λ _, True) (shuffle x).
Proof using All.
  unfold shuffle. generalize (length x - 1)%nat. intros n. revert x.
  induction n as [|n IH]; intros x; simpl; repeat confined_step.
Qed.

Lemma confined_generate_buttons (u : Z) (english_word : str) :
  confined (R u) (λ _, True) (generate_buttons english_word).
Proof using All.
  unfold generate_buttons. repeat confined_step. apply confined_shuffle.
Qed.

#[local] Hint Resolve confined_start_message confined_generate_buttons
  : confined.

Lemma confined_start_word_learning_session (message : Message) :
  confined (R (from_user_id message)) (λ _, True)
    (start_word_learning_session message).
Proof using All.
  unfold start_word_learning_session, offer_reset_progress, send_help.
  case_decide as Hstart; [|repeat confined_step].
  eapply confined_bind; [apply confined_get_user_id|].
  intros user_id ->. repeat confined_step.
  destruct a0 as [[russian_word english_word] example].
  repeat confined_step.
Qed.

Lemma confined_start_new_round (message : Message) :
  confined (R (from_user_id message)) (λ _, True) (start_new_round message).
Proof using All.
  apply (confined_start_word_learning_session
           {| from_user_id := from_user_id message;
              chat_id := chat_id message; text := Some Command.START |}).
Qed.

Lemma confined_handle_special_commands (u : Z) (message : Message) :
  confined (R u) (λ _, True) (handle_special_commands message).
Proof using All.
  unfold handle_special_commands, command_handlers. cbv zeta.
  simpl list_find.
  unfold show_menu, handle_subscribe, handle_unsubscribe.
  repeat (case_decide; simpl); repeat confined_step;
    apply confined_subscriptions.
Qed.

#[local] Hint Resolve confined_start_new_round
  confined_handle_special_commands : confined.

Lemma handlers_confined (message : Message) :
  confined (R (from_user_id message)) (λ _, True)
    (start_word_learning_session message)
  ∧ confined (R (from_user_id message)) (λ _, True)
      (handle_user_answer message)
  ∧ confined (R (from_user_id message)) (λ _, True) (drop_progress message)
  ∧ (∀ u, confined (R u) (λ _, True) (start_message message)
          ∧ confined (R u) (λ _, True) (show_menu message)
          ∧ confined (R u) (λ _, True) (send_help message)
          ∧ confined (R u) (λ _, True) (handle_subscribe message)
          ∧ confined (R u) (λ _, True) (handle_unsubscribe message)
          ∧ confined (R u) (λ _, True) daily_reminder).
Proof using All.
  split_and!.
  - apply confined_start_word_learning_session.
  - unfold handle_user_answer. cbv zeta.
    eapply confined_bind; [apply confined_get_english_word|].
    intros english_word _.
    eapply confined_bind; [apply confined_get_user_id|].
    intros user_id ->.
    unfold handle_correct_answer, handle_incorrect_answer, add_new_word,
      delete_word.
    repeat confined_step.
  - unfold drop_progress. cbv zeta. repeat confined_step.
  - intros u.
    unfold show_menu, send_help, handle_subscribe, handle_unsubscribe,
      daily_reminder.
    split_and!; repeat confined_step;
      apply (confined_subscriptions u _ message).
Qed.

End confinement.

(** *** Other users *)

Lemma others_kept_refl (u : Z) (d : Database) : others_kept u d d.
Proof. by split. Qed.

Lemma others_kept_trans (u : Z) (d1 d2 d3 : Database) :
  others_kept u d1 d2 → others_kept u d2 d3 → others_kept u d1 d3.
Proof.
  intros [Hw1 H1] [Hw2 H2]. split; [congruence|].
  intros other Hother.
  destruct (H1 other Hother) as [Hu1 Hr1], (H2 other Hother) as [Hu2 Hr2].
  split; [by rewrite Hu2|congruence].
Qed.

Lemma insert_users_kept (u : Z) (d d' : Database) :
  insert_users u d = inl d' → others_kept u d d'.
Proof.
  unfold insert_users. repeat case_decide; try done.
  intros [= <-]. split; [done|]. intros other Hother. simpl.
  split; [set_solver|done].
Qed.

Lemma insert_words_to_users_kept (wid u c : Z) (d d' : Database) :
  insert_words_to_users wid u c d = inl d' → others_kept u d d'.
Proof.
  unfold insert_words_to_users. repeat case_decide; try done.
  intros [= <-]. split; [done|]. intros other Hother. simpl.
  split; [done|].
  rewrite filter_app, filter_cons_False by (simpl; congruence).
  by rewrite filter_nil, app_nil_r.
Qed.

Lemma delete_words_to_users_kept (wid : option Z) (u : Z) (d : Database) :
  others_kept u d (delete_words_to_users wid u d).
Proof.
  split; [done|]. intros other Hother. split; [done|]. simpl.
  apply filter_filter_other. intros p Hp [_ Hu]. congruence.
Qed.

Lemma delete_words_of_user_kept (u : Z) (d : Database) :
  others_kept u d (delete_words_of_user u d).
Proof.
  split; [done|]. intros other Hother. split; [done|]. simpl.
  apply filter_filter_other. intros p Hp. congruence.
Qed.

Lemma delete_users_kept (u : Z) (d d' : Database) :
  delete_users u d = inl d' → others_kept u d d'.
Proof.
  unfold delete_users. case_decide; [done|].
  intros [= <-]. split; [done|]. intros other Hother. simpl.
  split; [|done]. rewrite list_elem_of_filter. naive_solver.
Qed.

Lemma filter_increment_user (wid : option Z) (other uid : Z)
    (rows : list Progress) :
  other ≠ uid →
  filter (λ p, pr_user_id p = other) (increment wid uid <$> rows)
  = filter (λ p, pr_user_id p = other) rows.
Proof.
  intros Hne. induction rows as [|p rows IH]; [done|].
  rewrite fmap_cons, !filter_cons, IH. unfold increment.
  destruct (decide (key_matches wid uid p)) as [[Hw Hu]|Hno]; [|done].
  simpl. rewrite !decide_False by congruence. done.
Qed.

Lemma update_learn_counter_kept (wid : option Z) (u : Z) (d d' : Database) :
  update_learn_counter wid u d = inl d' → others_kept u d d'.
Proof.
  unfold update_learn_counter. case_decide; [done|].
  intros [= <-]. split; [done|]. intros other Hother. simpl.
  split; [done|]. by apply filter_increment_user.
Qed.

(** X21: Whatever a handler does for a message, and whether it returns or
    raises on the way, it leaves the lexicon alone and with it every other
    user: who is registered, their progress rows and their stored
    questions are as before.  The subscription handlers and the daily
    reminder change nothing of any user. *)
Theorem handlers_touch_only_the_sender (message : Message) :
  confined (touches_only (from_user_id message)) (λ _, True)
    (start_word_learning_session message)
  ∧ confined (touches_only (from_user_id message)) (λ _, True)
      (handle_user_answer message)
  ∧ confined (touches_only (from_user_id message)) (λ _, True)
      (drop_progress message)
  ∧ (∀ u, confined (touches_only u) (λ _, True) (start_message message)
          ∧ confined (touches_only u) (λ _, True) (show_menu message)
          ∧ confined (touches_only u) (λ _, True) (send_help message)
          ∧ confined (touches_only u) (λ _, True) (handle_subscribe message)
          ∧ confined (touches_only u) (λ _, True)
              (handle_unsubscribe message)
          ∧ confined (touches_only u) (λ _, True) daily_reminder).
Proof.
  apply (handlers_confined touches_only).
  - intros u w w' Hdb Hdata. split; [rewrite Hdb; apply others_kept_refl|].
    by rewrite Hdata.
  - intros u w1 w2 w3 [Hd1 Hk1] [Hd2 Hk2].
    split; [by eapply others_kept_trans|].
    intros k Hk. by rewrite Hk2, Hk1.
  - intros u w d' Hd. split; [by apply insert_users_kept|done].
  - intros wid u c w d' Hd.
    split; [by eapply insert_words_to_users_kept|done].
  - intros wid u w. split; [apply delete_words_to_users_kept|done].
  - intros u w. split; [apply delete_words_of_user_kept|done].
  - intros u w d' Hd. split; [by apply delete_users_kept|done].
  - intros wid u w d' Hd. split; [by eapply update_learn_counter_kept|done].
  - intros m v w. split; [apply others_kept_refl|].
    intros [k1 k2] Hk. simpl in *. rewrite lookup_insert_ne; [done|].
    congruence.
Qed.

(** *** The constraints of the schema *)

Lemma keys_after_filter (P : Progress → Prop) `{∀ p, Decision (P p)}
    (rows : list Progress) :
  NoDup (key <$> rows) → NoDup (key <$> filter P rows).
Proof.
  intros Hkeys. eapply sublist_NoDup; [done|].
  apply fmap_sublist, sublist_filter.
Qed.

Lemma Forall_after_filter {A} (P Q : A → Prop) `{∀ x, Decision (Q x)}
    (l : list A) :
  Forall P l → Forall P (filter Q l).
Proof.
  rewrite !Forall_forall. intros Hall x [_ Hx]%list_elem_of_filter. auto.
Qed.

Lemma insert_users_schema (u : Z) (d d' : Database) :
  insert_users u d = inl d' → schema_holds d → schema_holds d'.
Proof.
  unfold insert_users. repeat case_decide; try done.
  intros [= <-] (Hwords & Husers & Hkeys & Hfk).
  split_and!; simpl; try done.
  - apply NoDup_app. split_and!; [done|set_solver|apply NoDup_singleton].
  - eapply Forall_impl; [done|]. set_solver.
Qed.

Lemma insert_words_to_users_schema (wid u c : Z) (d d' : Database) :
  insert_words_to_users wid u c d = inl d' → schema_holds d → schema_holds d'.
Proof.
  unfold insert_words_to_users.
  case_decide; [|done]. case_decide as Hpk; [done|].
  case_decide as Hfk'; [|done].
  intros [= <-] (Hwords & Husers & Hkeys & Hfk).
  split_and!; simpl; try done.
  - rewrite fmap_app. apply NoDup_app.
    split_and!; [done| |apply NoDup_singleton].
    intros k Hk Hnew. apply list_elem_of_singleton in Hnew as ->.
    apply Hpk, Exists_exists.
    apply list_elem_of_fmap in Hk as (p & Hp & Hin).
    exists p. split; [done|]. unfold key in Hp. simpl in Hp.
    injection Hp as Hw Hu. by split.
  - apply Forall_app. split; [done|]. by apply Forall_singleton.
Qed.

Lemma delete_words_to_users_schema (wid : option Z) (u : Z) (d : Database) :
  schema_holds d → schema_holds (delete_words_to_users wid u d).
Proof.
  intros (Hwords & Husers & Hkeys & Hfk). split_and!; simpl; try done.
  - by apply keys_after_filter.
  - by apply Forall_after_filter.
Qed.

Lemma delete_words_of_user_schema (u : Z) (d : Database) :
  schema_holds d → schema_holds (delete_words_of_user u d).
Proof.
  intros (Hwords & Husers & Hkeys & Hfk). split_and!; simpl; try done.
  - by apply keys_after_filter.
  - by apply Forall_after_filter.
Qed.

Lemma delete_users_schema (u : Z) (d d' : Database) :
  delete_users u d = inl d' → schema_holds d → schema_holds d'.
Proof.
  unfold delete_users. case_decide as Hrows; [done|].
  intros [= <-] (Hwords & Husers & Hkeys & Hfk).
  split_and!; simpl; try done.
  - by apply NoDup_filter.
  - rewrite Forall_forall in Hfk. apply Forall_forall. intros p Hp.
    destruct (Hfk p Hp) as [Hw Hu]. split; [done|].
    apply list_elem_of_filter. split; [|done].
    intros Heq. apply Hrows, Exists_exists. by exists p.
Qed.

Lemma update_learn_counter_schema
    (wid : option Z) (u : Z) (d d' : Database) :
  update_learn_counter wid u d = inl d' → schema_holds d → schema_holds d'.
Proof.
  unfold update_learn_counter. case_decide; [done|].
  intros [= <-] (Hwords & Husers & Hkeys & Hfk).
  split_and!; simpl; try done.
  - by rewrite key_increment.
  - apply Forall_fmap. eapply Forall_impl; [done|].
    intros p Hp. unfold compose, increment. by case_decide.
Qed.

Lemma handlers_keep_schema (message : Message) :
  confined keeps_schema (λ _, True) (start_word_learning_session message)
  ∧ confined keeps_schema (λ _, True) (handle_user_answer message)
  ∧ confined keeps_schema (λ _, True) (drop_progress message)
  ∧ (∀ u : Z,
       confined keeps_schema (λ _, True) (start_message message)
       ∧ confined keeps_schema (λ _, True) (show_menu message)
       ∧ confined keeps_schema (λ _, True) (send_help message)
       ∧ confined keeps_schema (λ _, True) (handle_subscribe message)
       ∧ confined keeps_schema (λ _, True) (handle_unsubscribe message)
       ∧ confined keeps_schema (λ _, True) daily_reminder).
Proof.
  apply (handlers_confined (λ _, keeps_schema)); unfold keeps_schema.
  - intros _ w w' Hdb _ ?. by rewrite Hdb.
  - auto.
  - intros u w d'. apply insert_users_schema.
  - intros wid u c w d'. apply insert_words_to_users_schema.
  - intros wid u w. apply delete_words_to_users_schema.
  - intros u w. apply delete_words_of_user_schema.
  - intros u w d'. apply delete_users_schema.
  - intros wid u w d'. apply update_learn_counter_schema.
  - by intros m v w.
Qed.

(** X22: The handlers keep the constraints of the schema: from a database in
    which the primary keys are unique and every progress row refers to a
    word and to a user that exist, each handler ends, by a return or by an
    exception, in such a database. *)
Theorem handlers_keep_the_constraints (message : Message) (w : World) :
  schema_holds (db w) →
  Forall (λ handler : Message → M unit,
            match handler message w with
            | Ok _ w' | Raise _ w' => schema_holds (db w')
            | Pending => True
            end)
         [start_word_learning_session; handle_user_answer; drop_progress;
          start_message; handle_subscribe; handle_unsubscribe;
          λ _, daily_reminder].
Proof.
  intros Hschema.
  destruct (handlers_keep_schema message)
    as (Hsession & Hanswer & Hdrop & Hrest).
  destruct (Hrest 0) as (Hstart & _ & _ & Hsub & Hunsub & Hjob).
  assert (∀ m : M unit, confined keeps_schema (λ _, True) m →
            match m w with
            | Ok _ w' | Raise _ w' => schema_holds (db w')
            | Pending => True
            end) as Hrun.
  { intros m Hm. specialize (Hm w).
    destruct (m w) as [a w'|e w'|]; [|by apply Hm|done].
    destruct Hm as [Hm _]. by apply Hm. }
  repeat (apply Forall_cons; split; [by apply Hrun|]).
  apply Forall_nil_2.
Qed.

Lemma handlers_keep_the_constraints_witness :
  schema_holds (db (asked_for_apple 4 [] [2%nat]))
  ∧ Forall (λ handler : Message → M unit,
              match handler (message_of Yabloko)
                      (asked_for_apple 4 [] [2%nat]) with
              | Ok _ w' | Raise _ w' => schema_holds (db w')
              | Pending => True
              end)
           [start_word_learning_session; handle_user_answer; drop_progress;
            start_message; handle_subscribe; handle_unsubscribe;
            λ _, daily_reminder].
Proof.
  split; [by_computation|].
  apply (handlers_keep_the_constraints (message_of Yabloko)
           (asked_for_apple 4 [] [2%nat])).
  by_computation.
Defined.

(** ** How many words a user can hold *)

Lemma keys_of_user (uid : Z) (rows : list Progress) :
  key <$> filter (λ p, pr_user_id p = uid) rows
  = (λ z, (z, uid)) <$> (pr_word_id <$> filter (λ p, pr_user_id p = uid) rows).
Proof.
  rewrite <- list_fmap_compose. apply list_fmap_ext.
  intros _ p [Hu _]%list_elem_of_lookup_2%list_elem_of_filter.
  unfold key, compose. by rewrite Hu.
Qed.

Lemma held_ids_under_the_schema (d : Database) (uid : Z) :
  schema_holds d →
  NoDup (select_word_ids_of_user uid d)
  ∧ select_word_ids_of_user uid d ⊆ word_id <$> words d.
Proof.
  intros (Hwords & Husers & Hkeys & Hfk). unfold select_word_ids_of_user.
  split.
  - apply (NoDup_fmap_1 (λ z, (z, uid))). rewrite <- keys_of_user.
    by apply keys_after_filter.
  - intros z (p & -> & [_ Hp]%list_elem_of_filter)%list_elem_of_fmap.
    rewrite Forall_forall in Hfk. by apply Hfk.
Qed.

(** X23: Under the constraints of the schema a user holds no more words than
    the lexicon has, so the comparison of the two counts in [add_new_word]
    is the test it is meant to be: the handler reports the maximum when the
    user holds every word of the lexicon, and goes on to [add_word] when
    some word of the lexicon is not held. *)
Theorem maximum_means_every_word_is_held
    (w : World) (message : Message) (user_id : Z) :
  schema_holds (db w) →
  (length (select_word_ids_of_user user_id (db w)) ≤ length (words (db w)))%nat
  ∧ (Forall (λ r, word_id r ∈ select_word_ids_of_user user_id (db w))
            (words (db w)) →
     add_new_word message user_id w
     = (send_message (chat_id message) MaxWordsAdded;;
        start_new_round message) w)
  ∧ (Exists (λ r, word_id r ∉ select_word_ids_of_user user_id (db w))
            (words (db w)) →
     add_new_word message user_id w
     = (word_id ← BotDB.add_word user_id 0;
        new_word ← BotDB.word_id_to_word word_id;
        to_learn ← BotDB.count_words_to_learn user_id;
        learnt ← BotDB.count_words_already_learnt user_id;
        send_message (chat_id message) (WordAdded new_word to_learn learnt);;
        start_new_round message) w).
Proof.
  intros Hschema.
  destruct (held_ids_under_the_schema (db w) user_id Hschema) as [Hnd Hsub].
  destruct Hschema as (Hwords & _).
  assert (select_word_ids_of_user user_id (db w) ⊆+ word_id <$> words (db w))
    as Hheld by by apply NoDup_submseteq.
  pose proof (submseteq_length _ _ Hheld) as Hle.
  rewrite length_fmap in Hle.
  split_and!; [done| |].
  - intros Hall. rewrite add_new_word_run, decide_True; [done|].
    assert (word_id <$> words (db w)
            ⊆+ select_word_ids_of_user user_id (db w)) as Hfull.
    { apply NoDup_submseteq; [done|].
      intros z (r & -> & Hr)%list_elem_of_fmap.
      rewrite Forall_forall in Hall. by apply Hall. }
    apply submseteq_length in Hfull. rewrite length_fmap in Hfull. lia.
  - intros (r & Hr & Hfree)%Exists_exists.
    rewrite add_new_word_run, decide_False; [done|].
    intros Hlen. apply Hfree.
    rewrite (submseteq_length_Permutation _ _ Hheld)
      by (rewrite length_fmap; lia).
    apply list_elem_of_fmap. by exists r.
Qed.

Lemma maximum_means_every_word_is_held_witness :
  (length (select_word_ids_of_user 7 (db_with_user 3 3)) ≤ 3)%nat
  ∧ add_new_word (message_of Command.ADD_WORD) 7
      (process_start (db_with_user 3 3) [] [])
    = (send_message 7 MaxWordsAdded;;
       start_new_round (message_of Command.ADD_WORD))
        (process_start (db_with_user 3 3) [] []).
Proof.
  pose proof (maximum_means_every_word_is_held
                (process_start (db_with_user 3 3) [] [])
                (message_of Command.ADD_WORD) 7
                ltac:(by_computation)) as (Hle & Hmax & _).
  split; [exact Hle|]. apply Hmax. by_computation.
Defined.

(** ** Commands and buttons in place of an answer *)

(** X24: A command typed in place of an answer is served and raises nothing:
    [/start] gets the list of commands, [/menu] the welcome, and the other
    two the subscription handlers.  No progress changes, and the next
    message goes to [start_word_learning_session]: the question is not
    asked again. *)
Theorem commands_typed_as_an_answer
    (w : World) (message : Message) (english_word : str) :
  user_data w !! (from_user_id message, chat_id message) = Some english_word →
  from_user_id message ∈ users (db w) →
  lower (text_of message) ≠ lower english_word →
  text_of message ∈ [lit_start; lit_menu; lit_subscribe; lit_unsubscribe] →
  handle_user_answer message w
  = (if decide (text_of message = lit_start) then show_menu message
     else if decide (text_of message = lit_menu) then start_message message
     else if decide (text_of message = lit_subscribe)
     then handle_subscribe message
     else handle_unsubscribe message)
      (set_next_step
         (next_step w ++ [(chat_id message, to_start_word_learning_session)])
         w)
  ∧ ∃ w', handle_user_answer message w = Ok tt w'
          ∧ db w' = db w
          ∧ user_data w' = user_data w
          ∧ next_step w'
            = next_step w ++ [(chat_id message, to_start_word_learning_session)].
Proof.
  intros Hdata Hin Hwrong Hcmd.
  assert (truthy (text message) = true) as Htruthy.
  { unfold text_of in Hcmd. destruct (text message) as [[|c t]|]; [|done|];
      simpl in Hcmd; exfalso; revert Hcmd; by_computation. }
  rewrite (handle_user_answer_run _ _ english_word) by done.
  rewrite decide_False by done. rewrite decide_True by done.
  set (w1 := set_next_step _ w).
  assert (handle_special_commands message w1
          = (if decide (text_of message = lit_start) then show_menu message
             else if decide (text_of message = lit_menu)
             then start_message message
             else if decide (text_of message = lit_subscribe)
             then handle_subscribe message
             else handle_unsubscribe message) w1) as ->.
  { unfold handle_special_commands, command_handlers. cbv zeta.
    repeat (apply elem_of_cons in Hcmd as [Hc|Hcmd];
            [rewrite Hc; reflexivity|]).
    by apply not_elem_of_nil in Hcmd. }
  split; [done|].
  repeat case_decide.
  - by eexists.
  - by eexists.
  - unfold handle_subscribe, Notification.start, mbind, M_bind,
      Notification.load. simpl. case_decide; by eexists.
  - unfold handle_unsubscribe, Notification.stop, mbind, M_bind,
      Notification.load. simpl. case_decide as Hsub; [|by eexists].
    unfold Notification.delitem. rewrite decide_True by done. by eexists.
Qed.

Lemma commands_typed_as_an_answer_witness :
  handle_user_answer (message_of lit_start) (asked_for_apple 2 [] [])
  = Ok tt (set_sent [(7, MenuText)]
             (set_next_step [(7, to_start_word_learning_session)]
                (asked_for_apple 2 [] []))).
Proof.
  pose proof (commands_typed_as_an_answer (asked_for_apple 2 [] [])
                (message_of lit_start) Yabloko eq_refl
                ltac:(by_computation) ltac:(by_computation)
                ltac:(by_computation)) as [H _].
  exact H.
Defined.

(** X25: The button 'Удалить слово❌' pressed at a question: the handler
    deletes the progress row of the word asked for, says so, and starts a
    new round in which that word cannot be drawn.  The lexicon is assumed
    to store each translation once, and that of the word asked for has no
    [%], [_] or backslash. *)
Theorem delete_button_removes_the_asked_word
    (w : World) (message : Message) (row : Word) :
  user_data w !! (from_user_id message, chat_id message)
    = Some (translation row) →
  from_user_id message ∈ users (db w) →
  text message = Some Command.DELETE_WORD →
  lower Command.DELETE_WORD ≠ lower (translation row) →
  row ∈ words (db w) →
  NoDup (translation <$> words (db w)) →
  plain (translation row) →
  ∃ w',
    handle_user_answer message w = start_new_round message w'
    ∧ db w' = delete_words_to_users (Some (word_id row))
                (from_user_id message) (db w)
    ∧ sent w' = sent w ++ [(chat_id message, WordDeleted (translation row))]
    ∧ (word row, translation row, definition row)
        ∉ select_words_to_learn (from_user_id message) (db w').
Proof.
  intros Hdata Hin Htext Hwrong Hrow Hnd Hplain.
  assert (text_of message = Command.DELETE_WORD) as Htext_of
    by (unfold text_of; by rewrite Htext).
  rewrite (handle_user_answer_run _ _ (translation row));
    [|done..|by rewrite Htext].
  rewrite Htext_of.
  rewrite decide_False by done.
  rewrite decide_False by by_computation.
  rewrite decide_False by by_computation.
  rewrite decide_False by by_computation.
  rewrite decide_True by done.
  set (w1 := set_next_step _ w).
  unfold delete_word, mbind at 1, M_bind at 1, get_english_word.
  change (user_data w1) with (user_data w). rewrite Hdata.
  unfold mbind at 1, M_bind at 1. rewrite delete_word_eval.
  change (db w1) with (db w).
  rewrite select_word_id_like_plain by done.
  rewrite (filter_unique translation _ row) by done. simpl head.
  unfold mbind at 1, M_bind at 1, send_message, Notification.send_message.
  eexists. split; [reflexivity|]. split_and!; [done..|].
  simpl. intros (r & p & Hr & Hp & Hw & Hu & _ & Hx)%elem_of_words_to_learn.
  simpl in Hr, Hp. injection Hx as _ Htr _.
  assert (r ∈ filter (λ y, translation y = translation row) (words (db w)))
    as Hr' by by apply list_elem_of_filter.
  rewrite (filter_unique translation _ row) in Hr' by done.
  apply list_elem_of_singleton in Hr' as ->.
  apply list_elem_of_filter in Hp as [Hkey _]. apply Hkey.
  split; [by rewrite Hw|done].
Qed.

Lemma delete_button_removes_the_asked_word_witness :
  ∃ w',
    handle_user_answer (message_of Command.DELETE_WORD)
      (asked_for_apple 2 [] [])
    = start_new_round (message_of Command.DELETE_WORD) w'
    ∧ db w' = delete_words_to_users (Some 1) 7 (apple_db 2)
    ∧ sent w' = [(7, WordDeleted Yabloko)]
    ∧ (Apple, Yabloko, None) ∉ select_words_to_learn 7 (db w').
Proof.
  apply (delete_button_removes_the_asked_word (asked_for_apple 2 [] [])
           (message_of Command.DELETE_WORD) apple_word);
    [reflexivity|by_computation|reflexivity|by_computation|by_computation
    |by_computation|by_computation].
Defined.

(** ** When the choices cannot be four *)

Lemma get_random_examples_cases (w : World) :
  match BotDB.get_random_examples w with
  | Ok ex w' =>
      ex.1.2 ∈ translation <$> words (db w) ∧ db w' = db w
  | Raise e w' => e = TypeError ∧ w' = w ∧ words (db w) = []
  | Pending => words (db w) ≠ []
  end.
Proof.
  unfold BotDB.get_random_examples, query, mbind, M_bind. cbv beta iota.
  destruct (words (db w)) as [|r0 rows] eqn:Hwords; [done|].
  unfold order_by_random. rewrite fmap_cons.
  destruct (pg_random w) as [|r rest]; [done|].
  set (all := _ :: _).
  destruct (lookup_lt_is_Some_2 all (r mod length all)%nat) as [x Hx];
    [by apply Nat.mod_upper_bound|].
  rewrite Hx. simpl. split; [|done].
  apply list_elem_of_lookup_2 in Hx.
  change all
    with ((λ r, (word r, translation r, definition r)) <$> r0 :: rows) in Hx.
  apply list_elem_of_fmap in Hx as (row & -> & Hrow).
  change (translation row ∈ translation <$> r0 :: rows).
  apply list_elem_of_fmap. by exists row.
Qed.

Lemma choices_loop_goes_on (bound : gset str) (d : Database) :
  words d ≠ [] →
  list_to_set (translation <$> words d) ⊆ bound →
  (size bound < 4)%nat →
  ∀ fuel (s : gset str) (w : World),
    db w = d → s ⊆ bound →
    while_fuel fuel (λ s : gset str, bool_decide (size s < 4)%nat)
      (λ s, ex ← BotDB.get_random_examples; mret (s ∪ {[ ex.1.2 ]})) s w
    = Pending.
Proof.
  intros Hlex Hbound Hsize.
  induction fuel as [|fuel IH]; intros s w Hdb Hs.
  - simpl. rewrite bool_decide_true; [done|].
    pose proof (subseteq_size s bound Hs). lia.
  - rewrite while_fuel_step.
    2:{ apply bool_decide_true. pose proof (subseteq_size s bound Hs). lia. }
    unfold mbind at 1, M_bind at 1.
    pose proof (get_random_examples_cases w) as Hcases.
    destruct (BotDB.get_random_examples w) as [ex w'|e w'|]; [| |done].
    + destruct Hcases as [Hex Hdb']. unfold mret, M_ret.
      apply IH; [congruence|].
      rewrite Hdb in Hex. set_solver.
    + destruct Hcases as (_ & _ & Hnil). by rewrite Hdb in Hnil.
Qed.

(** X26: With fewer than four captions to choose from (the answer and the
    translations of the lexicon), [generate_buttons] never returns: however
    many draws it is given, it is still drawing when they are used up.
    Over an empty lexicon it raises TypeError at the first draw. *)
Theorem generate_buttons_needs_four_captions
    (w : World) (english_word : str) :
  (size ({[english_word]} ∪ list_to_set (translation <$> words (db w))
         : gset str) < 4)%nat →
  generate_buttons english_word w
  = if decide (words (db w) = []) then Raise TypeError w else Pending.
Proof.
  intros Hsize. case_decide as Hlex.
  - unfold generate_buttons, mbind at 1, M_bind at 1, while.
    rewrite while_fuel_step.
    2:{ apply bool_decide_true. rewrite size_singleton. lia. }
    unfold mbind at 1, M_bind at 1.
    pose proof (get_random_examples_cases w) as Hcases.
    unfold BotDB.get_random_examples, query, mbind, M_bind in *.
    rewrite Hlex in *. done.
  - unfold generate_buttons, mbind at 1, M_bind at 1, while.
    rewrite (choices_loop_goes_on _ (db w) Hlex (union_subseteq_r _ _) Hsize);
      [done..|set_solver].
Qed.

Lemma generate_buttons_needs_four_captions_witness :
  generate_buttons (translation (numbered_word 1))
    (process_start (fresh_db 3) (seq 0 50) (seq 0 50))
  = Pending.
Proof.
  apply (generate_buttons_needs_four_captions
           (process_start (fresh_db 3) (seq 0 50) (seq 0 50))
           (translation (numbered_word 1))).
  by_computation.
Defined.

(** ** Any other text *)

(** X27: A text that is none of the three menu buttons and not [/help] is
    passed over by [start_word_learning_session]: it sends nothing,
    registers nobody and changes nothing at all.  So is a message without
    text. *)
Theorem other_text_is_passed_over (w : World) (message : Message) :
  text message ∉ [Some Command.START; Some Command.RULES; Some lit_help;
                  Some Command.START_AGAIN] →
  start_word_learning_session message w = Ok tt w.
Proof.
  intros Hother. unfold start_word_learning_session.
  rewrite decide_False by set_solver.
  rewrite decide_False by set_solver.
  by rewrite decide_False by set_solver.
Qed.

Lemma other_text_is_passed_over_witness :
  start_word_learning_session (message_of Apple) (asked_for_apple 2 [] [])
  = Ok tt (asked_for_apple 2 [] []).
Proof.
  apply (other_text_is_passed_over (asked_for_apple 2 [] [])
           (message_of Apple)).
  by_computation.
Defined.

(** ** Fewer than four captions *)

Lemma generate_buttons_goes_on (w : World) (english_word : str) :
  words (db w) ≠ [] →
  (size ({[english_word]} ∪ list_to_set (translation <$> words (db w))
         : gset str) < 4)%nat →
  generate_buttons english_word w = Pending.
Proof.
  intros Hlex Hsize.
  unfold generate_buttons, mbind at 1, M_bind at 1, while.
  rewrite (choices_loop_goes_on _ (db w) Hlex (union_subseteq_r _ _) Hsize);
    [done..|set_solver].
Qed.

(** C9 fails over a lexicon of three words: [generate_buttons] returns no
    keyboard, whatever draws it is given. *)
Lemma generate_buttons_over_three_words :
  ¬ ∃ py pg markup w',
      generate_buttons (translation (numbered_word 1))
        (process_start (fresh_db 3) py pg) = Ok markup w'.
Proof.
  intros (py & pg & markup & w' & Hreturns).
  rewrite generate_buttons_goes_on in Hreturns; [done| |];
    by_computation.
Qed.

(** ** The end of the sampling, and a lexicon of one word *)

(** Over a lexicon of one word, a round for a user who still has that word
    to learn never gets to its question: the choices cannot be four. *)
Lemma one_word_round_goes_on (w : World) (message : Message) (only : Word) :
  words (db w) = [only] →
  text message = Some Command.START →
  from_user_id message ∈ users (db w) →
  select_word_ids_of_user (from_user_id message) (db w) = [word_id only] →
  Exists (λ p, pr_user_id p = from_user_id message ∧ learn_counter p < 5)
         (words_to_users (db w)) →
  start_word_learning_session message w = Pending.
Proof.
  intros Hlex Htext Hin Hheld Hpending.
  rewrite start_word_learning_session_START by done. cbv zeta.
  rewrite decide_True by done.
  set (w1 := set_next_step _ w).
  pose proof (get_random_word_cases w1 (from_user_id message)) as Hcases.
  unfold mbind at 1, M_bind at 1.
  destruct (BotDB.get_random_word (from_user_id message) w1)
    as [x w2|e w2|]; [| |done].
  - destruct Hcases as [Hx (r & _ & Hw2 & _)].
    apply elem_of_words_to_learn in Hx as (row & p & Hrow & _ & _ & _ & _ & ->).
    change (db w1) with (db w) in Hrow. rewrite Hlex in Hrow.
    apply list_elem_of_singleton in Hrow as ->.
    unfold mbind at 1, M_bind at 1, set_english_word.
    unfold mbind at 1, M_bind at 1.
    set (w3 := set_user_data _ w2).
    assert (db w3 = db w) as Hdb by (unfold w3; simpl; by rewrite Hw2).
    unfold generate_buttons, mbind at 1, M_bind at 1, while.
    rewrite (choices_loop_goes_on {[translation only]} (db w3));
      [done| | | |done|done].
    + by rewrite Hdb, Hlex.
    + rewrite Hdb, Hlex. set_solver.
    + rewrite size_singleton. lia.
  - exfalso. destruct Hcases as (_ & _ & Hnone).
    apply Exists_exists in Hpending as (p & Hp & Hu & Hc).
    assert (pr_word_id p ∈ select_word_ids_of_user (from_user_id message)
                             (db w)) as Hid.
    { unfold select_word_ids_of_user. apply list_elem_of_fmap.
      exists p. split; [done|]. by apply list_elem_of_filter. }
    rewrite Hheld in Hid. apply list_elem_of_singleton in Hid.
    assert ((word only, translation only, definition only)
            ∈ select_words_to_learn (from_user_id message) (db w1)) as Hx.
    { apply elem_of_words_to_learn. exists only, p.
      change (db w1) with (db w). rewrite Hlex.
      split_and!; [by apply list_elem_of_singleton|done..]. }
    rewrite Hnone in Hx. by apply not_elem_of_nil in Hx.
Qed.

(** The same round for a user who has learnt the word ends with the offer
    to reset. *)
Lemma learnt_round_offers_reset (w : World) (message : Message) :
  text message = Some Command.START →
  from_user_id message ∈ users (db w) →
  Forall (λ p, pr_user_id p = from_user_id message → 5 <= learn_counter p)
         (words_to_users (db w)) →
  start_word_learning_session message w
  = Ok tt (set_next_step
             (next_step w ++
                [(chat_id message, to_start_word_learning_session);
                 (chat_id message, to_drop_progress)])
             (set_sent (sent w ++ [(chat_id message, AllLearntOfferReset)])
                w)).
Proof.
  intros Htext Hin Hall.
  rewrite start_word_learning_session_START by done. cbv zeta.
  rewrite decide_False.
  - unfold offer_reset_progress, mbind, M_bind, send_message,
      Notification.send_message, register_next_step_handler. simpl.
    by rewrite <- app_assoc.
  - rewrite Exists_exists. intros (p & Hp & Hu & Hc).
    rewrite Forall_forall in Hall. specialize (Hall p Hp Hu). lia.
Qed.

Lemma add_new_word_at_the_maximum (w : World) (message : Message)
    (user_id : Z) :
  length (select_word_ids_of_user user_id (db w)) = length (words (db w)) →
  add_new_word message user_id w
  = start_new_round message
      (set_sent (sent w ++ [(chat_id message, MaxWordsAdded)]) w).
Proof.
  intros Hmax. rewrite add_new_word_run. by rewrite decide_True.
Qed.

(** C2, as amended: the sampling of [generate_10_words] ends once the
    generator has yielded 10 distinct values, that of [add_word] once it
    yields an id the user does not hold.  Over a lexicon of one word that
    the user holds, [add_new_word] does not sample: it reports the maximum
    with every draw still to come and starts the next round.  That round
    ends with the offer to reset when the word is learnt; when it is not,
    the round never ends, whatever draws it is given, because the choices
    of the question cannot be four. *)
Theorem sampling_ends_on_a_free_draw
    (w : World) (message : Message) (user_id : Z) :
  ((10 ≤ size (list_to_set (randint_of 1 40 <$> py_random w) : gset Z))%nat →
   BotDB.generate_10_words user_id 0 w ≠ Pending)
  ∧ (Exists (λ r, randint_of 1 40 r ∉ select_word_ids_of_user user_id (db w))
            (py_random w) →
     BotDB.add_word user_id 0 w ≠ Pending)
  ∧ (∀ only, words (db w) = [only] →
     select_word_ids_of_user user_id (db w) = [word_id only] →
     from_user_id message = user_id →
     user_id ∈ users (db w) →
     add_new_word message user_id w
     = start_new_round message
         (set_sent (sent w ++ [(chat_id message, MaxWordsAdded)]) w)
     ∧ (Forall (λ p, pr_user_id p = user_id → 5 <= learn_counter p)
               (words_to_users (db w)) →
        add_new_word message user_id w
        = Ok tt (set_next_step
                   (next_step w ++
                      [(chat_id message, to_start_word_learning_session);
                       (chat_id message, to_drop_progress)])
                   (set_sent (sent w ++
                                [(chat_id message, MaxWordsAdded);
                                 (chat_id message, AllLearntOfferReset)])
                      w)))
     ∧ (Exists (λ p, pr_user_id p = user_id ∧ learn_counter p < 5)
               (words_to_users (db w)) →
        add_new_word message user_id w = Pending)).
Proof.
  split_and!.
  - intros Hdraws. rewrite generate_10_words_run.
    destruct (sample_enough (py_random w) 10 []) as [[ids t] ->].
    { simpl. by replace (list_to_set (randint_of 1 40 <$> py_random w) ∖ ∅
                         : gset Z)
        with (list_to_set (randint_of 1 40 <$> py_random w) : gset Z)
        by set_solver. }
    apply insert_each_ends.
  - intros Hdraw. rewrite add_word_run.
    apply first_fresh_is_Some in Hdraw as [[z t] ->].
    by destruct (insert_words_to_users z user_id 0 (db w)).
  - intros only Hlex Hheld Hsender Hin.
    rewrite add_new_word_at_the_maximum by (by rewrite Hlex, Hheld).
    subst user_id. split_and!; [done| |].
    + intros Hlearnt. unfold start_new_round.
      rewrite learnt_round_offers_reset by done. simpl.
      by rewrite <- app_assoc.
    + intros Hpending. unfold start_new_round.
      by apply (one_word_round_goes_on _ _ only).
Qed.

(** Twelve distinct draws for [generate_10_words]; the draws 4 and 13 for
    a user who holds 1..10; and a lexicon of one word that the user holds,
    learnt and not learnt. *)
Lemma sampling_ends_on_a_free_draw_witness :
  BotDB.generate_10_words 7 0 (process_start (db_with_user 40 0) (seq 5 12) [])
    ≠ Pending
  ∧ BotDB.add_word 7 0 (process_start (db_with_user 40 10) [3; 12]%nat [])
    ≠ Pending
  ∧ add_new_word (message_of Command.ADD_WORD) 7
      (process_start (one_word_db 5) [3]%nat [4]%nat)
    = Ok tt (set_next_step
               [(7, to_start_word_learning_session); (7, to_drop_progress)]
               (set_sent [(7, MaxWordsAdded); (7, AllLearntOfferReset)]
                  (process_start (one_word_db 5) [3]%nat [4]%nat)))
  ∧ add_new_word (message_of Command.ADD_WORD) 7
      (process_start (one_word_db 0) (seq 0 50) (seq 0 50))
    = Pending.
Proof.
  split_and!.
  - apply (sampling_ends_on_a_free_draw
             (process_start (db_with_user 40 0) (seq 5 12) [])
             (message_of Command.ADD_WORD) 7).
    by_computation.
  - apply (sampling_ends_on_a_free_draw
             (process_start (db_with_user 40 10) [3; 12]%nat [])
             (message_of Command.ADD_WORD) 7).
    by_computation.
  - apply (proj2 (proj2 (sampling_ends_on_a_free_draw
             (process_start (one_word_db 5) [3]%nat [4]%nat)
             (message_of Command.ADD_WORD) 7)) (numbered_word 1)
             eq_refl eq_refl eq_refl ltac:(by_computation)).
    by_computation.
  - apply (proj2 (proj2 (sampling_ends_on_a_free_draw
             (process_start (one_word_db 0) (seq 0 50) (seq 0 50))
             (message_of Command.ADD_WORD) 7)) (numbered_word 1)
             eq_refl eq_refl eq_refl ltac:(by_computation)).
    by_computation.
Defined.

(** C2 fails over a lexicon of 41 words for a user who holds the ids
    1..40: [add_new_word] starts the sampling, and no supply of draws ends
    it.  And over a lexicon of one word that the user holds and has not
    learnt, [add_new_word] does not end either, whatever the draws. *)
Lemma add_new_word_never_ends :
  (¬ ∃ py pg,
       add_new_word (message_of Command.ADD_WORD) 7
         (process_start (db_with_user 41 40) py pg) ≠ Pending)
  ∧ (¬ ∃ py pg,
         add_new_word (message_of Command.ADD_WORD) 7
           (process_start (db_with_user 1 1) py pg) ≠ Pending).
Proof.
  split.
  - intros (py & pg & Hends). apply Hends. clear Hends.
    assert (select_word_ids_of_user 7 (db_with_user 41 40) = seqZ 1 40)
      as Hheld by (vm_compute; reflexivity).
    rewrite add_new_word_run. simpl db. rewrite Hheld.
    rewrite decide_False by (vm_compute; lia).
    unfold mbind, M_bind. rewrite add_word_run. simpl db. rewrite Hheld.
    replace (first_fresh (seqZ 1 40)
               (py_random (process_start (db_with_user 41 40) py pg)))
      with (@None (Z * list nat)); [done|].
    symmetry. apply first_fresh_None, Forall_forall. intros r _.
    apply elem_of_seqZ. pose proof (randint_of_range r). lia.
  - intros (py & pg & Hends). apply Hends. clear Hends.
    rewrite add_new_word_at_the_maximum by reflexivity.
    unfold start_new_round.
    apply (one_word_round_goes_on _ _ (numbered_word 1));
      [reflexivity|reflexivity|by_computation|reflexivity|by_computation].
Qed.
